(** * Carapace: installed-state reconciliation and install/link engine

    A shallow embedding of [carapace/installer.py], [carapace/db.py] and the
    enable/disable handlers of [carapace/tui.py].

    Conventions of the embedding:
    - Python [str] values are [string]s (sequences of one-byte characters);
      [str.lower] is modelled on the ASCII range.
    - SQL tables are lists of rows in rowid order, the order of a table
      scan; [NULL] is [None].  A statement that names an add-on of the
      catalog ([WHERE name = ?]) is answered by SQLite from the index of
      [UNIQUE(name, repo_url)]: its rows come in the order of that index,
      and [fetchone] is the first of them.  The schema is the one that
      [db.py] creates.
    - The filesystem, the network and the subprocesses are not part of the
      program: the outcome of every external step is an input of the
      operation that performs it (the records named [*_world]).
    - Timestamps ([datetime.utcnow().isoformat()]) are passed as [now]. *)

From Stdlib Require Import ZArith List String Ascii Bool Lia.
From stdpp Require Import base option list strings gmap.

Import ListNotations.
Local Open Scope string_scope.
Local Open Scope list_scope.

(** ** Python string primitives *)

Module PyStr.

(** Truthiness of a [str]: only the empty string is falsy. *)
Definition truthy (s : string) : bool :=
  match s with
  | EmptyString => false
  | String _ _ => true
  end.

(** Truthiness of an optional [str] ([None] is falsy). *)
Definition otruthy (o : option string) : bool :=
  match o with
  | None => false
  | Some s => truthy s
  end.

(** [x or y] on optional strings. *)
Definition or_else (x y : option string) : option string :=
  if otruthy x then x else y.

Fixpoint startswith (pre s : string) : bool :=
  match pre with
  | EmptyString => true
  | String a pre' =>
      match s with
      | EmptyString => false
      | String b s' => Ascii.eqb a b && startswith pre' s'
      end
  end.

(** [s.replace(old, new)] for a non-empty [old]: occurrences are replaced
    from left to right without overlap.  [skip] counts the characters of a
    matched occurrence that remain to be dropped. *)
Fixpoint replace_from (old new : string) (skip : nat) (s : string) : string :=
  match s with
  | EmptyString => EmptyString
  | String c s' =>
      match skip with
      | S k => replace_from old new k s'
      | O =>
          if startswith old s
          then new ++ replace_from old new (String.length old - 1) s'
          else String c (replace_from old new 0 s')
      end
  end.

Definition replace (s old new : string) : string :=
  replace_from old new 0 s.

Fixpoint mem_char (c : ascii) (chars : string) : bool :=
  match chars with
  | EmptyString => false
  | String d chars' => Ascii.eqb c d || mem_char c chars'
  end.

(** [s.rstrip(chars)]: [chars] is a set of characters, every trailing
    character that belongs to it is removed. *)
Fixpoint rstrip (s chars : string) : string :=
  match s with
  | EmptyString => EmptyString
  | String c s' =>
      match rstrip s' chars with
      | EmptyString => if mem_char c chars then EmptyString else String c EmptyString
      | r => String c r
      end
  end.

Definition lower_char (c : ascii) : ascii :=
  let n := nat_of_ascii c in
  if (65 <=? n)%nat && (n <=? 90)%nat then ascii_of_nat (n + 32) else c.

Fixpoint lower (s : string) : string :=
  match s with
  | EmptyString => EmptyString
  | String c s' => String (lower_char c) (lower s')
  end.

(** [sub in s] *)
Fixpoint contains (sub s : string) : bool :=
  startswith sub s ||
  match s with
  | EmptyString => false
  | String _ s' => contains sub s'
  end.

Fixpoint endswith_from (suf s : string) (n : nat) : bool :=
  match n with
  | O => String.eqb suf s
  | S k =>
      match s with
      | EmptyString => false
      | String _ s' => endswith_from suf s' k
      end
  end.

(** [s.endswith(suf)] *)
Definition endswith (s suf : string) : bool :=
  endswith_from suf s (String.length s - String.length suf) &&
  (String.length suf <=? String.length s)%nat.

End PyStr.

(** ** [AddonInstaller._normalize_repo_url] *)

Definition _normalize_repo_url (url : string) : string :=
  if negb (PyStr.truthy url) then ""
  else
    let url := PyStr.replace (PyStr.replace (PyStr.replace url "https://" "") "http://" "") "git://" "" in
    let url := PyStr.rstrip (PyStr.rstrip url "/") ".git" in
    let url := PyStr.lower url in
    url.


(** ** Paths *)

(** [a / b] followed by [str]: the separator is written ["/"]. *)
Definition path_join (a b : string) : string :=
  String.append a (String.append "/" b).

Fixpoint basename_from (acc s : string) : string :=
  match s with
  | EmptyString => acc
  | String c s' =>
      if Ascii.eqb c "/"%char then basename_from EmptyString s'
      else basename_from (String.append acc (String c EmptyString)) s'
  end.

(** [Path(p).name] for a relative path without a trailing separator. *)
Definition basename (p : string) : string := basename_from EmptyString p.

(** ** Python dictionaries (insertion ordered) *)

Module PyDict.
Section Dict.
Context {V : Type}.

Definition t := list (string * V).

Fixpoint get (d : t) (k : string) : option V :=
  match d with
  | [] => None
  | (k', v) :: d' => if String.eqb k' k then Some v else get d' k
  end.

(** [d[k] = v]: an existing key keeps its position. *)
Fixpoint set (d : t) (k : string) (v : V) : t :=
  match d with
  | [] => [(k, v)]
  | (k', v') :: d' =>
      if String.eqb k' k then (k', v) :: d' else (k', v') :: set d' k v
  end.

(** [k in d] *)
Definition mem (d : t) (k : string) : bool :=
  match get d k with
  | Some _ => true
  | None => false
  end.

Definition keys (d : t) : list string := List.map fst d.
End Dict.
Arguments t : clear implicits.
End PyDict.

(** ** Tables of [db.py] *)

(** Row of [installed]. *)
Record installed_row := {
  i_id : nat;
  i_name : string;
  i_version : string;
  i_path : string;
  i_installed_at_utc : string;
  i_last_update_utc : option string;
  i_enabled : option Z;
  i_source_repo_url : string;
  i_deleted_at_utc : option string
}.

(** Row of [addons]. *)
Record addon_row := {
  a_id : nat;
  a_name : string;
  a_repo_url : option string;
  a_override_url : option string;
  a_status : option string;
  a_host : option string;
  a_description : option string;
  a_homepage_url : option string;
  a_license : option string;
  a_category : option string;
  a_compatible_client : option string;
  a_latest_version : option string;
  a_install_method : option string;
  a_tags : option string;
  a_created_at_utc : option string;
  a_updated_at_utc : option string;
  a_deleted_at_utc : option string
}.

(** Row of [events]; [details] is kept structured (the code stores its JSON
    text). *)
Record event_row := {
  e_ts_utc : string;
  e_kind : string;
  e_addon_name : option string;
  e_details : option (list (string * string))
}.

(** Row of [addon_history]. *)
Record history_row := {
  h_addon_id : nat;
  h_ts_utc : string;
  h_field : string;
  h_old_value : option string;
  h_new_value : option string
}.

Record Database := {
  addons : list addon_row;
  installed : list installed_row;
  events : list event_row;
  addon_history : list history_row
}.

Definition set_installed (d : Database) (t : list installed_row) : Database :=
  {| addons := addons d; installed := t; events := events d;
     addon_history := addon_history d |}.

Definition set_addons (d : Database) (t : list addon_row) : Database :=
  {| addons := t; installed := installed d; events := events d;
     addon_history := addon_history d |}.

Definition set_addon_history (d : Database) (t : list history_row) : Database :=
  {| addons := addons d; installed := installed d; events := events d;
     addon_history := t |}.

(** [Database.log_event] *)
Definition log_event (d : Database) (now kind : string)
    (addon_name : option string) (details : option (list (string * string))) : Database :=
  {| addons := addons d; installed := installed d;
     events := events d ++ [ {| e_ts_utc := now; e_kind := kind;
                                e_addon_name := addon_name; e_details := details |} ];
     addon_history := addon_history d |}.

(** [deleted_at_utc IS NULL] *)
Definition i_live (r : installed_row) : bool :=
  match i_deleted_at_utc r with
  | None => true
  | Some _ => false
  end.

Definition a_live (r : addon_row) : bool :=
  match a_deleted_at_utc r with
  | None => true
  | Some _ => false
  end.

(** ** The index of [UNIQUE(name, repo_url)] *)

(** Does [x] come before [y] in the order of [repo_url] in that index?
    [NULL] comes before every text, and texts are compared byte by byte
    (the [BINARY] collation). *)
Definition url_before (x y : option string) : bool :=
  match x, y with
  | None, Some _ => true
  | Some a, Some b => String.ltb a b
  | _, None => false
  end.

(** The first of [best :: rows] in the order of the index, [best :: rows]
    being in rowid order: among rows of equal [repo_url] (several [NULL]s)
    the one of lowest rowid comes first. *)
Fixpoint first_by_url_from (best : addon_row) (rows : list addon_row) : addon_row :=
  match rows with
  | [] => best
  | r :: rest =>
      first_by_url_from (if url_before (a_repo_url r) (a_repo_url best) then r else best) rest
  end.

Definition first_by_url (rows : list addon_row) : option addon_row :=
  match rows with
  | [] => None
  | r :: rest => Some (first_by_url_from r rest)
  end.

(** [WHERE name = ?] on the catalog ([TEXT] is compared exactly). *)
Definition a_named (name : string) (r : addon_row) : bool :=
  String.eqb (a_name r) name.

(** [WHERE name = ? AND deleted_at_utc IS NULL] on the catalog. *)
Definition a_named_live (name : string) (r : addon_row) : bool :=
  String.eqb (a_name r) name && a_live r.

(** [fetchone()] after [SELECT ... FROM addons WHERE name = ?]. *)
Definition fetch_named (t : list addon_row) (name : string) : option addon_row :=
  first_by_url (List.filter (a_named name) t).

(** [fetchone()] after
    [SELECT ... FROM addons WHERE name = ? AND deleted_at_utc IS NULL]. *)
Definition fetch_named_live (t : list addon_row) (name : string) : option addon_row :=
  first_by_url (List.filter (a_named_live name) t).

(** Rowid given by SQLite to an inserted row of an [INTEGER PRIMARY KEY]
    table: one more than the largest rowid in use. *)
Definition next_id {R : Type} (id : R -> nat) (t : list R) : nat :=
  S (fold_right (fun r m => Nat.max (id r) m) 0%nat t).

Definition i_set_path_source (r : installed_row) (path source : string) : installed_row :=
  {| i_id := i_id r; i_name := i_name r; i_version := i_version r;
     i_path := path; i_installed_at_utc := i_installed_at_utc r;
     i_last_update_utc := i_last_update_utc r; i_enabled := i_enabled r;
     i_source_repo_url := source; i_deleted_at_utc := i_deleted_at_utc r |}.

Definition i_set_deleted (r : installed_row) (now : string) : installed_row :=
  {| i_id := i_id r; i_name := i_name r; i_version := i_version r;
     i_path := i_path r; i_installed_at_utc := i_installed_at_utc r;
     i_last_update_utc := i_last_update_utc r; i_enabled := i_enabled r;
     i_source_repo_url := i_source_repo_url r; i_deleted_at_utc := Some now |}.

Definition i_set_version_update_source (r : installed_row)
    (version now source : string) : installed_row :=
  {| i_id := i_id r; i_name := i_name r; i_version := version;
     i_path := i_path r; i_installed_at_utc := i_installed_at_utc r;
     i_last_update_utc := Some now; i_enabled := i_enabled r;
     i_source_repo_url := source; i_deleted_at_utc := i_deleted_at_utc r |}.

Definition i_set_enabled (r : installed_row) (e : Z) : installed_row :=
  {| i_id := i_id r; i_name := i_name r; i_version := i_version r;
     i_path := i_path r; i_installed_at_utc := i_installed_at_utc r;
     i_last_update_utc := i_last_update_utc r; i_enabled := Some e;
     i_source_repo_url := i_source_repo_url r; i_deleted_at_utc := i_deleted_at_utc r |}.

(** [WHERE name = ? AND deleted_at_utc IS NULL]: SQLite compares [TEXT]
    with the [BINARY] collation, that is, exactly. *)
Definition i_named_live (name : string) (r : installed_row) : bool :=
  String.eqb (i_name r) name && i_live r.

(** [INSERT INTO installed (name, version, path, installed_at_utc, enabled,
    source_repo_url) VALUES (?, ?, ?, ?, 1, ?)] *)
Definition sql_insert_installed (t : list installed_row)
    (name version path now source : string) : list installed_row :=
  t ++ [ {| i_id := next_id i_id t; i_name := name; i_version := version;
            i_path := path; i_installed_at_utc := now;
            i_last_update_utc := None; i_enabled := Some 1%Z;
            i_source_repo_url := source; i_deleted_at_utc := None |} ].

(** [UPDATE installed SET path = ?, source_repo_url = ?
     WHERE name = ? AND deleted_at_utc IS NULL] *)
Definition sql_update_path_source (t : list installed_row)
    (path source name : string) : list installed_row :=
  List.map (fun r => if i_named_live name r then i_set_path_source r path source else r) t.

(** [UPDATE installed SET deleted_at_utc = ?
     WHERE name = ? AND deleted_at_utc IS NULL] *)
Definition sql_soft_delete (t : list installed_row) (now name : string) : list installed_row :=
  List.map (fun r => if i_named_live name r then i_set_deleted r now else r) t.

(** [UPDATE installed SET enabled = ?
     WHERE name = ? AND deleted_at_utc IS NULL] *)
Definition sql_set_enabled (t : list installed_row) (e : Z) (name : string) : list installed_row :=
  List.map (fun r => if i_named_live name r then i_set_enabled r e else r) t.

(** ** Calls that may raise *)

(** Result of a call that may let an exception escape. *)
Inductive outcome (A : Type) : Type :=
| Returned (a : A)
| Raised.
Arguments Returned {A} a.
Arguments Raised {A}.

(** ** The installer object *)

Record AddonInstaller := {
  db : Database;
  addon_path : option string;
  _repo_to_addon_cache : gmap string string
}.

Definition with_db (self : AddonInstaller) (d : Database) : AddonInstaller :=
  {| db := d; addon_path := addon_path self;
     _repo_to_addon_cache := _repo_to_addon_cache self |}.

(** Rows selected by [_build_repo_cache]:
    [repo_url IS NOT NULL AND repo_url != '' AND deleted_at_utc IS NULL]. *)
Definition cache_selected (r : addon_row) : bool :=
  match a_repo_url r with
  | Some u => negb (String.eqb u "") && a_live r
  | None => false
  end.

Definition cache_add (cache : gmap string string) (row : addon_row) : gmap string string :=
  match a_repo_url row with
  | Some u =>
      if PyStr.truthy u then <[ _normalize_repo_url u := a_name row ]> cache
      else cache
  | None => cache
  end.

(** [AddonInstaller._build_repo_cache]: the cache after the loop. *)
Definition _build_repo_cache (d : Database) (cache : gmap string string) : gmap string string :=
  fold_left cache_add (List.filter cache_selected (addons d)) cache.

(** [AddonInstaller.__init__] ([get_addon_path()] is the argument [root]). *)
Definition new_installer (d : Database) (root : option string) : AddonInstaller :=
  {| db := d; addon_path := root;
     _repo_to_addon_cache := _build_repo_cache d ∅ |}.

(** [AddonInstaller._match_by_folder_name].  Its statement,
    [SELECT name, folder_names FROM addons WHERE folder_names IS NOT NULL
    ...], names the column [folder_names]; the [CREATE TABLE] of [db.py]
    declares no such column and no statement of the program adds one, so
    [cursor.execute] raises [sqlite3.OperationalError] whatever the folder;
    nothing in the function catches it. *)
Definition _match_by_folder_name (self : AddonInstaller) (folder_name : string)
    : outcome (option string) :=
  Raised.

(** Value stored by [get_installed_addons] under each key. *)
Record installed_info := {
  info_name : string;
  info_version : string;
  info_path : string;
  info_installed_at : string;
  info_repo_url : string;
  info_enabled : Z
}.

Definition info_of_row (row : installed_row) : installed_info :=
  {| info_name := i_name row; info_version := i_version row;
     info_path := i_path row; info_installed_at := i_installed_at_utc row;
     info_repo_url := i_source_repo_url row;
     info_enabled := match i_enabled row with Some e => e | None => 1%Z end |}.

(** [AddonInstaller.get_installed_addons] *)
Definition get_installed_addons (self : AddonInstaller) : PyDict.t installed_info :=
  fold_left (fun installed row => PyDict.set installed (PyStr.lower (i_name row)) (info_of_row row))
            (List.filter i_live (installed (db self))) [].

(** [AddonInstaller.is_installed] *)
Definition is_installed (self : AddonInstaller) (addon_name : string) : bool :=
  PyDict.mem (get_installed_addons self) (PyStr.lower addon_name).

(** ** The add-on directory as seen by the scanner *)

(** One entry of [addon_path.iterdir()]: [item_has_toc] is
    [bool(list(item.glob("*.toc")))] and [item_git_url] the value of
    [_get_git_remote_url(item)]. *)
Record dir_entry := {
  item_name : string;
  item_is_dir : bool;
  item_has_toc : bool;
  item_git_url : option string
}.

Record filesystem := {
  fs_exists : string -> bool;         (* [Path(p).exists()] *)
  fs_iterdir : list dir_entry         (* [addon_path.iterdir()] *)
}.

Record scan_info := {
  has_toc : bool;
  git_url : option string;
  matched_addon : option string;
  path : string
}.

(** Body of the loop of [scan_addon_directory] for one directory entry. *)
Definition scan_item (self : AddonInstaller) (root : string)
    (addon_info : PyDict.t scan_info) (item : dir_entry) : outcome (PyDict.t scan_info) :=
  if item_is_dir item then
    if item_has_toc item then
      let git_url := item_git_url item in
      let matched_addon : option string := None in
      let matched_addon :=
        match git_url with
        | Some u =>
            if PyStr.truthy u
            then _repo_to_addon_cache self !! _normalize_repo_url u
            else matched_addon
        | None => matched_addon
        end in
      match (if negb (PyStr.otruthy matched_addon)
             then _match_by_folder_name self (item_name item)
             else Returned matched_addon) with
      | Returned matched_addon =>
          Returned
            (PyDict.set addon_info (item_name item)
               {| has_toc := true; git_url := git_url; matched_addon := matched_addon;
                  path := path_join root (item_name item) |})
      | Raised => Raised
      end
    else Returned addon_info
  else Returned addon_info.

(** The loop of [scan_addon_directory]: an exception ends it. *)
Fixpoint scan_items (self : AddonInstaller) (root : string) (items : list dir_entry)
    (addon_info : PyDict.t scan_info) : outcome (PyDict.t scan_info) :=
  match items with
  | [] => Returned addon_info
  | item :: rest =>
      match scan_item self root addon_info item with
      | Returned addon_info' => scan_items self root rest addon_info'
      | Raised => Raised
      end
  end.

(** [AddonInstaller.scan_addon_directory] *)
Definition scan_addon_directory (self : AddonInstaller) (fs : filesystem)
    : outcome (PyDict.t scan_info) :=
  match addon_path self with
  | None => Returned []
  | Some root =>
      if negb (fs_exists fs root) then Returned []
      else scan_items self root (fs_iterdir fs) []
  end.

(** [x or d] where [d] is a [str]. *)
Definition or_default (x : option string) (d : string) : string :=
  match x with
  | Some s => if PyStr.truthy s then s else d
  | None => d
  end.

(** Identity under which a scanned folder is reconciled:
    [info['matched_addon'] or folder_name]. *)
Definition resolved_name (kv : string * scan_info) : string :=
  or_default (matched_addon (snd kv)) (fst kv).

(** First loop of [sync_installed_state]: one folder found on disk. *)
Definition sync_disk_step (db_installed : PyDict.t installed_info) (now : string)
    (acc : list installed_row * nat) (kv : string * scan_info) : list installed_row * nat :=
  let '(t, newly_found) := acc in
  let info := snd kv in
  let addon_name := resolved_name kv in
  let addon_key := PyStr.lower addon_name in
  if negb (PyDict.mem db_installed addon_key) then
    (sql_insert_installed t addon_name "unknown" (path info) now (or_default (git_url info) ""),
     S newly_found)
  else if PyStr.otruthy (git_url info) && PyStr.otruthy (matched_addon info) then
    (sql_update_path_source t (path info) (or_default (git_url info) "") addon_name, newly_found)
  else (t, newly_found).

(** Second loop of [sync_installed_state]: one record of the snapshot. *)
Definition sync_removed_step (fs : filesystem) (now : string)
    (acc : list installed_row * nat) (kv : string * installed_info) : list installed_row * nat :=
  let '(t, removed) := acc in
  let addon_info := snd kv in
  if negb (fs_exists fs (info_path addon_info)) then
    (sql_soft_delete t now (info_name addon_info), S removed)
  else (t, removed).

(** [AddonInstaller.sync_installed_state]: the installer afterwards and the
    pair [(newly_found, removed)], or the exception of the scan, which is
    raised before any statement is run.  The database is the one seen
    through the connection of the installer (the function calls [commit]
    only when one of the two counts is positive). *)
Definition sync_installed_state (self : AddonInstaller) (fs : filesystem) (now : string)
    : AddonInstaller * outcome (nat * nat) :=
  match addon_path self with
  | None => (self, Returned (0, 0)%nat)
  | Some _ =>
      let db_installed := get_installed_addons self in
      match scan_addon_directory self fs with
      | Raised => (self, Raised)
      | Returned disk_addons =>
          let '(t, newly_found) :=
            fold_left (sync_disk_step db_installed now) disk_addons
                      (installed (db self), 0%nat) in
          let '(t, removed) :=
            fold_left (sync_removed_step fs now) db_installed (t, 0%nat) in
          (with_db self (set_installed (db self) t), Returned (newly_found, removed))
      end
  end.

(** [AddonInstaller.mark_installed] *)
Definition mark_installed (self : AddonInstaller)
    (addon_name version repo_url path now : string) : AddonInstaller :=
  let t := installed (db self) in
  let t' :=
    match List.find (i_named_live addon_name) t with
    | Some existing =>
        List.map (fun r => if Nat.eqb (i_id r) (i_id existing)
                           then i_set_version_update_source r version now repo_url
                           else r) t
    | None =>
        let path :=
          if negb (PyStr.truthy path) then
            match addon_path self with
            | Some root => path_join root addon_name
            | None => path
            end
          else path in
        sql_insert_installed t addon_name version path now repo_url
    end in
  with_db self
    (log_event (set_installed (db self) t') now "addon_installed"
               (Some addon_name) (Some [("version", version)])).

(** ** Installation *)

(** What [subprocess.run(['git', 'clone', ...], timeout=60)] and the removal
    of a prior staging copy before it did. *)
Inductive clone_outcome :=
| CloneRaised                     (* an exception other than [TimeoutExpired] *)
| CloneTimeout                    (* [subprocess.TimeoutExpired] *)
| CloneExit (returncode : Z).

(** The external steps of one installation.  The creation and the clean-up
    of the temporary directory of the archive strategy and the statements on
    the database are taken to succeed. *)
Record install_world := {
  repos_mkdir_ok : bool;
    (* [_get_repos_path]: [mkdir(exist_ok=True)] did not raise *)
  git_clone : string -> string -> clone_outcome;
    (* source URL, staging directory *)
  scan_git_subfolders : string -> list string;
    (* [_scan_git_subfolders(repo_path)] *)
  link_ok : string -> string -> bool;
    (* source, destination: the backup of an occupying directory and
       [_create_junction] did not raise *)
  addon_version : string -> string;
    (* [_get_addon_version(folder)] *)
  github_release_url : string -> option string;
    (* [_get_github_release_url(repo_url)] *)
  fetch_archive : string -> option (list (string * string));
    (* download, extraction and [_get_addon_folders]; [None] when one of
       them raised *)
  copy_ok : string -> string -> bool
    (* source, destination: the backup of an occupying folder and
       [shutil.copytree] did not raise *)
}.

(** The lookup shared by [install_addon_git] and [install_addon_zip]:
    [if not repo_url: ... result = cursor.fetchone(); if result:
    repo_url = result['override_url'] or result['repo_url']]. *)
Definition lookup_repo_url (self : AddonInstaller) (addon_name : string)
    (repo_url : option string) : option string :=
  if negb (PyStr.otruthy repo_url) then
    match fetch_named (addons (db self)) addon_name with
    | Some result => PyStr.or_else (a_override_url result) (a_repo_url result)
    | None => repo_url
    end
  else repo_url.

(** The loop of [install_addon_zip] over the folders found in the archive;
    the boolean is [false] when an exception ended the loop. *)
Fixpoint install_zip_folders (self : AddonInstaller) (w : install_world)
    (root addon_name repo_url now : string) (addon_folders : list (string * string))
    : AddonInstaller * bool :=
  match addon_folders with
  | [] => (self, true)
  | (folder_name, source_path) :: rest =>
      let dest_path := path_join root folder_name in
      if copy_ok w source_path dest_path then
        let version := addon_version w dest_path in
        install_zip_folders
          (mark_installed self addon_name version repo_url dest_path now)
          w root addon_name repo_url now rest
      else (self, false)
  end.

(** [AddonInstaller.install_addon_zip] *)
Definition install_addon_zip (self : AddonInstaller) (w : install_world)
    (addon_name : string) (repo_url : option string) (now : string)
    : AddonInstaller * outcome bool :=
  match addon_path self with
  | None => (self, Returned false)
  | Some root =>
      let repo_url := lookup_repo_url self addon_name repo_url in
      if negb (PyStr.otruthy repo_url) then (self, Returned false)
      else
        let repo_url := or_default repo_url "" in
        match github_release_url w repo_url with
        | None => (self, Returned false)
        | Some download_url =>
            if negb (PyStr.truthy download_url) then (self, Returned false)
            else
              match fetch_archive w download_url with
              | None => (self, Returned false)
              | Some [] => (self, Returned false)
              | Some addon_folders =>
                  let '(self', ok) :=
                    install_zip_folders self w root addon_name repo_url now addon_folders in
                  (self', Returned ok)
              end
        end
  end.

(** [AddonInstaller._link_subfolders]: the list [linked], or [Raised]. *)
Fixpoint link_each (w : install_world) (root repo_path : string)
    (subfolders : list string) : outcome (list (string * string)) :=
  match subfolders with
  | [] => Returned []
  | subfolder :: rest =>
      let source_path := path_join repo_path subfolder in
      let folder_name := basename subfolder in
      let dest_path := path_join root folder_name in
      if link_ok w source_path dest_path then
        match link_each w root repo_path rest with
        | Returned linked => Returned ((folder_name, dest_path) :: linked)
        | Raised => Raised
        end
      else Raised
  end.

Definition _link_subfolders (w : install_world) (root repo_path addon_name : string)
    : outcome (list (string * string)) :=
  match scan_git_subfolders w repo_path with
  | [] =>
      let dest_path := path_join root addon_name in
      if link_ok w repo_path dest_path then Returned [(addon_name, dest_path)]
      else Raised
  | subfolders => link_each w root repo_path subfolders
  end.

(** The loop of [install_addon_git] that registers the linked folders. *)
Definition mark_linked (w : install_world) (addon_name repo_url repo_dest now : string)
    (self : AddonInstaller) (linked : string * string) : AddonInstaller :=
  let '(folder_name, folder_path) := linked in
  let version := addon_version w folder_path in
  mark_installed self
    (if String.eqb folder_name addon_name then addon_name else folder_name)
    version repo_url repo_dest now.

(** [AddonInstaller.install_addon_git] *)
Definition install_addon_git (self : AddonInstaller) (w : install_world)
    (addon_name : string) (repo_url : option string) (now : string)
    : AddonInstaller * outcome bool :=
  match addon_path self with
  | None => (self, Returned false)
  | Some root =>
      let repo_url := lookup_repo_url self addon_name repo_url in
      if negb (PyStr.otruthy repo_url) then (self, Returned false)
      else if negb (repos_mkdir_ok w) then (self, Raised)
      else
        let url := or_default repo_url "" in
        let repo_dest := path_join (path_join root ".repos") addon_name in
        match git_clone w url repo_dest with
        | CloneExit rc =>
            if negb (Z.eqb rc 0) then install_addon_zip self w addon_name repo_url now
            else
              match _link_subfolders w root repo_dest addon_name with
              | Returned linked_folders =>
                  (fold_left (mark_linked w addon_name url repo_dest now) linked_folders self,
                   Returned true)
              | Raised => install_addon_zip self w addon_name repo_url now
              end
        | CloneTimeout => install_addon_zip self w addon_name repo_url now
        | CloneRaised => install_addon_zip self w addon_name repo_url now
        end
  end.

(** [AddonInstaller.install_addon] *)
Definition install_addon (self : AddonInstaller) (w : install_world)
    (addon_name : string) (repo_url : option string) (use_git : bool) (now : string)
    : AddonInstaller * outcome bool :=
  if use_git then install_addon_git self w addon_name repo_url now
  else install_addon_zip self w addon_name repo_url now.

(** ** Removal *)

(** The external steps of one removal.  Errors met while junctions that
    point into the staging checkout are unlinked are swallowed by the code
    ([except: pass]) and leave no trace in the result. *)
Record remove_world := {
  rm_repos_mkdir_ok : bool;
    (* [_get_repos_path] did not raise *)
  rm_exists : string -> bool;
    (* [Path(p).exists()] *)
  rm_rmtree_repo_ok : bool;
    (* [shutil.rmtree(repo_folder, onerror=remove_readonly)] did not raise *)
  rm_remove_path_ok : bool
    (* the junction [rmdir] or the [rmtree] of the add-on folder, or else
       the [rmtree] of the inner handler, did not raise *)
}.

(** [AddonInstaller.remove_addon] *)
Definition remove_addon (self : AddonInstaller) (w : remove_world)
    (addon_name now : string) : AddonInstaller * bool :=
  match addon_path self with
  | None => (self, false)
  | Some root =>
      let installed_ := get_installed_addons self in
      match PyDict.get installed_ (PyStr.lower addon_name) with
      | None => (self, false)
      | Some addon_info =>
          if negb (rm_repos_mkdir_ok w) then (self, false)
          else
            let repo_folder := path_join (path_join root ".repos") addon_name in
            let removed :=
              if rm_exists w repo_folder then rm_rmtree_repo_ok w
              else if rm_exists w (info_path addon_info) then rm_remove_path_ok w
              else true in
            if removed then
              let d := set_installed (db self)
                         (sql_soft_delete (installed (db self)) now addon_name) in
              (with_db self (log_event d now "addon_removed" (Some addon_name) None), true)
            else (self, false)
      end
  end.

(** ** Catalog upsert ([db.py]) *)

(** Value found under ['tags'] in an incoming record. *)
Inductive tags_value :=
| TagsList (l : list string)
| TagsText (s : string).

(** The keys of [addon_data] read by [upsert_addon]; [None] is an absent key
    (or the value [None]). *)
Record addon_data := {
  d_name : string;
  d_repo_url : option string;
  d_description : option string;
  d_tags : option tags_value
}.

(** [Database._detect_host] *)
Definition _detect_host (repo_url : option string) : string :=
  match repo_url with
  | None => "other"
  | Some u =>
      if negb (PyStr.truthy u) then "other"
      else
        let url_lower := PyStr.lower u in
        if PyStr.contains "github.com" url_lower then "github"
        else if PyStr.contains "gitlab.com" url_lower then "gitlab"
        else if PyStr.contains "bitbucket.org" url_lower then "bitbucket"
        else "other"
  end.

Definition option_string_eqb (x y : option string) : bool :=
  match x, y with
  | None, None => true
  | Some a, Some b => String.eqb a b
  | _, _ => false
  end.

(** SQL [col = ?]: never true when either side is [NULL]. *)
Definition sql_eq (col param : option string) : bool :=
  match col, param with
  | Some a, Some b => String.eqb a b
  | _, _ => false
  end.

Definition a_set_upsert (r : addon_row) (repo_url description tags : option string)
    (now : string) : addon_row :=
  {| a_id := a_id r; a_name := a_name r; a_repo_url := repo_url;
     a_override_url := a_override_url r; a_status := a_status r; a_host := a_host r;
     a_description := description; a_homepage_url := a_homepage_url r;
     a_license := a_license r; a_category := a_category r;
     a_compatible_client := a_compatible_client r;
     a_latest_version := a_latest_version r; a_install_method := a_install_method r;
     a_tags := tags;
     a_created_at_utc := a_created_at_utc r; a_updated_at_utc := Some now;
     a_deleted_at_utc := a_deleted_at_utc r |}.

Definition a_set_tags (r : addon_row) (tags : option string) (now : string) : addon_row :=
  {| a_id := a_id r; a_name := a_name r; a_repo_url := a_repo_url r;
     a_override_url := a_override_url r; a_status := a_status r; a_host := a_host r;
     a_description := a_description r; a_homepage_url := a_homepage_url r;
     a_license := a_license r; a_category := a_category r;
     a_compatible_client := a_compatible_client r;
     a_latest_version := a_latest_version r; a_install_method := a_install_method r;
     a_tags := tags;
     a_created_at_utc := a_created_at_utc r; a_updated_at_utc := Some now;
     a_deleted_at_utc := a_deleted_at_utc r |}.

(** [UNIQUE(name, repo_url)]: would giving [repo_url] to the row [id] collide
    with another row? ([NULL]s never collide.) *)
Definition unique_violation (t : list addon_row) (id : nat) (name : string)
    (repo_url : option string) : bool :=
  existsb (fun r => negb (Nat.eqb (a_id r) id) && String.eqb (a_name r) name
                    && sql_eq (a_repo_url r) repo_url) t.

(** [fetchone()] after [SELECT ... FROM addons WHERE name = ? AND
    (repo_url = ? OR repo_url IS NULL)]: SQLite searches the index once for
    each term of the [OR], so that a row with the given [repo_url] comes
    first and the rows without [repo_url] follow, in rowid order. *)
Definition upsert_existing (t : list addon_row) (name : string) (repo_url : option string)
    : option addon_row :=
  match List.find (fun r => String.eqb (a_name r) name && sql_eq (a_repo_url r) repo_url) t with
  | Some r => Some r
  | None =>
      List.find (fun r => String.eqb (a_name r) name
                          && match a_repo_url r with None => true | Some _ => false end) t
  end.

Section Json.

(** [json.dumps] on a list of strings, [json.loads] on the text of such a
    list, and the order in which [list(set(l))] enumerates the distinct
    elements of [l]: library functions, taken as they come. *)
Variable json_dumps : list string -> string.
Variable json_loads : string -> list string.
Variable list_of_set : list string -> list string.

(** The conversion at the head of [upsert_addon], which rewrites the
    caller's dictionary. *)
Definition dump_tags (data : addon_data) : addon_data :=
  match d_tags data with
  | Some (TagsList l) =>
      {| d_name := d_name data; d_repo_url := d_repo_url data;
         d_description := d_description data;
         d_tags := Some (TagsText (json_dumps l)) |}
  | _ => data
  end.

(** [addon_data.get('tags')] once converted. *)
Definition tags_param (data : addon_data) : option string :=
  match d_tags data with
  | Some (TagsText s) => Some s
  | Some (TagsList l) => Some (json_dumps l)
  | None => None
  end.

(** The history records of [upsert_addon], in the order of the loop over
    ['description', 'tags', 'repo_url']. *)
Definition upsert_changes (existing : addon_row) (data : addon_data) (now : string)
    : list history_row :=
  let change field old_val new_val :=
    if negb (option_string_eqb old_val new_val)
    then [ {| h_addon_id := a_id existing; h_ts_utc := now; h_field := field;
              h_old_value := old_val; h_new_value := new_val |} ]
    else [] in
  change "description" (a_description existing) (d_description data)
  ++ change "tags" (a_tags existing) (tags_param data)
  ++ change "repo_url" (a_repo_url existing) (d_repo_url data).

(** [Database.upsert_addon]: the database, the caller's dictionary and the
    returned row id ([Raised] when the [UPDATE] breaks [UNIQUE(name,
    repo_url)]). *)
Definition upsert_addon (d : Database) (addon_data_ : addon_data) (now : string)
    : Database * addon_data * outcome nat :=
  let data := dump_tags addon_data_ in
  match upsert_existing (addons d) (d_name data) (d_repo_url data) with
  | Some existing =>
      let addon_id := a_id existing in
      let changes := upsert_changes existing data now in
      if unique_violation (addons d) addon_id (a_name existing) (d_repo_url data)
      then (d, data, Raised)
      else
        let t := List.map (fun r => if Nat.eqb (a_id r) addon_id
                                    then a_set_upsert r (d_repo_url data) (d_description data)
                                                      (tags_param data) now
                                    else r) (addons d) in
        (set_addon_history (set_addons d t) (addon_history d ++ changes), data,
         Returned addon_id)
  | None =>
      let addon_id := next_id a_id (addons d) in
      let row :=
        {| a_id := addon_id; a_name := d_name data; a_repo_url := d_repo_url data;
           a_override_url := None; a_status := None;
           a_host := Some (_detect_host (d_repo_url data));
           a_description := d_description data; a_homepage_url := None;
           a_license := None; a_category := None; a_compatible_client := None;
           a_latest_version := None; a_install_method := None;
           a_tags := tags_param data;
           a_created_at_utc := Some now; a_updated_at_utc := Some now;
           a_deleted_at_utc := None |} in
      (set_addons d (addons d ++ [row]), data, Returned addon_id)
  end.

(** The storing loop of the [sync] command of [cli.py]:
    [for addon in addons: db.upsert_addon(addon)]. *)
Fixpoint cli_sync_store (d : Database) (addons_ : list addon_data) (now : string)
    : Database * outcome unit :=
  match addons_ with
  | [] => (d, Returned tt)
  | addon :: rest =>
      match upsert_addon d addon now with
      | (d', _, Returned _) => cli_sync_store d' rest now
      | (d', _, Raised) => (d', Raised)
      end
  end.

(** A record delivered by the wiki parser, as the sync worker of [tui.py]
    reads it; [None] is an absent key. *)
Record wiki_addon := {
  w_name : string;
  w_description : option string;
  w_repo_url : option string;
  w_tags : option (list string)
}.

(** One turn of the storing loop of the sync worker of [tui.py]
    ("Save to database - but preserve manual edits"). *)
Definition tui_sync_store_one (d : Database) (addon : wiki_addon) (now : string)
    : Database * outcome unit :=
  let existing := fetch_named_live (addons d) (w_name addon) in
  match existing with
  | Some e =>
      if PyStr.otruthy (a_override_url e) then
        let old_tags :=
          match fetch_named (addons d) (w_name addon) with
          | Some tags_row =>
              match a_tags tags_row with
              | Some s => if PyStr.truthy s then json_loads s else []
              | None => []
              end
          | None => []
          end in
        let new_tags := match w_tags addon with Some l => l | None => [] end in
        let merged_tags := list_of_set (old_tags ++ new_tags) in
        (set_addons d
           (List.map (fun r => if String.eqb (a_name r) (w_name addon) && a_live r
                               then a_set_tags r (Some (json_dumps merged_tags)) now
                               else r) (addons d)),
         Returned tt)
      else
        match upsert_addon d
                {| d_name := w_name addon;
                   d_repo_url := Some (match w_repo_url addon with Some u => u | None => "" end);
                   d_description := Some (match w_description addon with Some s => s | None => "" end);
                   d_tags := Some (TagsList (match w_tags addon with Some l => l | None => [] end)) |}
                now with
        | (d', _, Returned _) => (d', Returned tt)
        | (d', _, Raised) => (d', Raised)
        end
  | None =>
      match upsert_addon d
              {| d_name := w_name addon;
                 d_repo_url := Some (match w_repo_url addon with Some u => u | None => "" end);
                 d_description := Some (match w_description addon with Some s => s | None => "" end);
                 d_tags := Some (TagsList (match w_tags addon with Some l => l | None => [] end)) |}
              now with
      | (d', _, Returned _) => (d', Returned tt)
      | (d', _, Raised) => (d', Raised)
      end
  end.

End Json.

(** ** Enabling and disabling ([tui.py]) *)

(** What [subprocess.run] did. *)
Inductive run_outcome :=
| RunCompleted (returncode : Z)
| RunRaised.

Record link_world := {
  lw_present : string -> bool;
    (* [os.path.islink(p) or os.path.exists(p)] *)
  lw_exists : string -> bool;
    (* [Path(p).exists()] *)
  lw_rmdir : string -> run_outcome;
    (* [subprocess.run(['cmd', '/c', 'rmdir', p], check=False, ...)] *)
  lw_mklink : string -> string -> run_outcome
    (* [subprocess.run(['mklink', '/J', link, target], shell=True, ...)] *)
}.

(** The part of [CarapaceApp] that the two handlers touch. *)
Record CarapaceApp := {
  installed_addons : PyDict.t installed_info
}.

Definition info_set_enabled (i : installed_info) (e : Z) : installed_info :=
  {| info_name := info_name i; info_version := info_version i;
     info_path := info_path i; info_installed_at := info_installed_at i;
     info_repo_url := info_repo_url i; info_enabled := e |}.

(** [if addon_key in self.installed_addons:
       self.installed_addons[addon_key]['enabled'] = e] *)
Definition app_set_enabled (app : CarapaceApp) (addon_name : string) (e : Z) : CarapaceApp :=
  let addon_key := PyStr.lower addon_name in
  match PyDict.get (installed_addons app) addon_key with
  | Some i => {| installed_addons :=
                   PyDict.set (installed_addons app) addon_key (info_set_enabled i e) |}
  | None => app
  end.

(** [CarapaceApp.disable_addon] *)
Definition disable_addon (app : CarapaceApp) (d : Database) (w : link_world)
    (addon_name : string) : CarapaceApp * Database * bool :=
  match List.find (i_named_live addon_name) (installed d) with
  | None => (app, d, false)
  | Some addon_row =>
      let addon_path := i_path addon_row in
      let launched :=
        if lw_present w addon_path then
          match lw_rmdir w addon_path with
          | RunCompleted _ => true
          | RunRaised => false
          end
        else true in
      if launched then
        (app_set_enabled app addon_name 0,
         set_installed d (sql_set_enabled (installed d) 0 addon_name), true)
      else (app, d, false)
  end.

(** [CarapaceApp.enable_addon]; [root] is the [addon_path] of the installer
    built by the handler. *)
Definition enable_addon (app : CarapaceApp) (d : Database) (root : option string)
    (w : link_world) (addon_name : string) : CarapaceApp * Database * bool :=
  match List.find (i_named_live addon_name) (installed d) with
  | None => (app, d, false)
  | Some addon_row =>
      let addon_path := i_path addon_row in
      match root with
      | None => (app, d, false)
      | Some root =>
          let repo_folder := path_join (path_join root ".repos") (basename addon_path) in
          if negb (lw_exists w repo_folder) then (app, d, false)
          else
            let cleared :=
              if lw_exists w addon_path then
                match lw_rmdir w addon_path with
                | RunCompleted _ => true
                | RunRaised => false
                end
              else true in
            if cleared then
              match lw_mklink w addon_path repo_folder with
              | RunCompleted rc =>
                  if Z.eqb rc 0 then
                    (app_set_enabled app addon_name 1,
                     set_installed d (sql_set_enabled (installed d) 1 addon_name), true)
                  else (app, d, false)
              | RunRaised => (app, d, false)
              end
            else (app, d, false)
      end
  end.

(** ** The specification's own wording, for comparison *)

(** Follows the spec: "strip protocol, strip trailing slash, strip a
    trailing [.git] suffix, lowercase". *)
Definition strip_prefix (pre s : string) : string :=
  if PyStr.startswith pre s
  then String.substring (String.length pre) (String.length s - String.length pre) s
  else s.

Definition strip_suffix (suf s : string) : string :=
  if PyStr.endswith s suf
  then String.substring 0 (String.length s - String.length suf) s
  else s.

Definition normalize_spec (url : string) : string :=
  let url := strip_prefix "git://" (strip_prefix "http://" (strip_prefix "https://" url)) in
  let url := strip_suffix ".git" (strip_suffix "/" url) in
  PyStr.lower url.


(** ** Sample states *)

Definition sample_installed (id : nat) (name path source : string) : installed_row :=
  {| i_id := id; i_name := name; i_version := "unknown"; i_path := path;
     i_installed_at_utc := "2024-01-01T00:00:00"; i_last_update_utc := None;
     i_enabled := Some 1%Z; i_source_repo_url := source; i_deleted_at_utc := None |}.

Definition sample_addon (id : nat) (name : string) (repo_url override_url : option string)
    : addon_row :=
  {| a_id := id; a_name := name; a_repo_url := repo_url; a_override_url := override_url;
     a_status := None; a_host := Some "github"; a_description := Some "mine";
     a_homepage_url := None; a_license := None; a_category := None;
     a_compatible_client := None; a_latest_version := None; a_install_method := None;
     a_tags := Some "[x]";
     a_created_at_utc := Some "2024-01-01T00:00:00";
     a_updated_at_utc := Some "2024-01-01T00:00:00"; a_deleted_at_utc := None |}.

Definition sample_db (catalog : list addon_row) (t : list installed_row) : Database :=
  {| addons := catalog; installed := t; events := []; addon_history := [] |}.

Definition sample_root : string := "/wow/Interface/AddOns".

(** A world in which the clone succeeds and the manifest sits at the root of
    the checkout. *)
Definition world_clone_ok : install_world :=
  {| repos_mkdir_ok := true;
     git_clone := fun _ _ => CloneExit 0;
     scan_git_subfolders := fun _ => [];
     link_ok := fun _ _ => true;
     addon_version := fun _ => "1.2";
     github_release_url := fun _ => None;
     fetch_archive := fun _ => None;
     copy_ok := fun _ _ => true |}.

(** A world in which the clone exits with status 128, the archive holds the
    folders [Foo] and [Foo_Options], and copying the second one fails. *)
Definition world_second_copy_fails : install_world :=
  {| repos_mkdir_ok := true;
     git_clone := fun _ _ => CloneExit 128;
     scan_git_subfolders := fun _ => [];
     link_ok := fun _ _ => true;
     addon_version := fun _ => "1.2";
     github_release_url := fun _ => Some "https://github.com/a/foo/archive/refs/heads/master.zip";
     fetch_archive := fun _ => Some [("Foo", "/tmp/x/extract/Foo");
                                     ("Foo_Options", "/tmp/x/extract/Foo_Options")];
     copy_ok := fun src _ => String.eqb src "/tmp/x/extract/Foo" |}.

(** A world in which the clone times out and no archive can be found. *)
Definition world_all_fail : install_world :=
  {| repos_mkdir_ok := true;
     git_clone := fun _ _ => CloneTimeout;
     scan_git_subfolders := fun _ => [];
     link_ok := fun _ _ => true;
     addon_version := fun _ => "1.2";
     github_release_url := fun _ => None;
     fetch_archive := fun _ => None;
     copy_ok := fun _ _ => true |}.

(** Nothing left on disk for the add-on that is removed. *)
Definition world_nothing_on_disk : remove_world :=
  {| rm_repos_mkdir_ok := true; rm_exists := fun _ => false;
     rm_rmtree_repo_ok := true; rm_remove_path_ok := true |}.

(** The add-on folder is there and cannot be removed. *)
Definition world_removal_raises : remove_world :=
  {| rm_repos_mkdir_ok := true;
     rm_exists := fun p => String.eqb p "/wow/Interface/AddOns/Foo";
     rm_rmtree_repo_ok := true; rm_remove_path_ok := false |}.

(** ** Claims of the specification that the code does not meet, as stated *)

(** Did the checkout strategy of [install_addon_git] fail (non-zero exit,
    timeout, or an exception in the [try] block)? *)
Definition checkout_failed (w : install_world) (root addon_name url : string) : bool :=
  let repo_dest := path_join (path_join root ".repos") addon_name in
  match git_clone w url repo_dest with
  | CloneExit rc =>
      if Z.eqb rc 0 then
        match _link_subfolders w root repo_dest addon_name with
        | Returned _ => false
        | Raised => true
        end
      else true
  | CloneTimeout => true
  | CloneRaised => true
  end.

(** "Checkout and archive both failing: overall failure, no partial
    InstalledRecord written for that attempt." *)
Definition no_record_when_both_fail : Prop :=
  forall self w addon_name repo_url now root url,
    addon_path self = Some root ->
    lookup_repo_url self addon_name repo_url = Some url ->
    PyStr.truthy url = true ->
    repos_mkdir_ok w = true ->
    checkout_failed w root addon_name url = true ->
    snd (install_addon_zip self w addon_name (Some url) now) = Returned false ->
    snd (install_addon_git self w addon_name repo_url now) = Returned false
    /\ installed (db (fst (install_addon_git self w addon_name repo_url now)))
       = installed (db self).

(** Did the archive strategy fail before its first call of
    [mark_installed]? *)
Definition archive_failed_early (w : install_world) (root url : string) : bool :=
  match github_release_url w url with
  | None => true
  | Some download_url =>
      if negb (PyStr.truthy download_url) then true
      else
        match fetch_archive w download_url with
        | None => true
        | Some [] => true
        | Some ((folder_name, source_path) :: _) =>
            negb (copy_ok w source_path (path_join root folder_name))
        end
  end.

(** One registration of the loop of [install_addon_zip]. *)
Definition zip_mark (w : install_world) (root addon_name repo_url now : string)
    (self : AddonInstaller) (folder : string * string) : AddonInstaller :=
  let dest_path := path_join root (fst folder) in
  mark_installed self addon_name (addon_version w dest_path) repo_url dest_path now.

(** "Update the enabled flag only after the filesystem operation succeeds",
    for [disable]: when the [rmdir] of the link is run and does not exit
    with status 0, the records are as before. *)
Definition disable_only_after_success : Prop :=
  forall app d w addon_name row,
    List.find (i_named_live addon_name) (installed d) = Some row ->
    lw_present w (i_path row) = true ->
    (forall rc, lw_rmdir w (i_path row) = RunCompleted rc -> rc <> 0%Z) ->
    installed (snd (fst (disable_addon app d w addon_name))) = installed d.

(** Two records that differ at most in [enabled]. *)
Definition same_but_enabled (r r' : installed_row) : Prop :=
  i_id r' = i_id r /\ i_name r' = i_name r /\ i_version r' = i_version r
  /\ i_path r' = i_path r /\ i_installed_at_utc r' = i_installed_at_utc r
  /\ i_last_update_utc r' = i_last_update_utc r
  /\ i_source_repo_url r' = i_source_repo_url r
  /\ i_deleted_at_utc r' = i_deleted_at_utc r.

(** A world in which the [rmdir] of the link exits with status 1 (the path
    is a folder that is not empty). *)
Definition world_rmdir_fails : link_world :=
  {| lw_present := fun _ => true; lw_exists := fun _ => true;
     lw_rmdir := fun _ => RunCompleted 1; lw_mklink := fun _ _ => RunCompleted 1 |}.

(** A world in which links are removed and created without trouble. *)
Definition world_links_ok : link_world :=
  {| lw_present := fun _ => true; lw_exists := fun _ => true;
     lw_rmdir := fun _ => RunCompleted 0; lw_mklink := fun _ _ => RunCompleted 0 |}.

(** ** Auxiliary notions for the reconciliation *)

(** The key of a record in the dictionary of [get_installed_addons]. *)
Definition installed_key (r : installed_row) : string := PyStr.lower (i_name r).

(** The body of the loop of [get_installed_addons]. *)
Definition installed_dict_step (d : PyDict.t installed_info) (row : installed_row)
    : PyDict.t installed_info :=
  PyDict.set d (PyStr.lower (i_name row)) (info_of_row row).

(** Does [scan_addon_directory] keep this directory entry? *)
Definition item_is_addon (item : dir_entry) : bool :=
  item_is_dir item && item_has_toc item.

(** The catalog name that the URL cache holds for the git URL of a
    directory entry. *)
Definition item_match (self : AddonInstaller) (item : dir_entry) : option string :=
  match item_git_url item with
  | Some u => if PyStr.truthy u then _repo_to_addon_cache self !! _normalize_repo_url u
              else None
  | None => None
  end.

(** Is the directory entry matched by its git URL, to a name that is not
    empty?  For any other entry with a manifest [scan_addon_directory]
    calls [_match_by_folder_name]. *)
Definition item_matched (self : AddonInstaller) (item : dir_entry) : bool :=
  PyStr.otruthy (item_match self item).

(** The value stored by [scan_addon_directory] for a directory entry that
    is matched by its git URL. *)
Definition item_info (self : AddonInstaller) (root : string) (item : dir_entry) : scan_info :=
  {| has_toc := true; git_url := item_git_url item;
     matched_addon := item_match self item;
     path := path_join root (item_name item) |}.

(** One turn of the loop of [scan_addon_directory] that does not raise. *)
Definition scan_step (self : AddonInstaller) (root : string)
    (addon_info : PyDict.t scan_info) (item : dir_entry) : PyDict.t scan_info :=
  if item_is_addon item
  then PyDict.set addon_info (item_name item) (item_info self root item)
  else addon_info.

(** Does [scan_addon_directory] return?  It does when there is no add-on
    root to list, and when every directory with a manifest is matched by
    its git URL. *)
Definition scan_returns (self : AddonInstaller) (fs : filesystem) : bool :=
  match addon_path self with
  | None => true
  | Some root =>
      if negb (fs_exists fs root) then true
      else forallb (fun item => negb (item_is_addon item) || item_matched self item)
                   (fs_iterdir fs)
  end.

(** The dictionary that [scan_addon_directory] returns, when it returns. *)
Definition scanned (self : AddonInstaller) (fs : filesystem) : PyDict.t scan_info :=
  match addon_path self with
  | None => []
  | Some root =>
      if negb (fs_exists fs root) then []
      else fold_left (scan_step self root) (fs_iterdir fs) []
  end.

(** Does this catalog row put [key] in the URL cache? *)
Definition cache_hit (key : string) (r : addon_row) : bool :=
  match a_repo_url r with
  | Some u => PyStr.truthy u && String.eqb (_normalize_repo_url u) key
  | None => false
  end.

(** The key under which a scanned folder is looked up. *)
Definition resolved_key (kv : string * scan_info) : string :=
  PyStr.lower (resolved_name kv).

(** Where a live record met after the first loop of [sync_installed_state]
    comes from: a record live at the start, whose path is its own or that
    of a scanned folder, or an insertion for a scanned folder whose key was
    not in the snapshot. *)
Definition disk_origin (t0 : list installed_row) (disk_addons : PyDict.t scan_info)
    (db_installed : PyDict.t installed_info) (r' : installed_row) : Prop :=
  (exists r, In r t0 /\ i_live r = true /\ i_name r = i_name r'
             /\ (i_path r' = i_path r
                 \/ exists kv, In kv disk_addons /\ i_path r' = path (snd kv)))
  \/ (exists kv, In kv disk_addons /\ i_name r' = resolved_name kv
                 /\ i_path r' = path (snd kv)
                 /\ PyDict.mem db_installed (PyStr.lower (i_name r')) = false).

(** The listing and the existence test speak of one directory tree: every
    directory listed under the add-on root exists. *)
Definition fs_consistent (self : AddonInstaller) (fs : filesystem) : Prop :=
  forall root item,
    addon_path self = Some root -> In item (fs_iterdir fs) -> item_is_dir item = true ->
    fs_exists fs (path_join root (item_name item)) = true.

(** "Reconciling twice in a row with no filesystem change yields (0, 0) on
    the second call." *)
Definition second_sync_is_quiet : Prop :=
  forall self fs now1 now2,
    fs_consistent self fs ->
    snd (sync_installed_state (fst (sync_installed_state self fs now1)) fs now2)
    = Returned (0, 0)%nat.

(** The add-on root holds the folder [Foo], a checkout of
    [https://github.com/a/foo.git]; nothing else exists. *)
Definition fs_only_foo : filesystem :=
  {| fs_exists := fun p => String.eqb p sample_root
                           || String.eqb p (path_join sample_root "Foo");
     fs_iterdir := [ {| item_name := "Foo"; item_is_dir := true;
                        item_has_toc := true;
                        item_git_url := Some "https://github.com/a/foo.git" |} ] |}.

(** "If a discovered folder's normalized VCS URL exactly matches a catalog
    entry's normalized primary or override URL, the resulting record's
    identity equals the catalog entry's name." *)
Definition url_match_names_record : Prop :=
  forall d root fs now item u r cu,
    fs_exists fs root = true ->
    List.NoDup (List.map item_name (fs_iterdir fs)) ->
    In item (fs_iterdir fs) -> item_is_addon item = true ->
    item_git_url item = Some u -> PyStr.truthy u = true ->
    In r (addons d) -> a_live r = true ->
    (a_repo_url r = Some cu \/ a_override_url r = Some cu) ->
    PyStr.truthy cu = true ->
    _normalize_repo_url cu = _normalize_repo_url u ->
    exists rec,
      In rec (installed (db (fst (sync_installed_state (new_installer d (Some root)) fs now))))
      /\ i_live rec = true /\ i_name rec = a_name r.

(** The add-on root holds the folder [foo-fork], a checkout of
    [https://github.com/me/foo.git]. *)
Definition fs_fork : filesystem :=
  {| fs_exists := fun _ => true;
     fs_iterdir := [ {| item_name := "foo-fork"; item_is_dir := true;
                        item_has_toc := true;
                        item_git_url := Some "https://github.com/me/foo.git" |} ] |}.

(** The add-on root holds the folder [foo-main], a checkout of
    [https://GitHub.com/a/foo.git]. *)
Definition fs_checkout : filesystem :=
  {| fs_exists := fun _ => true;
     fs_iterdir := [ {| item_name := "foo-main"; item_is_dir := true;
                        item_has_toc := true;
                        item_git_url := Some "https://GitHub.com/a/foo.git" |} ] |}.


(** * More of the code *)

(** ** [installer.py]: queries and settings of the catalog *)

(** [AddonInstaller.get_installed_version] *)
Definition get_installed_version (self : AddonInstaller) (addon_name : string) : option string :=
  match PyDict.get (get_installed_addons self) (PyStr.lower addon_name) with
  | Some addon => Some (info_version addon)
  | None => None
  end.

(** [self'] is [self] after more add-ons were registered: the catalog, the
    add-on root and the URL cache are the same and whatever was installed
    still is. *)
Definition registers_more (self self' : AddonInstaller) : Prop :=
  addons (db self') = addons (db self)
  /\ addon_path self' = addon_path self
  /\ _repo_to_addon_cache self' = _repo_to_addon_cache self
  /\ forall n, is_installed self n = true -> is_installed self' n = true.

(** Two records that differ at most in the columns written by
    [sync_installed_state]: [path], [source_repo_url] and [deleted_at_utc]. *)
Definition same_but_located (r r' : installed_row) : Prop :=
  i_id r' = i_id r /\ i_name r' = i_name r /\ i_version r' = i_version r
  /\ i_installed_at_utc r' = i_installed_at_utc r
  /\ i_last_update_utc r' = i_last_update_utc r /\ i_enabled r' = i_enabled r.

(** ** [db.py]: notions used to describe [upsert_addon] *)

(** A catalog row whose update time alone is set anew. *)
Definition a_set_updated_at (r : addon_row) (now : string) : addon_row :=
  a_set_upsert r (a_repo_url r) (a_description r) (a_tags r) now.

(** Two catalog rows that differ at most in the columns written by the
    [UPDATE] of [upsert_addon]: primary URL, description, tags and update
    time. *)
Definition same_but_synced (r r' : addon_row) : Prop :=
  a_id r' = a_id r /\ a_name r' = a_name r /\ a_override_url r' = a_override_url r
  /\ a_status r' = a_status r /\ a_host r' = a_host r
  /\ a_homepage_url r' = a_homepage_url r /\ a_license r' = a_license r
  /\ a_category r' = a_category r /\ a_compatible_client r' = a_compatible_client r
  /\ a_latest_version r' = a_latest_version r /\ a_install_method r' = a_install_method r
  /\ a_created_at_utc r' = a_created_at_utc r
  /\ a_deleted_at_utc r' = a_deleted_at_utc r.

(** What the schema promises for [addons]: distinct row ids
    ([INTEGER PRIMARY KEY]) and [UNIQUE(name, repo_url)], in which two
    [NULL]s never collide. *)
Definition catalog_unique (t : list addon_row) : Prop :=
  List.NoDup (List.map a_id t)
  /\ forall r1 r2,
      In r1 t -> In r2 t -> a_id r1 <> a_id r2 -> a_name r1 = a_name r2 ->
      sql_eq (a_repo_url r1) (a_repo_url r2) = false.

(** ** [cli.py]: the [remove] command *)

(** [remove(addon_name, confirm)]: the installer afterwards and the exit
    status of the command ([raise typer.Exit(1)] is status 1; [Raised] is an
    exception that is not caught).  [response] is the answer to "Are you
    sure?", asked when [confirm] is not set. *)
Definition cli_remove (self : AddonInstaller) (w : remove_world) (addon_name : string)
    (confirm response : bool) (now : string) : AddonInstaller * outcome Z :=
  if negb (is_installed self addon_name) then (self, Returned 0%Z)
  else
    match PyDict.get (get_installed_addons self) (PyStr.lower addon_name) with
    | None => (self, Raised)
    | Some addon_info =>
        if negb confirm && negb response then (self, Returned 0%Z)
        else
          let '(self', success) := remove_addon self w (info_name addon_info) now in
          if success then (self', Returned 0%Z) else (self', Returned 1%Z)
    end.

(** ** [installer.py]: manifests found in a tree *)

(** A [.toc] file yielded by [rglob("*.toc")]: the directory that holds it
    ([str(toc_file.parent)]) and its name without the extension
    ([toc_file.stem]). *)
Record toc_file := {
  toc_parent : string;
  toc_stem : string
}.

(** [name in ('Libs', 'libs', 'Libraries')] *)
Definition library_folder (name : string) : bool :=
  existsb (String.eqb name) ["Libs"; "libs"; "Libraries"].

(** Body of the loop of [_get_addon_folders]; the set [seen_folders] is kept
    as a list. *)
Definition addon_folders_step (acc : list (string * string) * list string) (toc : toc_file)
    : list (string * string) * list string :=
  let '(addon_folders, seen_folders) := acc in
  let addon_folder := toc_parent toc in
  let addon_name := basename addon_folder in
  if existsb (String.eqb addon_folder) seen_folders then acc
  else if library_folder addon_name then acc
  else (addon_folders ++ [(addon_name, addon_folder)], addon_folder :: seen_folders).

(** [AddonInstaller._get_addon_folders], given the result of
    [_find_toc_files]. *)
Definition _get_addon_folders (toc_files : list toc_file) : list (string * string) :=
  match toc_files with
  | [] => []
  | _ => fst (fold_left addon_folders_step toc_files ([], []))
  end.

(** A [.toc] file met by [_scan_git_subfolders]: the directory that holds
    it, relative to the checkout ([str(parent_folder.relative_to(repo_path))],
    ["."] for the root of the checkout), the name of that directory
    ([parent_folder.name]) and the name of the file without extension. *)
Record repo_toc := {
  rt_relative : string;
  rt_folder_name : string;
  rt_stem : string
}.

(** [s.replace('-', '').replace('_', '')] *)
Definition drop_dash_underscore (s : string) : string :=
  PyStr.replace (PyStr.replace s "-" "") "_" "".

(** The test "this looks like a valid addon folder" of
    [_scan_git_subfolders]. *)
Definition toc_matches_folder (toc_name folder_name : string) : bool :=
  String.eqb (PyStr.lower toc_name) (PyStr.lower folder_name)
  || String.eqb (drop_dash_underscore (PyStr.lower toc_name))
                (drop_dash_underscore (PyStr.lower folder_name)).

(** Body of the loop of [_scan_git_subfolders]. *)
Definition scan_subfolders_step (subfolders : list string) (toc : repo_toc) : list string :=
  if library_folder (rt_folder_name toc) then subfolders
  else if toc_matches_folder (rt_stem toc) (rt_folder_name toc) then
    if negb (String.eqb (rt_relative toc) ".")
       && negb (existsb (String.eqb (rt_relative toc)) subfolders)
    then subfolders ++ [rt_relative toc]
    else subfolders
  else subfolders.

(** [AddonInstaller._scan_git_subfolders], given the [.toc] files of the
    checkout in the order of [rglob]. *)
Definition _scan_git_subfolders (tocs : list repo_toc) : list string :=
  fold_left scan_subfolders_step tocs [].

(** ** [installer.py]: the version written in a manifest *)

(** Characters removed by [str.strip()] (ASCII range). *)
Definition is_space (c : ascii) : bool :=
  let n := nat_of_ascii c in
  ((9 <=? n)%nat && (n <=? 13)%nat) || ((28 <=? n)%nat && (n <=? 32)%nat).

Fixpoint lstrip_space (s : string) : string :=
  match s with
  | EmptyString => EmptyString
  | String c s' => if is_space c then lstrip_space s' else s
  end.

Fixpoint rstrip_space (s : string) : string :=
  match s with
  | EmptyString => EmptyString
  | String c s' =>
      match rstrip_space s' with
      | EmptyString => if is_space c then EmptyString else String c EmptyString
      | r => String c r
      end
  end.

(** [s.strip()] *)
Definition strip (s : string) : string := rstrip_space (lstrip_space s).

(** [s.split(sep, 1)[1]]; [None] when [sep] is not in [s] (an
    [IndexError]). *)
Fixpoint after_first (sep : ascii) (s : string) : option string :=
  match s with
  | EmptyString => None
  | String c s' => if Ascii.eqb c sep then Some s' else after_first sep s'
  end.

(** The loop of [_get_addon_version] over the lines of the manifest. *)
Fixpoint version_of_lines (lines : list string) : string :=
  match lines with
  | [] => "unknown"
  | line :: rest =>
      if PyStr.startswith "## Version:" line then
        match after_first ":" line with
        | Some v => strip v
        | None => "unknown"
        end
      else version_of_lines rest
  end.

(** [AddonInstaller._get_addon_version]; [toc_lines] are the lines of the
    first [.toc] file of the folder, [None] when the folder has none or the
    file cannot be opened. *)
Definition _get_addon_version (toc_lines : option (list string)) : string :=
  match toc_lines with
  | None => "unknown"
  | Some lines => version_of_lines lines
  end.

(** Does [_scan_git_subfolders] take this manifest for an add-on of its
    own? *)
Definition subfolder_addon (toc : repo_toc) : bool :=
  negb (library_folder (rt_folder_name toc))
  && toc_matches_folder (rt_stem toc) (rt_folder_name toc)
  && negb (String.eqb (rt_relative toc) ".").

(** ** [installer.py]: updates *)

(** What the two update functions find outside the database.  The folders
    are named by the path stored in the record. *)
Record update_world := {
  up_exists : string -> bool;
    (* [Path(p).exists()] *)
  up_git_dir : string -> bool;
    (* [(Path(p) / '.git').exists()] *)
  up_path_str : string -> string;
    (* [str(Path(p))] *)
  up_behind : string -> outcome Z;
    (* [git rev-parse], [git fetch] and [git rev-list HEAD..origin/HEAD
       --count] run in [p] and the count read with [int]; [Raised] when one
       of them raises *)
  up_pull : string -> run_outcome;
    (* [subprocess.run(['git', 'pull'], cwd=p, ...)] *)
  up_install : install_world
    (* the world of the reinstallation *)
}.

(** An entry of the list returned by [check_for_updates]. *)
Record update_entry := {
  u_name : string;
  u_path : string;
  u_current_version : string;
  u_commits_behind : Z
}.

(** Body of the loop of [check_for_updates]. *)
Definition check_updates_step (w : update_world) (updates : list update_entry)
    (item : string * installed_info) : list update_entry :=
  let addon_info := snd item in
  let addon_path := info_path addon_info in
  if negb (up_exists w addon_path) then updates
  else if up_git_dir w addon_path then
    match up_behind w addon_path with
    | Returned behind_count =>
        if (0 <? behind_count)%Z then
          updates ++ [ {| u_name := info_name addon_info;
                          u_path := up_path_str w addon_path;
                          u_current_version := info_version addon_info;
                          u_commits_behind := behind_count |} ]
        else updates
    | Raised => updates
    end
  else updates.

(** [AddonInstaller.check_for_updates] *)
Definition check_for_updates (self : AddonInstaller) (w : update_world) : list update_entry :=
  fold_left (check_updates_step w) (get_installed_addons self) [].

Definition i_set_version_update (r : installed_row) (version now : string) : installed_row :=
  {| i_id := i_id r; i_name := i_name r; i_version := version;
     i_path := i_path r; i_installed_at_utc := i_installed_at_utc r;
     i_last_update_utc := Some now; i_enabled := i_enabled r;
     i_source_repo_url := i_source_repo_url r; i_deleted_at_utc := i_deleted_at_utc r |}.

(** [UPDATE installed SET version = ?, last_update_utc = ?
     WHERE name = ? AND deleted_at_utc IS NULL] *)
Definition sql_update_version (t : list installed_row) (version now name : string)
    : list installed_row :=
  List.map (fun r => if i_named_live name r then i_set_version_update r version now else r) t.

(** [AddonInstaller.update_addon] *)
Definition update_addon (self : AddonInstaller) (w : update_world) (addon_name now : string)
    : AddonInstaller * outcome bool :=
  match PyDict.get (get_installed_addons self) (PyStr.lower addon_name) with
  | None => (self, Returned false)
  | Some addon_info =>
      let addon_path := info_path addon_info in
      let pulled :=
        if up_git_dir w addon_path then
          match up_pull w addon_path with
          | RunCompleted returncode => Z.eqb returncode 0
          | RunRaised => false
          end
        else false in
      if pulled then
        let version := addon_version (up_install w) addon_path in
        (with_db self (set_installed (db self)
                         (sql_update_version (installed (db self)) version now addon_name)),
         Returned true)
      else
        let repo_url := info_repo_url addon_info in
        if PyStr.truthy repo_url then
          install_addon self (up_install w) addon_name (Some repo_url) true now
        else (self, Returned false)
  end.

(** Two records that differ at most in [version] and [last_update_utc]. *)
Definition same_but_version (r r' : installed_row) : Prop :=
  i_id r' = i_id r /\ i_name r' = i_name r /\ i_path r' = i_path r
  /\ i_installed_at_utc r' = i_installed_at_utc r /\ i_enabled r' = i_enabled r
  /\ i_source_repo_url r' = i_source_repo_url r
  /\ i_deleted_at_utc r' = i_deleted_at_utc r.

(** ** [tui.py]: the toggle *)

(** [addon_row['enabled'] == 1] *)
Definition is_one (e : option Z) : bool :=
  match e with
  | Some e => Z.eqb e 1
  | None => false
  end.

(** [CarapaceApp.toggle_addon_enabled]; the third component is [None] when
    the add-on is not installed, else the answer of the handler called. *)
Definition toggle_addon_enabled (app : CarapaceApp) (d : Database) (root : option string)
    (w : link_world) (selected_addon : string) : CarapaceApp * Database * option bool :=
  match List.find (i_named_live selected_addon) (installed d) with
  | None => (app, d, None)
  | Some addon_row =>
      let is_currently_enabled := is_one (i_enabled addon_row) in
      if is_currently_enabled then
        let '(app', d', success) := disable_addon app d w selected_addon in
        (app', d', Some success)
      else
        let '(app', d', success) := enable_addon app d root w selected_addon in
        (app', d', Some success)
  end.

(** ** Override URLs *)

Definition a_set_override (r : addon_row) (override_url : string) : addon_row :=
  {| a_id := a_id r; a_name := a_name r; a_repo_url := a_repo_url r;
     a_override_url := Some override_url; a_status := a_status r; a_host := a_host r;
     a_description := a_description r; a_homepage_url := a_homepage_url r;
     a_license := a_license r; a_category := a_category r;
     a_compatible_client := a_compatible_client r;
     a_latest_version := a_latest_version r; a_install_method := a_install_method r;
     a_tags := a_tags r;
     a_created_at_utc := a_created_at_utc r; a_updated_at_utc := a_updated_at_utc r;
     a_deleted_at_utc := a_deleted_at_utc r |}.

(** [AddonInstaller.set_override_url]:
    [UPDATE addons SET override_url = ? WHERE name = ?]. *)
Definition set_override_url (self : AddonInstaller) (addon_name override_url : string)
    : AddonInstaller * bool :=
  (with_db self
     (set_addons (db self)
        (List.map (fun r => if String.eqb (a_name r) addon_name
                            then a_set_override r override_url else r)
                  (addons (db self)))),
   true).

(** [Database.set_addon_override_url]:
    [UPDATE addons SET override_url = ? WHERE name = ? AND deleted_at_utc IS NULL]. *)
Definition set_addon_override_url (d : Database) (addon_name override_url : string)
    : Database :=
  set_addons d
    (List.map (fun r => if String.eqb (a_name r) addon_name && a_live r
                        then a_set_override r override_url else r)
              (addons d)).

(** ** [cli.py]: the [install] command *)

(** [Database.get_addons()] as far as the command reads it: the live rows
    in row order, each with its tags decoded; [loads_ok s] tells whether
    [json.loads(s)] returns, and the call raises when it does not. *)
Definition get_addons (loads_ok : string -> bool) (d : Database) : outcome (list addon_row) :=
  let rows := List.filter a_live (addons d) in
  if forallb (fun r => match a_tags r with
                       | Some s => if PyStr.truthy s then loads_ok s else true
                       | None => true
                       end) rows
  then Returned rows
  else Raised.

(** [install(addon_name)]: the installer afterwards and the exit status of
    the command ([raise typer.Exit(1)] is status 1; [Raised] is an
    exception that is not caught). *)
Definition cli_install (loads_ok : string -> bool) (self : AddonInstaller) (w : install_world)
    (addon_name now : string) : AddonInstaller * outcome Z :=
  if is_installed self addon_name then (self, Returned 0%Z)
  else
    match get_addons loads_ok (db self) with
    | Raised => (self, Raised)
    | Returned addons_ =>
        match List.find (fun a => String.eqb (PyStr.lower (a_name a)) (PyStr.lower addon_name))
                        addons_ with
        | None => (self, Returned 1%Z)
        | Some addon =>
            if negb (PyStr.otruthy (a_repo_url addon)) then (self, Returned 1%Z)
            else
              match install_addon self w (a_name addon) (a_repo_url addon) true now with
              | (self', Returned true) => (self', Returned 0%Z)
              | (self', Returned false) => (self', Returned 1%Z)
              | (self', Raised) => (self', Raised)
              end
        end
    end.

(** ** [db.py]: the status of a catalog row *)

(** [CHECK(status IN ('active','broken','missing','unstable'))] *)
Definition status_admitted (status : string) : bool :=
  existsb (String.eqb status) ["active"; "broken"; "missing"; "unstable"].

Definition a_set_status (r : addon_row) (status : string) : addon_row :=
  {| a_id := a_id r; a_name := a_name r; a_repo_url := a_repo_url r;
     a_override_url := a_override_url r; a_status := Some status; a_host := a_host r;
     a_description := a_description r; a_homepage_url := a_homepage_url r;
     a_license := a_license r; a_category := a_category r;
     a_compatible_client := a_compatible_client r;
     a_latest_version := a_latest_version r; a_install_method := a_install_method r;
     a_tags := a_tags r;
     a_created_at_utc := a_created_at_utc r; a_updated_at_utc := a_updated_at_utc r;
     a_deleted_at_utc := a_deleted_at_utc r |}.

(** [Database.set_addon_status]; the [UPDATE] raises
    ([sqlite3.IntegrityError]) and writes nothing when a row would get a
    status that the [CHECK] constraint refuses. *)
Definition set_addon_status (d : Database) (addon_name status : string)
    : Database * outcome unit :=
  if existsb (a_named_live addon_name) (addons d) && negb (status_admitted status)
  then (d, Raised)
  else
    (set_addons d (List.map (fun r => if a_named_live addon_name r
                                      then a_set_status r status else r)
                            (addons d)),
     Returned tt).

(** [status = 'broken' OR repo_url IS NULL OR repo_url = ''], on a live
    row. *)
Definition listed_as_broken (r : addon_row) : bool :=
  a_live r
  && (option_string_eqb (a_status r) (Some "broken")
      || match a_repo_url r with
         | None => true
         | Some u => String.eqb u ""
         end).

(** [ORDER BY name]: SQLite reads the rows through the index of
    [UNIQUE(name, repo_url)], so that they come by name, names being
    compared byte by byte ([BINARY]), the rows of one name by [repo_url]
    and the rows of one name and [repo_url] in rowid order. *)
Definition index_leb (r x : addon_row) : bool :=
  if String.eqb (a_name r) (a_name x)
  then negb (url_before (a_repo_url x) (a_repo_url r))
  else String.leb (a_name r) (a_name x).

Fixpoint insert_by_name (r : addon_row) (l : list addon_row) : list addon_row :=
  match l with
  | [] => [r]
  | x :: l' =>
      if index_leb r x then r :: l
      else x :: insert_by_name r l'
  end.

Definition order_by_name (l : list addon_row) : list addon_row :=
  fold_right insert_by_name [] l.

(** [Database.get_broken_addons]: the rows, in the order returned; like
    [get_addons] it raises when the tags of a row cannot be decoded. *)
Definition get_broken_addons (loads_ok : string -> bool) (d : Database)
    : outcome (list addon_row) :=
  let rows := order_by_name (List.filter listed_as_broken (addons d)) in
  if forallb (fun r => match a_tags r with
                       | Some s => if PyStr.truthy s then loads_ok s else true
                       | None => true
                       end) rows
  then Returned rows
  else Raised.

(** Are the rows in ascending order of name? *)
Fixpoint sorted_by_name (l : list addon_row) : bool :=
  match l with
  | [] => true
  | x :: l' =>
      match l' with
      | [] => true
      | y :: _ => String.leb (a_name x) (a_name y) && sorted_by_name l'
      end
  end.


(** * Properties *)

(** ** URL normalisation *)

(** The pair of URLs named by the specification has one key. *)
Lemma normalize_example_pair :
  _normalize_repo_url "https://GitHub.com/Foo/Bar.git" = _normalize_repo_url "github.com/foo/bar".
Proof. reflexivity. Qed.

Lemma normalize_example_trailing_slash :
  _normalize_repo_url "https://Host.com/Owner/Repo.git/" = "host.com/owner/repo".
Proof. reflexivity. Qed.

(** C3: [_normalize_repo_url] is meant to drop a trailing [.git] suffix and
    nothing else of the path.  On ["https://github.com/foo/widget"], which
    has no such suffix, [rstrip('.git')] eats the final [t] (it strips any
    run of the characters [.], [g], [i], [t]); the wording of the
    specification gives ["github.com/foo/widget"]. *)
Theorem normalize_eats_trailing_letters :
  _normalize_repo_url "https://github.com/foo/widget" = "github.com/foo/widge"
  /\ normalize_spec "https://github.com/foo/widget" = "github.com/foo/widget"
  /\ _normalize_repo_url "https://github.com/foo/widget"
     = _normalize_repo_url "https://github.com/foo/widge".
Proof. repeat split; reflexivity. Qed.

(** ** Rows read through the index *)

Lemma filter_map_same {A : Type} (p : A -> bool) (f : A -> A) (l : list A) :
  (forall x, p (f x) = p x) -> List.filter p (List.map f l) = List.map f (List.filter p l).
Proof.
  intros H. induction l as [|x l IH]; [reflexivity|]. cbn. rewrite H.
  destruct (p x); cbn; now rewrite IH.
Qed.

Lemma first_by_url_from_in best rows :
  first_by_url_from best rows = best \/ In (first_by_url_from best rows) rows.
Proof.
  revert best. induction rows as [|r rows IH]; intros best; [now left|].
  cbn [first_by_url_from].
  destruct (IH (if url_before (a_repo_url r) (a_repo_url best) then r else best)) as [E|Hin].
  - rewrite E. destruct (url_before _ _); [right; now left | now left].
  - right. now right.
Qed.

Lemma first_by_url_in rows r : first_by_url rows = Some r -> In r rows.
Proof.
  destruct rows as [|x rows]; [discriminate|]. cbn [first_by_url]. intros [= <-].
  destruct (first_by_url_from_in x rows) as [-> | H]; [now left | now right].
Qed.

Lemma first_by_url_none rows : first_by_url rows = None -> rows = [].
Proof. now destruct rows. Qed.

Lemma first_by_url_from_map (f : addon_row -> addon_row) best rows :
  (forall x, a_repo_url (f x) = a_repo_url x) ->
  first_by_url_from (f best) (List.map f rows) = f (first_by_url_from best rows).
Proof.
  intros Hf. revert best. induction rows as [|r rows IH]; intros best; [reflexivity|].
  cbn [List.map first_by_url_from]. rewrite !Hf, <- IH.
  now destruct (url_before _ _).
Qed.

Lemma first_by_url_map (f : addon_row -> addon_row) rows :
  (forall x, a_repo_url (f x) = a_repo_url x) ->
  first_by_url (List.map f rows) = option_map f (first_by_url rows).
Proof.
  intros Hf. destruct rows as [|r rows]; [reflexivity|].
  cbn [List.map first_by_url option_map]. now rewrite first_by_url_from_map.
Qed.

Lemma fetch_named_in t name r : fetch_named t name = Some r -> In r t /\ a_name r = name.
Proof.
  unfold fetch_named. intros H. apply first_by_url_in, filter_In in H as [Hin Hn].
  split; [exact Hin | now apply String.eqb_eq].
Qed.

Lemma fetch_named_some t name :
  (exists r, In r t /\ a_name r = name) -> exists row, fetch_named t name = Some row.
Proof.
  intros (r & Hr & Hn). unfold fetch_named.
  destruct (first_by_url _) as [row|] eqn:E; [now exists row|].
  apply first_by_url_none in E.
  assert (Hin : In r (List.filter (a_named name) t)).
  { apply filter_In. split; [exact Hr|]. unfold a_named. rewrite Hn. apply String.eqb_refl. }
  rewrite E in Hin. destruct Hin.
Qed.

Lemma fetch_named_none t name r :
  fetch_named t name = None -> In r t -> a_name r <> name.
Proof.
  intros E Hr Hn. destruct (fetch_named_some t name) as (row & Hrow); [now exists r|].
  rewrite Hrow in E. discriminate.
Qed.

Lemma fetch_named_map (f : addon_row -> addon_row) t name :
  (forall x, a_repo_url (f x) = a_repo_url x) -> (forall x, a_name (f x) = a_name x) ->
  fetch_named (List.map f t) name = option_map f (fetch_named t name).
Proof.
  intros Hu Hn. unfold fetch_named. rewrite filter_map_same.
  - now apply first_by_url_map.
  - intros x. unfold a_named. now rewrite Hn.
Qed.

(** ** Source URL of an installation *)

Lemma lookup_repo_url_truthy self addon_name repo_url :
  PyStr.otruthy repo_url = true ->
  lookup_repo_url self addon_name repo_url = repo_url.
Proof. intros H. unfold lookup_repo_url. now rewrite H. Qed.


Lemma lookup_repo_url_no_row self addon_name repo_url :
  fetch_named (addons (db self)) addon_name = None ->
  lookup_repo_url self addon_name repo_url = repo_url.
Proof.
  intros Hf. unfold lookup_repo_url. rewrite Hf. now destruct (negb _).
Qed.





(** C2: when no URL can be resolved (no explicit argument, and the catalog
    row, if there is one, has neither an override URL nor a primary URL) the
    installation returns [False] and the installer, hence the [installed]
    table, is as before. *)
Theorem install_without_url_fails self w addon_name repo_url use_git now :
  PyStr.otruthy repo_url = false ->
  (forall result,
      fetch_named (addons (db self)) addon_name = Some result ->
      PyStr.otruthy (a_override_url result) = false
      /\ PyStr.otruthy (a_repo_url result) = false) ->
  install_addon self w addon_name repo_url use_git now = (self, Returned false)
  /\ installed (db (fst (install_addon self w addon_name repo_url use_git now)))
     = installed (db self).
Proof.
  intros Harg Hrow.
  assert (Hu : PyStr.otruthy (lookup_repo_url self addon_name repo_url) = false).
  { unfold lookup_repo_url. rewrite Harg. cbn [negb].
    destruct (fetch_named _ _) as [result|] eqn:Hf; [|exact Harg].
    destruct (Hrow result eq_refl) as [Ho Hr].
    unfold PyStr.or_else. now rewrite Ho. }
  assert (E : install_addon self w addon_name repo_url use_git now = (self, Returned false)).
  { unfold install_addon, install_addon_git, install_addon_zip.
    destruct use_git; destruct (addon_path self); rewrite ?Hu; reflexivity. }
  split; [exact E | now rewrite E].
Qed.

Lemma install_without_url_fails_witness :
  let self := new_installer (sample_db [sample_addon 1 "Foo" None (Some "")] [])
                            (Some sample_root) in
  install_addon self world_clone_ok "Foo" None true "t1" = (self, Returned false).
Proof.
  intros self.
  refine (proj1 (install_without_url_fails self world_clone_ok "Foo" None true "t1" eq_refl _)).
  intros result Hf. vm_compute in Hf. injection Hf as <-. split; reflexivity.
Defined.

(** ** Case of names in the [installed] table *)

(** The dictionary of [get_installed_addons] finds a record whatever the
    case of the name asked for. *)
Lemma is_installed_case_insensitive self n m :
  PyStr.lower n = PyStr.lower m -> is_installed self n = is_installed self m.
Proof. intros H. unfold is_installed. now rewrite H. Qed.

(** C6: lookups are meant to ignore case so that no two live records differ
    only in case.  [mark_installed] looks for [WHERE name = ?], which is
    exact: with the live record ["Foo"], installing ["foo"] (found installed
    by [is_installed]) ends with a second live record. *)
Theorem mark_installed_duplicates_on_case :
  let self := new_installer
                (sample_db [sample_addon 1 "foo" (Some "https://github.com/a/foo") None]
                           [sample_installed 1 "Foo" "/wow/Interface/AddOns/Foo" ""])
                (Some sample_root) in
  let self' := fst (install_addon_git self world_clone_ok "foo" None "t1") in
  is_installed self "foo" = true
  /\ snd (install_addon_git self world_clone_ok "foo" None "t1") = Returned true
  /\ List.map i_name (List.filter i_live (installed (db self'))) = ["Foo"; "foo"]
  /\ List.map (fun r => PyStr.lower (i_name r)) (List.filter i_live (installed (db self')))
     = ["foo"; "foo"].
Proof. vm_compute. repeat split; reflexivity. Qed.

(** ** Removal *)

Lemma sql_soft_delete_named t now name r :
  In r (sql_soft_delete t now name) -> i_name r = name -> i_live r = false.
Proof.
  unfold sql_soft_delete. rewrite in_map_iff. intros (r0 & <- & _) Hn.
  unfold i_named_live in *. destruct (String.eqb (i_name r0) name) eqn:E; cbn [andb] in *.
  - destruct (i_live r0) eqn:L; [reflexivity | exact L].
  - apply String.eqb_neq in E. now destruct (i_live r0); cbn in Hn.
Qed.

(** A removal that fails leaves the installer, hence every record, as it
    was: no soft-delete happens before the files are gone. *)
Lemma remove_addon_failure_untouched self w addon_name now :
  snd (remove_addon self w addon_name now) = false ->
  fst (remove_addon self w addon_name now) = self.
Proof.
  unfold remove_addon. destruct (addon_path self); [|reflexivity].
  destruct (PyDict.get _ _); [|reflexivity].
  destruct (negb (rm_repos_mkdir_ok w)); [reflexivity|].
  destruct (if rm_exists w _ then _ else _); [discriminate | reflexivity].
Qed.

(** An error raised while the files are removed makes the removal fail. *)
Lemma remove_addon_fs_error_fails self w addon_name now root info :
  addon_path self = Some root ->
  PyDict.get (get_installed_addons self) (PyStr.lower addon_name) = Some info ->
  (if rm_exists w (path_join (path_join root ".repos") addon_name)
   then rm_rmtree_repo_ok w
   else if rm_exists w (info_path info) then rm_remove_path_ok w else true) = false ->
  remove_addon self w addon_name now = (self, false).
Proof.
  intros Hroot Hget Hfs. unfold remove_addon. rewrite Hroot, Hget.
  destruct (negb (rm_repos_mkdir_ok w)); [reflexivity|]. now rewrite Hfs.
Qed.

(** A removal that succeeds leaves no live record under the name it was
    given, written exactly so. *)
Lemma remove_addon_success_exact_name self w addon_name now r :
  snd (remove_addon self w addon_name now) = true ->
  In r (installed (db (fst (remove_addon self w addon_name now)))) ->
  i_name r = addon_name -> i_live r = false.
Proof.
  unfold remove_addon. destruct (addon_path self); [|cbn; discriminate].
  destruct (PyDict.get _ _); [|cbn; discriminate].
  destruct (negb (rm_repos_mkdir_ok w)); [cbn; discriminate|].
  destruct (if rm_exists w _ then _ else _); [|cbn; discriminate].
  cbn. intros _. apply sql_soft_delete_named.
Qed.

(** Nothing left on disk: the removal succeeds. *)
Lemma remove_addon_missing_path_succeeds self w addon_name now root :
  addon_path self = Some root ->
  is_installed self addon_name = true ->
  rm_repos_mkdir_ok w = true ->
  (forall p, rm_exists w p = false) ->
  snd (remove_addon self w addon_name now) = true.
Proof.
  intros Hroot Hin Hmk Hex. unfold remove_addon, is_installed, PyDict.mem in *.
  rewrite Hroot. destruct (PyDict.get _ _); [|discriminate].
  rewrite Hmk. cbn [negb]. now rewrite !Hex.
Qed.

(** C7: a successful removal is meant to soft-delete the record it located.
    The record is located through the lower-cased dictionary, but the
    [UPDATE] names the argument: removing ["foo"] while the record is
    ["Foo"] returns [True] and leaves the record live. *)
Theorem remove_addon_keeps_record_on_case :
  let self := new_installer
                (sample_db [] [sample_installed 1 "Foo" "/wow/Interface/AddOns/Foo" ""])
                (Some sample_root) in
  is_installed self "foo" = true
  /\ snd (remove_addon self world_nothing_on_disk "foo" "t2") = true
  /\ List.filter i_live (installed (db (fst (remove_addon self world_nothing_on_disk "foo" "t2"))))
     = [sample_installed 1 "Foo" "/wow/Interface/AddOns/Foo" ""]
  /\ List.filter i_live (installed (db (fst (remove_addon self world_nothing_on_disk "Foo" "t2"))))
     = [].
Proof. vm_compute. repeat split; reflexivity. Qed.

(** ** Catalog upsert *)

(** Once a record has an override URL the sync worker of [tui.py] only
    writes its tags (and the update time): description, primary URL,
    override URL and the rest stay. *)
Lemma tui_sync_keeps_overridden json_dumps json_loads list_of_set d addon now e :
  fetch_named_live (addons d) (w_name addon) = Some e ->
  PyStr.otruthy (a_override_url e) = true ->
  let d' := fst (tui_sync_store_one json_dumps json_loads list_of_set d addon now) in
  List.map a_description (addons d') = List.map a_description (addons d)
  /\ List.map a_repo_url (addons d') = List.map a_repo_url (addons d)
  /\ List.map a_override_url (addons d') = List.map a_override_url (addons d)
  /\ List.map a_name (addons d') = List.map a_name (addons d).
Proof.
  intros Hf Ho. unfold tui_sync_store_one. rewrite Hf, Ho. cbn [fst addons set_addons].
  rewrite !List.map_map.
  repeat split; apply List.map_ext; intros r; now destruct (_ && _).
Qed.

(** C10: a resync is meant to leave a record with an override URL alone but
    for its tags.  [upsert_addon], which the [sync] command of [cli.py]
    calls for every parsed record, never reads the override URL: the
    description and the tags of the overridden record are replaced. *)
Theorem upsert_overwrites_overridden (json_dumps : list string -> string) (now : string) :
  let d := sample_db [sample_addon 1 "Foo" (Some "https://github.com/a/foo")
                                   (Some "https://github.com/me/foo")] [] in
  let incoming := {| d_name := "Foo"; d_repo_url := Some "https://github.com/a/foo";
                     d_description := Some "wiki"; d_tags := Some (TagsList ["y"]) |} in
  let d' := fst (cli_sync_store json_dumps d [incoming] now) in
  List.map a_override_url (addons d) = [Some "https://github.com/me/foo"]
  /\ List.map a_description (addons d) = [Some "mine"]
  /\ List.map a_description (addons d') = [Some "wiki"]
  /\ List.map a_tags (addons d') = [Some (json_dumps ["y"])]
  /\ List.map a_override_url (addons d') = [Some "https://github.com/me/foo"].
Proof. vm_compute. repeat split; reflexivity. Qed.

(** ** Fallback from checkout to archive *)

Lemma install_zip_folders_prefix w root addon_name repo_url now folders :
  forall self self' ok,
    install_zip_folders self w root addon_name repo_url now folders = (self', ok) ->
    if ok then self' = fold_left (zip_mark w root addon_name repo_url now) folders self
    else exists copied f rest,
        folders = copied ++ f :: rest
        /\ copy_ok w (snd f) (path_join root (fst f)) = false
        /\ self' = fold_left (zip_mark w root addon_name repo_url now) copied self.
Proof.
  induction folders as [|[folder_name source_path] rest IH]; intros self self' ok H.
  - injection H as <- <-. reflexivity.
  - cbn [install_zip_folders] in H.
    destruct (copy_ok w source_path (path_join root folder_name)) eqn:Hc.
    + apply IH in H. destruct ok; [exact H|].
      destruct H as (copied & f & rest' & -> & Hf & ->).
      exists ((folder_name, source_path) :: copied), f, rest'. now repeat split.
    + injection H as <- <-. exists [], (folder_name, source_path), rest. now repeat split.
Qed.

Lemma install_addon_git_fallback self w addon_name repo_url now root url :
  addon_path self = Some root ->
  lookup_repo_url self addon_name repo_url = Some url ->
  PyStr.truthy url = true ->
  repos_mkdir_ok w = true ->
  checkout_failed w root addon_name url = true ->
  install_addon_git self w addon_name repo_url now
  = install_addon_zip self w addon_name (Some url) now.
Proof.
  intros Hroot Hurl Ht Hmk Hfail. unfold install_addon_git, checkout_failed in *.
  rewrite Hroot, Hurl. cbn [PyStr.otruthy or_default]. rewrite Ht, Hmk. cbn [negb].
  destruct url as [|c url]; [discriminate|].
  destruct (git_clone w _ _) as [| |rc]; try reflexivity.
  destruct (Z.eqb rc 0); cbn [negb]; [|reflexivity].
  destruct (_link_subfolders _ _ _ _); [discriminate | reflexivity].
Qed.

Lemma install_addon_zip_early_failure self w addon_name now root url :
  addon_path self = Some root ->
  PyStr.truthy url = true ->
  archive_failed_early w root url = true ->
  install_addon_zip self w addon_name (Some url) now = (self, Returned false).
Proof.
  intros Hroot Ht Hearly. unfold install_addon_zip, archive_failed_early in *.
  rewrite Hroot, lookup_repo_url_truthy by exact Ht.
  cbn [PyStr.otruthy or_default]. rewrite Ht. cbn [negb].
  destruct (github_release_url w url) as [dl|]; [|reflexivity].
  destruct (negb (PyStr.truthy dl)); [reflexivity|].
  destruct (fetch_archive w dl) as [[|[folder_name source_path] rest]|]; try reflexivity.
  cbn [install_zip_folders].
  destruct (copy_ok w source_path _); [discriminate | reflexivity].
Qed.

(** C1 as stated does not hold: the clone exits with status 128, the
    archive holds two folders and the copy of the second one raises; the
    installation returns [False] and the record written for the first folder
    is in the table. *)
Lemma partial_record_when_both_fail : ~ no_record_when_both_fail.
Proof.
  intros H.
  pose (self := new_installer
                  (sample_db [sample_addon 1 "Foo" (Some "https://github.com/a/foo") None] [])
                  (Some sample_root)).
  specialize (H self world_second_copy_fails "Foo" None "t1" sample_root
                "https://github.com/a/foo" eq_refl eq_refl eq_refl eq_refl eq_refl eq_refl).
  destruct H as [_ H]. vm_compute in H. discriminate H.
Qed.

(** C1, amended: when the checkout fails (non-zero exit, timeout or
    exception) [install_addon_git] hands over to the archive strategy and
    returns what it returns; if that strategy fails before it registers its
    first folder, the installation returns [False] and the installer, hence
    the [installed] table, is as before; if it fails later, what has been
    written is exactly the registration of the folders copied before the
    failure. *)
Theorem install_git_falls_back_to_archive self w addon_name repo_url now root url :
  addon_path self = Some root ->
  lookup_repo_url self addon_name repo_url = Some url ->
  PyStr.truthy url = true ->
  repos_mkdir_ok w = true ->
  checkout_failed w root addon_name url = true ->
  install_addon_git self w addon_name repo_url now
  = install_addon_zip self w addon_name (Some url) now
  /\ (archive_failed_early w root url = true ->
      install_addon_git self w addon_name repo_url now = (self, Returned false))
  /\ (snd (install_addon_git self w addon_name repo_url now) = Returned false ->
      archive_failed_early w root url = false ->
      exists download_url first copied f rest,
        github_release_url w url = Some download_url
        /\ fetch_archive w download_url = Some ((first :: copied) ++ f :: rest)
        /\ copy_ok w (snd f) (path_join root (fst f)) = false
        /\ fst (install_addon_git self w addon_name repo_url now)
           = fold_left (zip_mark w root addon_name url now) (first :: copied) self).
Proof.
  intros Hroot Hurl Ht Hmk Hfail.
  pose proof (install_addon_git_fallback _ _ _ _ now _ _ Hroot Hurl Ht Hmk Hfail) as E.
  split; [exact E|]. split.
  - intros Hearly. rewrite E. now apply install_addon_zip_early_failure with (root := root).
  - rewrite E. clear E. unfold install_addon_zip, archive_failed_early.
    rewrite Hroot, lookup_repo_url_truthy by exact Ht.
    cbn [PyStr.otruthy or_default]. rewrite Ht. cbn [negb].
    destruct (github_release_url w url) as [dl|] eqn:Hrel; [|discriminate].
    destruct (negb (PyStr.truthy dl)); [discriminate|].
    destruct (fetch_archive w dl) as [folders|] eqn:Hfetch; [|discriminate].
    destruct folders as [|[folder_name source_path] rest]; [discriminate|].
    destruct (install_zip_folders self w root addon_name url now _) as [self' ok] eqn:Hz.
    cbn [fst snd]. intros Hres Hcopy. injection Hres as ->.
    apply install_zip_folders_prefix in Hz.
    destruct Hz as (copied & f & rest' & Hfold & Hf & ->).
    destruct copied as [|first copied].
    + cbn [app] in Hfold. injection Hfold as <- <-. cbn [fst snd] in Hf.
      rewrite Hf in Hcopy. discriminate.
    + exists dl, first, copied, f, rest'. now rewrite Hfetch, Hfold.
Qed.

Lemma install_git_falls_back_to_archive_witness :
  let self := new_installer
                (sample_db [sample_addon 1 "Foo" (Some "https://github.com/a/foo") None] [])
                (Some sample_root) in
  install_addon_git self world_all_fail "Foo" None "t1" = (self, Returned false).
Proof.
  intros self.
  exact (proj1 (proj2 (install_git_falls_back_to_archive self world_all_fail "Foo" None "t1"
                         sample_root "https://github.com/a/foo"
                         eq_refl eq_refl eq_refl eq_refl eq_refl))
               eq_refl).
Defined.


(** ** Enabling and disabling *)

Lemma same_but_enabled_refl r : same_but_enabled r r.
Proof. unfold same_but_enabled. tauto. Qed.

Lemma same_but_enabled_trans r1 r2 r3 :
  same_but_enabled r1 r2 -> same_but_enabled r2 r3 -> same_but_enabled r1 r3.
Proof. unfold same_but_enabled. intuition congruence. Qed.

Lemma Forall2_same_but_enabled_trans t1 t2 t3 :
  Forall2 same_but_enabled t1 t2 -> Forall2 same_but_enabled t2 t3 ->
  Forall2 same_but_enabled t1 t3.
Proof.
  intros H. revert t3. induction H; intros t3 H3; inversion H3; subst; constructor.
  - eapply same_but_enabled_trans; eassumption.
  - now apply IHForall2.
Qed.

Lemma Forall2_same_but_enabled_refl t : Forall2 same_but_enabled t t.
Proof. induction t; constructor; [apply same_but_enabled_refl | assumption]. Qed.

Lemma sql_set_enabled_frame t e name :
  Forall2 same_but_enabled t (sql_set_enabled t e name).
Proof.
  induction t as [|r t IH]; cbn; constructor; [|exact IH].
  destruct (i_named_live name r); [|apply same_but_enabled_refl].
  unfold same_but_enabled. cbn. tauto.
Qed.

Lemma sql_set_enabled_flag t e name r :
  In r (sql_set_enabled t e name) -> i_named_live name r = true -> i_enabled r = Some e.
Proof.
  unfold sql_set_enabled. rewrite in_map_iff. intros (r0 & <- & _).
  destruct (i_named_live name r0) eqn:E; [reflexivity|].
  intros H. rewrite H in E. discriminate.
Qed.

Lemma disable_addon_frame app d w addon_name :
  Forall2 same_but_enabled (installed d) (installed (snd (fst (disable_addon app d w addon_name)))).
Proof.
  unfold disable_addon. destruct (List.find _ _); [|apply Forall2_same_but_enabled_refl].
  destruct (if lw_present w _ then _ else _); cbn;
    [apply sql_set_enabled_frame | apply Forall2_same_but_enabled_refl].
Qed.

Lemma enable_addon_frame app d root w addon_name :
  Forall2 same_but_enabled (installed d)
          (installed (snd (fst (enable_addon app d root w addon_name)))).
Proof.
  unfold enable_addon. destruct (List.find _ _); [|apply Forall2_same_but_enabled_refl].
  destruct root; [|apply Forall2_same_but_enabled_refl].
  destruct (negb _); [apply Forall2_same_but_enabled_refl|].
  destruct (if lw_exists w _ then _ else _); [|apply Forall2_same_but_enabled_refl].
  destruct (lw_mklink w _ _) as [rc|]; [|apply Forall2_same_but_enabled_refl].
  destruct (Z.eqb rc 0); cbn;
    [apply sql_set_enabled_frame | apply Forall2_same_but_enabled_refl].
Qed.

(** [enable] touches the records only once [mklink] has exited with status
    0; every live record of that name is then enabled. *)
Lemma enable_addon_after_link app d root w addon_name :
  (snd (enable_addon app d root w addon_name) = false ->
   snd (fst (enable_addon app d root w addon_name)) = d)
  /\ (snd (enable_addon app d root w addon_name) = true ->
      (exists row r,
          List.find (i_named_live addon_name) (installed d) = Some row
          /\ root = Some r
          /\ lw_mklink w (i_path row)
                       (path_join (path_join r ".repos") (basename (i_path row)))
             = RunCompleted 0)
      /\ forall r, In r (installed (snd (fst (enable_addon app d root w addon_name)))) ->
                   i_named_live addon_name r = true -> i_enabled r = Some 1%Z).
Proof.
  unfold enable_addon. destruct (List.find _ _) as [row|]; [|now split].
  destruct root as [r0|]; [|now split].
  destruct (negb _); [now split|].
  destruct (if lw_exists w _ then _ else _); [|now split].
  destruct (lw_mklink w _ _) as [rc|] eqn:Hmk; [|now split].
  destruct (Z.eqb rc 0) eqn:Hrc; [|now split].
  apply Z.eqb_eq in Hrc. subst rc. cbn. split; [discriminate|]. intros _. split.
  - now exists row, r0.
  - apply sql_set_enabled_flag.
Qed.

(** [disable] clears the flag as soon as the [rmdir] command could be run,
    or there was nothing to remove. *)
Lemma disable_addon_flag app d w addon_name :
  (snd (disable_addon app d w addon_name) = false ->
   snd (fst (disable_addon app d w addon_name)) = d)
  /\ (snd (disable_addon app d w addon_name) = true ->
      (exists row,
          List.find (i_named_live addon_name) (installed d) = Some row
          /\ (lw_present w (i_path row) = true -> lw_rmdir w (i_path row) <> RunRaised))
      /\ forall r, In r (installed (snd (fst (disable_addon app d w addon_name)))) ->
                   i_named_live addon_name r = true -> i_enabled r = Some 0%Z).
Proof.
  unfold disable_addon. destruct (List.find _ _) as [row|]; [|now split].
  destruct (lw_present w (i_path row)) eqn:Hp.
  - destruct (lw_rmdir w (i_path row)) as [rc|] eqn:Hr; [|now split].
    cbn. split; [discriminate|]. intros _. split.
    + exists row. split; [reflexivity|]. intros _. rewrite Hr. discriminate.
    + apply sql_set_enabled_flag.
  - cbn. split; [discriminate|]. intros _. split.
    + exists row. split; [reflexivity|]. congruence.
    + apply sql_set_enabled_flag.
Qed.

(** C9 as stated does not hold for [disable]: the [rmdir] is run with
    [check=False], so when it exits with status 1 the flag is cleared all
    the same and the handler returns [True]. *)
Lemma disable_flag_despite_rmdir_failure : ~ disable_only_after_success.
Proof.
  intros H.
  specialize (H {| installed_addons := [] |}
                (sample_db [] [sample_installed 1 "Foo" "/wow/Interface/AddOns/Foo" ""])
                world_rmdir_fails "Foo"
                (sample_installed 1 "Foo" "/wow/Interface/AddOns/Foo" "")
                eq_refl eq_refl).
  assert (Hrc : forall rc, lw_rmdir world_rmdir_fails
                             (i_path (sample_installed 1 "Foo" "/wow/Interface/AddOns/Foo" ""))
                           = RunCompleted rc -> rc <> 0%Z).
  { intros rc E. cbn in E. injection E as <-. discriminate. }
  specialize (H Hrc). vm_compute in H. discriminate H.
Qed.

(** [disable] succeeds, and clears the flag of every live record of that
    name, whenever the record is found and the [rmdir] command is not
    needed or could be run. *)
Lemma disable_addon_succeeds app d w addon_name row :
  List.find (i_named_live addon_name) (installed d) = Some row ->
  (lw_present w (i_path row) = false
   \/ exists rc, lw_rmdir w (i_path row) = RunCompleted rc) ->
  disable_addon app d w addon_name
  = (app_set_enabled app addon_name 0,
     set_installed d (sql_set_enabled (installed d) 0 addon_name), true).
Proof.
  intros Hfind H. unfold disable_addon. rewrite Hfind.
  destruct H as [Hp|[rc Hr]].
  - now rewrite Hp.
  - rewrite Hr. now destruct (lw_present w (i_path row)).
Qed.

(** [enable] succeeds, and sets the flag of every live record of that
    name, whenever the record is found, the staging checkout exists, the
    path is free or could be cleared, and [mklink] exits with status 0. *)
Lemma enable_addon_succeeds app d root w addon_name row r :
  List.find (i_named_live addon_name) (installed d) = Some row ->
  root = Some r ->
  lw_exists w (path_join (path_join r ".repos") (basename (i_path row))) = true ->
  (lw_exists w (i_path row) = false
   \/ exists rc, lw_rmdir w (i_path row) = RunCompleted rc) ->
  lw_mklink w (i_path row) (path_join (path_join r ".repos") (basename (i_path row)))
  = RunCompleted 0 ->
  enable_addon app d root w addon_name
  = (app_set_enabled app addon_name 1,
     set_installed d (sql_set_enabled (installed d) 1 addon_name), true).
Proof.
  intros Hfind -> Hrepo H Hmk. unfold enable_addon. rewrite Hfind, Hrepo. cbn [negb].
  destruct H as [Hp|[rc Hr]].
  - now rewrite Hp, Hmk.
  - rewrite Hr, Hmk. now destruct (lw_exists w (i_path row)).
Qed.

(** C9, amended: [enable] and [disable] change no field of any record but
    [enabled] (so version and source URL stay).  [enable] sets the flag
    only after [mklink] has exited with status 0, and leaves the database
    as it was when it fails; it does set it, and returns [True], when the
    record is found, the staging checkout exists, the path is free or
    could be cleared and [mklink] exits with status 0.  [disable] clears
    the flag, and returns [True], whenever the record is found and the
    [rmdir] command could be run, whatever its exit status, or there was
    no path to remove; it leaves the database as it was when it fails.
    After an [enable], a [disable] and an [enable] that all returned
    [True] the link has been made again ([mklink] from the stored path to
    the staging checkout has exited with status 0), every live record of
    that name is enabled and the records differ from those at the start in
    [enabled] at most. *)
Theorem enable_disable_touch_flag_only app d root w addon_name :
  Forall2 same_but_enabled (installed d)
          (installed (snd (fst (disable_addon app d w addon_name))))
  /\ Forall2 same_but_enabled (installed d)
             (installed (snd (fst (enable_addon app d root w addon_name))))
  /\ (snd (enable_addon app d root w addon_name) = false ->
      snd (fst (enable_addon app d root w addon_name)) = d)
  /\ (snd (enable_addon app d root w addon_name) = true ->
      (exists row r,
          List.find (i_named_live addon_name) (installed d) = Some row
          /\ root = Some r
          /\ lw_mklink w (i_path row)
                       (path_join (path_join r ".repos") (basename (i_path row)))
             = RunCompleted 0)
      /\ forall r, In r (installed (snd (fst (enable_addon app d root w addon_name)))) ->
                   i_named_live addon_name r = true -> i_enabled r = Some 1%Z)
  /\ (forall row r,
         List.find (i_named_live addon_name) (installed d) = Some row ->
         root = Some r ->
         lw_exists w (path_join (path_join r ".repos") (basename (i_path row))) = true ->
         (lw_exists w (i_path row) = false
          \/ exists rc, lw_rmdir w (i_path row) = RunCompleted rc) ->
         lw_mklink w (i_path row) (path_join (path_join r ".repos") (basename (i_path row)))
         = RunCompleted 0 ->
         enable_addon app d root w addon_name
         = (app_set_enabled app addon_name 1,
            set_installed d (sql_set_enabled (installed d) 1 addon_name), true))
  /\ (snd (disable_addon app d w addon_name) = false ->
      snd (fst (disable_addon app d w addon_name)) = d)
  /\ (snd (disable_addon app d w addon_name) = true ->
      (exists row,
          List.find (i_named_live addon_name) (installed d) = Some row
          /\ (lw_present w (i_path row) = true -> lw_rmdir w (i_path row) <> RunRaised))
      /\ forall r, In r (installed (snd (fst (disable_addon app d w addon_name)))) ->
                   i_named_live addon_name r = true -> i_enabled r = Some 0%Z)
  /\ (forall row,
         List.find (i_named_live addon_name) (installed d) = Some row ->
         (lw_present w (i_path row) = false
          \/ exists rc, lw_rmdir w (i_path row) = RunCompleted rc) ->
         disable_addon app d w addon_name
         = (app_set_enabled app addon_name 0,
            set_installed d (sql_set_enabled (installed d) 0 addon_name), true))
  /\ (forall w2 w3,
         let s1 := enable_addon app d root w addon_name in
         let s2 := disable_addon (fst (fst s1)) (snd (fst s1)) w2 addon_name in
         let s3 := enable_addon (fst (fst s2)) (snd (fst s2)) root w3 addon_name in
         snd s1 = true -> snd s2 = true -> snd s3 = true ->
         Forall2 same_but_enabled (installed d) (installed (snd (fst s3)))
         /\ (forall r, In r (installed (snd (fst s3))) ->
                       i_named_live addon_name r = true -> i_enabled r = Some 1%Z)
         /\ exists row r,
             List.find (i_named_live addon_name) (installed (snd (fst s2))) = Some row
             /\ root = Some r
             /\ lw_mklink w3 (i_path row)
                          (path_join (path_join r ".repos") (basename (i_path row)))
                = RunCompleted 0).
Proof.
  split; [apply disable_addon_frame|].
  split; [apply enable_addon_frame|].
  split; [apply enable_addon_after_link|].
  split; [apply enable_addon_after_link|].
  split; [intros row r; apply enable_addon_succeeds|].
  split; [apply disable_addon_flag|].
  split; [apply disable_addon_flag|].
  split; [intros row; apply disable_addon_succeeds|].
  intros w2 w3 s1 s2 s3 _ _ H3. split; [|split].
  - eapply Forall2_same_but_enabled_trans; [apply enable_addon_frame|].
    eapply Forall2_same_but_enabled_trans; [apply disable_addon_frame|].
    apply enable_addon_frame.
  - exact (proj2 (proj2 (enable_addon_after_link _ _ _ _ _) H3)).
  - exact (proj1 (proj2 (enable_addon_after_link _ _ _ _ _) H3)).
Qed.

Lemma enable_disable_touch_flag_only_witness :
  let app := {| installed_addons := [] |} in
  let d := sample_db [] [sample_installed 1 "Foo" "/wow/Interface/AddOns/Foo" ""] in
  let s1 := enable_addon app d (Some sample_root) world_links_ok "Foo" in
  let s2 := disable_addon (fst (fst s1)) (snd (fst s1)) world_links_ok "Foo" in
  let s3 := enable_addon (fst (fst s2)) (snd (fst s2)) (Some sample_root) world_links_ok "Foo" in
  snd s3 = true /\ Forall2 same_but_enabled (installed d) (installed (snd (fst s3))).
Proof.
  intros app d s1 s2 s3. split; [reflexivity|].
  pose proof (enable_disable_touch_flag_only app d (Some sample_root) world_links_ok "Foo") as H.
  destruct H as (_ & _ & _ & _ & _ & _ & _ & _ & H).
  exact (proj1 (H world_links_ok world_links_ok eq_refl eq_refl eq_refl)).
Defined.

(** ** Dictionaries *)

Lemma fold_left_invariant {A B : Type} (f : A -> B -> A) (P : A -> Prop) (l : list B) :
  forall a, P a -> (forall a b, In b l -> P a -> P (f a b)) -> P (fold_left f l a).
Proof.
  induction l as [|b l IH]; intros a Ha Hstep; [exact Ha|].
  cbn. apply IH.
  - apply Hstep; [now left | exact Ha].
  - intros a' b' Hb'. apply Hstep. now right.
Qed.

Lemma find_app {A : Type} (p : A -> bool) (l1 l2 : list A) :
  List.find p (l1 ++ l2)
  = match List.find p l1 with
    | Some x => Some x
    | None => List.find p l2
    end.
Proof. induction l1 as [|x l1 IH]; [reflexivity|]. cbn. now destruct (p x). Qed.

Lemma pydict_get_set {V : Type} (d : PyDict.t V) k v k' :
  PyDict.get (PyDict.set d k v) k' = if String.eqb k k' then Some v else PyDict.get d k'.
Proof.
  induction d as [|[k0 v0] d IH]; cbn.
  - reflexivity.
  - destruct (String.eqb k0 k) eqn:E.
    + apply String.eqb_eq in E. subst k0. cbn. now destruct (String.eqb k k').
    + cbn. destruct (String.eqb k0 k') eqn:E'; [|exact IH].
      apply String.eqb_eq in E'. subst k0. rewrite String.eqb_sym in E. now rewrite E.
Qed.

Lemma pydict_in_set {V : Type} (d : PyDict.t V) k v kv :
  In kv (PyDict.set d k v) -> kv = (k, v) \/ In kv d.
Proof.
  induction d as [|[k0 v0] d IH]; cbn.
  - intros [<-|[]]. now left.
  - destruct (String.eqb k0 k) eqn:E.
    + apply String.eqb_eq in E. subst k0. intros [<-|H]; [now left | right; now right].
    + intros [<-|H]; [right; now left|]. destruct (IH H); [now left | right; now right].
Qed.

Lemma pydict_get_in {V : Type} (d : PyDict.t V) k v :
  PyDict.get d k = Some v -> In (k, v) d.
Proof.
  induction d as [|[k0 v0] d IH]; cbn; [discriminate|].
  destruct (String.eqb k0 k) eqn:E.
  - apply String.eqb_eq in E. subst k0. intros [= <-]. now left.
  - intros H. right. now apply IH.
Qed.

Lemma pydict_in_mem {V : Type} (d : PyDict.t V) k v :
  In (k, v) d -> PyDict.mem d k = true.
Proof.
  unfold PyDict.mem. induction d as [|[k0 v0] d IH]; cbn; [intros []|].
  intros [[= -> ->]|H].
  - now rewrite String.eqb_refl.
  - destruct (String.eqb k0 k); [reflexivity | now apply IH].
Qed.

Lemma pydict_set_fresh {V : Type} (d : PyDict.t V) k v :
  PyDict.get d k = None -> PyDict.set d k v = d ++ [(k, v)].
Proof.
  induction d as [|[k0 v0] d IH]; cbn; [reflexivity|].
  destruct (String.eqb k0 k); [discriminate|]. intros H. now rewrite IH.
Qed.

(** ** The dictionary of installed add-ons *)

Lemma get_installed_addons_unfold self :
  get_installed_addons self
  = fold_left installed_dict_step (List.filter i_live (installed (db self))) [].
Proof. reflexivity. Qed.

Lemma installed_dict_get rows :
  forall d k,
    PyDict.get (fold_left installed_dict_step rows d) k
    = match List.find (fun r => String.eqb (installed_key r) k) (rev rows) with
      | Some r => Some (info_of_row r)
      | None => PyDict.get d k
      end.
Proof.
  induction rows as [|r rows IH]; intros d k; [reflexivity|].
  cbn [fold_left rev]. rewrite IH, find_app. cbn [List.find].
  destruct (List.find _ (rev rows)); [reflexivity|].
  unfold installed_dict_step at 1. rewrite pydict_get_set. unfold installed_key.
  now destruct (String.eqb _ k).
Qed.

Lemma installed_dict_entries rows :
  forall d kv,
    In kv (fold_left installed_dict_step rows d) ->
    In kv d \/ exists r, In r rows /\ kv = (installed_key r, info_of_row r).
Proof.
  induction rows as [|r rows IH]; intros d kv H; [now left|].
  cbn [fold_left] in H. apply IH in H as [H|(r' & Hr' & ->)].
  - apply pydict_in_set in H as [->|H]; [|now left].
    right. exists r. split; [now left | reflexivity].
  - right. exists r'. split; [now right | reflexivity].
Qed.

(** Every entry of the dictionary comes from a live record. *)
Lemma get_installed_addons_entry self k info :
  In (k, info) (get_installed_addons self) ->
  exists r, In r (installed (db self)) /\ i_live r = true
            /\ k = installed_key r /\ info = info_of_row r.
Proof.
  rewrite get_installed_addons_unfold. intros H.
  apply installed_dict_entries in H as [[]|(r & Hr & [= -> ->])].
  apply filter_In in Hr as [Hr Hl]. now exists r.
Qed.

(** A key is in the dictionary exactly when a live record has it. *)
Lemma get_installed_addons_mem self k :
  PyDict.mem (get_installed_addons self) k = true
  <-> exists r, In r (installed (db self)) /\ i_live r = true /\ installed_key r = k.
Proof.
  split.
  - unfold PyDict.mem. destruct (PyDict.get _ k) as [info|] eqn:E; [|discriminate].
    intros _. apply pydict_get_in, get_installed_addons_entry in E.
    destruct E as (r & Hr & Hl & -> & _). now exists r.
  - intros (r & Hr & Hl & Hk). unfold PyDict.mem.
    rewrite get_installed_addons_unfold, installed_dict_get.
    destruct (List.find _ _) eqn:E; [reflexivity|]. exfalso.
    eapply find_none in E.
    + rewrite Hk, String.eqb_refl in E. discriminate E.
    + rewrite <- in_rev. apply filter_In. now split.
Qed.

Lemma NoDup_map_find {A : Type} (f : A -> string) (l : list A) (x : A) :
  List.NoDup (List.map f l) -> In x l ->
  List.find (fun y => String.eqb (f y) (f x)) l = Some x.
Proof.
  induction l as [|y l IH]; intros Hnd Hin; [destruct Hin|].
  cbn in Hnd. apply List.NoDup_cons_iff in Hnd as [Hy Hnd]. cbn [List.find].
  destruct Hin as [->|Hin].
  - now rewrite String.eqb_refl.
  - destruct (String.eqb (f y) (f x)) eqn:E; [|now apply IH].
    apply String.eqb_eq in E. exfalso. apply Hy. rewrite E. now apply in_map.
Qed.

(** With one live record per key, the dictionary holds every live record. *)
Lemma get_installed_addons_unique self r :
  List.NoDup (List.map installed_key (List.filter i_live (installed (db self)))) ->
  In r (installed (db self)) -> i_live r = true ->
  In (installed_key r, info_of_row r) (get_installed_addons self).
Proof.
  intros Hnd Hr Hl. apply pydict_get_in.
  rewrite get_installed_addons_unfold, installed_dict_get.
  rewrite (NoDup_map_find installed_key).
  - reflexivity.
  - rewrite map_rev. apply List.NoDup_rev. exact Hnd.
  - rewrite <- in_rev. apply filter_In. now split.
Qed.

(** ** The URL cache *)

Lemma cache_lookup rows :
  forall (cache : gmap string string) key,
    fold_left cache_add rows cache !! key
    = match List.find (cache_hit key) (rev rows) with
      | Some r => Some (a_name r)
      | None => cache !! key
      end.
Proof.
  induction rows as [|r rows IH]; intros cache key; [reflexivity|].
  cbn [fold_left rev]. rewrite IH, find_app. cbn [List.find].
  destruct (List.find _ (rev rows)); [reflexivity|].
  unfold cache_add, cache_hit. destruct (a_repo_url r) as [u|]; [|reflexivity].
  destruct (PyStr.truthy u); cbn [andb]; [|reflexivity].
  destruct (String.eqb (_normalize_repo_url u) key) eqn:E.
  - apply String.eqb_eq in E. subst key. apply lookup_insert_eq.
  - apply String.eqb_neq in E. now apply lookup_insert_ne.
Qed.

(** The cache maps the key of a primary URL of a live catalog row to the
    name of a live catalog row that has a primary URL with this key. *)
Lemma cache_finds_primary_url d r cu :
  In r (addons d) -> a_live r = true -> a_repo_url r = Some cu -> PyStr.truthy cu = true ->
  exists r' cu',
    In r' (addons d) /\ a_live r' = true /\ a_repo_url r' = Some cu'
    /\ _normalize_repo_url cu' = _normalize_repo_url cu
    /\ _build_repo_cache d ∅ !! _normalize_repo_url cu = Some (a_name r').
Proof.
  intros Hr Hl Hu Ht. unfold _build_repo_cache. rewrite cache_lookup.
  assert (Hsel : In r (rev (List.filter cache_selected (addons d)))).
  { rewrite <- in_rev. apply filter_In. split; [exact Hr|].
    unfold cache_selected. rewrite Hu, Hl. destruct cu; [discriminate | reflexivity]. }
  destruct (List.find _ _) as [r'|] eqn:E.
  - apply find_some in E as [Hin Hhit]. rewrite <- in_rev in Hin.
    apply filter_In in Hin as [Hin Hsel']. unfold cache_hit in Hhit.
    unfold cache_selected in Hsel'.
    destruct (a_repo_url r') as [cu'|] eqn:Hu'; [|discriminate].
    apply andb_prop in Hhit as [_ Hk]. apply String.eqb_eq in Hk.
    apply andb_prop in Hsel' as [_ Hl'].
    now exists r', cu'.
  - exfalso. eapply find_none in E; [|exact Hsel].
    unfold cache_hit in E. now rewrite Hu, Ht, String.eqb_refl in E.
Qed.

(** Override URLs are not in the cache: only [repo_url] feeds it. *)
Lemma cache_keys_are_primary_urls d key name :
  _build_repo_cache d ∅ !! key = Some name ->
  exists r cu, In r (addons d) /\ a_live r = true /\ a_repo_url r = Some cu
               /\ _normalize_repo_url cu = key /\ a_name r = name.
Proof.
  unfold _build_repo_cache. rewrite cache_lookup.
  destruct (List.find _ _) as [r|] eqn:E; [|now rewrite lookup_empty].
  intros [= <-]. apply find_some in E as [Hin Hhit]. rewrite <- in_rev in Hin.
  apply filter_In in Hin as [Hin Hsel]. unfold cache_hit in Hhit.
  unfold cache_selected in Hsel. destruct (a_repo_url r) as [cu|] eqn:Hu; [|discriminate].
  apply andb_prop in Hhit as [_ Hk]. apply String.eqb_eq in Hk.
  apply andb_prop in Hsel as [_ Hl]. now exists r, cu.
Qed.

(** ** The scanner *)

Lemma scan_item_eq self root addon_info item :
  scan_item self root addon_info item
  = if item_is_addon item
    then if item_matched self item
         then Returned (PyDict.set addon_info (item_name item) (item_info self root item))
         else Raised
    else Returned addon_info.
Proof.
  unfold scan_item, item_is_addon, item_matched, item_info, item_match, _match_by_folder_name.
  destruct (item_is_dir item); [|reflexivity].
  destruct (item_has_toc item); [|reflexivity]. cbn [andb].
  destruct (item_git_url item) as [u|]; [|reflexivity].
  destruct (PyStr.truthy u); [|reflexivity].
  destruct (_repo_to_addon_cache self !! _normalize_repo_url u) as [n|]; [|reflexivity].
  cbn [PyStr.otruthy]. now destruct (PyStr.truthy n).
Qed.

Lemma scan_items_eq self root items :
  forall addon_info,
    scan_items self root items addon_info
    = if forallb (fun item => negb (item_is_addon item) || item_matched self item) items
      then Returned (fold_left (scan_step self root) items addon_info)
      else Raised.
Proof.
  induction items as [|item items IH]; intros addon_info; [reflexivity|].
  cbn [scan_items forallb fold_left]. rewrite scan_item_eq. unfold scan_step at 2.
  destruct (item_is_addon item); cbn [negb orb]; [|apply IH].
  destruct (item_matched self item); cbn [andb]; [apply IH | reflexivity].
Qed.

(** The scanner returns exactly when every directory with a manifest is
    matched by its git URL; it raises otherwise. *)
Lemma scan_addon_directory_eq self fs :
  scan_addon_directory self fs
  = if scan_returns self fs then Returned (scanned self fs) else Raised.
Proof.
  unfold scan_addon_directory, scan_returns, scanned.
  destruct (addon_path self) as [root|]; [|reflexivity].
  destruct (negb (fs_exists fs root)); [reflexivity|]. apply scan_items_eq.
Qed.

Lemma scan_addon_directory_returned self fs disk_addons :
  scan_addon_directory self fs = Returned disk_addons ->
  scan_returns self fs = true /\ disk_addons = scanned self fs.
Proof.
  rewrite scan_addon_directory_eq. destruct (scan_returns self fs); [|discriminate].
  intros [= <-]. now split.
Qed.

Lemma scan_entries self root items :
  forall d kv,
    In kv (fold_left (scan_step self root) items d) ->
    In kv d \/ exists item, In item items /\ item_is_addon item = true
                            /\ kv = (item_name item, item_info self root item).
Proof.
  induction items as [|item items IH]; intros d kv H; [now left|].
  cbn [fold_left] in H. apply IH in H as [H|(item' & Hin & Hq & ->)].
  - unfold scan_step in H. destruct (item_is_addon item) eqn:Hq; [|now left].
    apply pydict_in_set in H as [->|H]; [|now left].
    right. exists item. repeat split; [now left | exact Hq].
  - right. exists item'. repeat split; [now right | exact Hq].
Qed.

(** Every folder reported by the scanner is a directory of the add-on
    root that holds a manifest. *)
Lemma scanned_entry self fs kv :
  In kv (scanned self fs) ->
  exists root item,
    addon_path self = Some root /\ fs_exists fs root = true
    /\ In item (fs_iterdir fs) /\ item_is_addon item = true
    /\ kv = (item_name item, item_info self root item).
Proof.
  unfold scanned. destruct (addon_path self) as [root|]; [|intros []].
  destruct (fs_exists fs root) eqn:Hex; cbn [negb]; [|intros []].
  intros H. apply scan_entries in H as [[]|(item & Hin & Hq & ->)].
  now exists root, item.
Qed.

Lemma scan_get self root items :
  forall d k,
    PyDict.get (fold_left (scan_step self root) items d) k
    = match List.find (fun item => item_is_addon item && String.eqb (item_name item) k)
                      (rev items) with
      | Some item => Some (item_info self root item)
      | None => PyDict.get d k
      end.
Proof.
  induction items as [|item items IH]; intros d k; [reflexivity|].
  cbn [fold_left rev]. rewrite IH, find_app. cbn [List.find].
  destruct (List.find _ (rev items)); [reflexivity|].
  unfold scan_step. destruct (item_is_addon item); cbn [andb]; [|reflexivity].
  rewrite pydict_get_set. now destruct (String.eqb _ k).
Qed.

Lemma NoDup_map_find_such {A : Type} (f : A -> string) (p : A -> bool) (l : list A) (x : A) :
  List.NoDup (List.map f l) -> In x l -> p x = true ->
  List.find (fun y => p y && String.eqb (f y) (f x)) l = Some x.
Proof.
  induction l as [|y l IH]; intros Hnd Hin Hp; [destruct Hin|].
  cbn in Hnd. apply List.NoDup_cons_iff in Hnd as [Hy Hnd]. cbn [List.find].
  destruct Hin as [->|Hin].
  - now rewrite Hp, String.eqb_refl.
  - destruct (String.eqb (f y) (f x)) eqn:E.
    + apply String.eqb_eq in E. exfalso. apply Hy. rewrite E. now apply in_map.
    + rewrite andb_false_r. now apply IH.
Qed.

(** In a listing without repeated names the scanner stores, for every
    add-on folder, the value computed for that folder. *)
Lemma scanned_get self fs root item :
  addon_path self = Some root -> fs_exists fs root = true ->
  List.NoDup (List.map item_name (fs_iterdir fs)) ->
  In item (fs_iterdir fs) -> item_is_addon item = true ->
  PyDict.get (scanned self fs) (item_name item) = Some (item_info self root item).
Proof.
  intros Hroot Hex Hnd Hin Hq. unfold scanned. rewrite Hroot, Hex. cbn [negb].
  rewrite scan_get, (NoDup_map_find_such item_name item_is_addon).
  - reflexivity.
  - rewrite map_rev. now apply List.NoDup_rev.
  - now rewrite <- in_rev.
  - exact Hq.
Qed.

(** ** The two loops of the reconciliation *)

Lemma sync_installed_state_unfold self fs now root :
  addon_path self = Some root -> scan_returns self fs = true ->
  sync_installed_state self fs now
  = let db_installed := get_installed_addons self in
    let found := fold_left (sync_disk_step db_installed now) (scanned self fs)
                           (installed (db self), 0%nat) in
    let gone := fold_left (sync_removed_step fs now) db_installed (fst found, 0%nat) in
    (with_db self (set_installed (db self) (fst gone)), Returned (snd found, snd gone)).
Proof.
  intros Hroot Hscan. unfold sync_installed_state.
  rewrite Hroot, scan_addon_directory_eq, Hscan. cbn zeta.
  destruct (fold_left (sync_disk_step _ _) _ _) as [t newly_found].
  destruct (fold_left (sync_removed_step _ _) _ _) as [t' removed]. reflexivity.
Qed.

(** The reconciliation raises, before it has written anything, when the
    scanner does. *)
Lemma sync_installed_state_raises self fs now root :
  addon_path self = Some root -> scan_returns self fs = false ->
  sync_installed_state self fs now = (self, Raised).
Proof.
  intros Hroot Hscan. unfold sync_installed_state.
  now rewrite Hroot, scan_addon_directory_eq, Hscan.
Qed.

Lemma sync_installed_state_returned self fs now root result :
  addon_path self = Some root ->
  snd (sync_installed_state self fs now) = Returned result ->
  scan_returns self fs = true.
Proof.
  intros Hroot H. destruct (scan_returns self fs) eqn:E; [reflexivity|].
  rewrite (sync_installed_state_raises _ _ _ _ Hroot E) in H. discriminate.
Qed.

Lemma i_named_live_name name r : i_named_live name r = true -> i_name r = name.
Proof.
  unfold i_named_live. intros H. apply andb_prop in H as [H _]. now apply String.eqb_eq.
Qed.

Lemma i_named_live_other name r : i_name r <> name -> i_named_live name r = false.
Proof.
  unfold i_named_live. intros H. apply String.eqb_neq in H. now rewrite H.
Qed.

(** No folder is counted as new when every scanned key is in the snapshot. *)
Lemma disk_loop_count db_installed now disk_addons t n :
  (forall kv, In kv disk_addons -> PyDict.mem db_installed (resolved_key kv) = true) ->
  snd (fold_left (sync_disk_step db_installed now) disk_addons (t, n)) = n.
Proof.
  intros Hall.
  apply (fold_left_invariant _ (fun acc => snd acc = n)); [reflexivity|].
  intros [t' n'] kv Hin Hn. cbn in Hn. subst n'. unfold sync_disk_step.
  specialize (Hall kv Hin). unfold resolved_key in Hall. rewrite Hall. cbn [negb].
  now destruct (_ && _).
Qed.

Lemma disk_loop_origin db_installed now disk_addons t0 n :
  forall r', In r' (fst (fold_left (sync_disk_step db_installed now) disk_addons (t0, n))) ->
             i_live r' = true -> disk_origin t0 disk_addons db_installed r'.
Proof.
  apply (fold_left_invariant _
           (fun acc => forall r', In r' (fst acc) -> i_live r' = true ->
                                  disk_origin t0 disk_addons db_installed r')).
  - cbn. intros r' Hin Hl. left. exists r'. repeat split; try assumption. now left.
  - intros [t n'] kv Hkv IH r'. unfold sync_disk_step.
    destruct (PyDict.mem db_installed _) eqn:Hmem; cbn [negb].
    + destruct (_ && _); [|apply IH]. cbn [fst]. unfold sql_update_path_source.
      rewrite in_map_iff. intros (r0 & <- & Hr0).
      destruct (i_named_live (resolved_name kv) r0) eqn:Hnamed; [|now apply IH].
      cbn. intros Hl. destruct (IH r0 Hr0 Hl) as [(r & Hr & Hlr & Hn & _)|(kv0 & _ & _ & _ & Hno)].
      * left. exists r. repeat split; try assumption. right. now exists kv.
      * apply i_named_live_name in Hnamed. rewrite Hnamed, Hmem in Hno. discriminate.
    + cbn [fst]. unfold sql_insert_installed. rewrite in_app_iff.
      intros [Hin|[<-|[]]]; [now apply IH|]. intros _. right. exists kv. cbn.
      repeat split; [exact Hkv | exact Hmem].
Qed.

Lemma disk_loop_keeps db_installed now disk_addons t0 n r :
  In r t0 -> i_live r = true ->
  exists r', In r' (fst (fold_left (sync_disk_step db_installed now) disk_addons (t0, n)))
             /\ i_live r' = true /\ i_name r' = i_name r.
Proof.
  intros Hr Hl.
  apply (fold_left_invariant _
           (fun acc => exists r', In r' (fst acc) /\ i_live r' = true /\ i_name r' = i_name r)).
  - now exists r.
  - intros [t n'] kv _ (r' & Hin & Hl' & Hn). unfold sync_disk_step.
    destruct (PyDict.mem db_installed _); cbn [negb].
    + destruct (_ && _); [|now exists r']. cbn [fst].
      exists (if i_named_live (resolved_name kv) r'
              then i_set_path_source r' (path (snd kv)) (or_default (git_url (snd kv)) "")
              else r').
      split.
      * unfold sql_update_path_source. rewrite in_map_iff. now exists r'.
      * now destruct (i_named_live _ r').
    + exists r'. cbn [fst]. unfold sql_insert_installed. rewrite in_app_iff. now repeat split; [left|..].
Qed.

Lemma disk_loop_creates db_installed now disk_addons t0 n kv :
  In kv disk_addons -> PyDict.mem db_installed (resolved_key kv) = false ->
  exists rec,
    In rec (fst (fold_left (sync_disk_step db_installed now) disk_addons (t0, n)))
    /\ i_live rec = true /\ i_name rec = resolved_name kv
    /\ i_version rec = "unknown" /\ i_path rec = path (snd kv)
    /\ i_source_repo_url rec = or_default (git_url (snd kv)) "".
Proof.
  intros Hkv Hmem. apply in_split in Hkv as (s1 & s2 & ->).
  rewrite fold_left_app. cbn [fold_left].
  destruct (fold_left _ s1 (t0, n)) as [t1 n1].
  unfold sync_disk_step at 2. unfold resolved_key in Hmem. rewrite Hmem. cbn [negb].
  set (rec := {| i_id := next_id i_id t1; i_name := resolved_name kv;
                 i_version := "unknown"; i_path := path (snd kv);
                 i_installed_at_utc := now; i_last_update_utc := None;
                 i_enabled := Some 1%Z;
                 i_source_repo_url := or_default (git_url (snd kv)) "";
                 i_deleted_at_utc := None |}).
  exists rec. split; [|now repeat split].
  apply (fold_left_invariant _ (fun acc => In rec (fst acc))).
  - cbn [fst]. unfold sql_insert_installed. rewrite in_app_iff. right. now left.
  - intros [t n'] kv' _ Hin. cbn [fst] in Hin. unfold sync_disk_step.
    destruct (PyDict.mem db_installed (PyStr.lower (resolved_name kv'))) eqn:Hmem'; cbn [negb].
    + destruct (_ && _); [|exact Hin]. cbn [fst]. unfold sql_update_path_source.
      rewrite in_map_iff. exists rec. split; [|exact Hin].
      rewrite i_named_live_other; [reflexivity|]. cbn. intros E.
      rewrite E, Hmem' in Hmem. discriminate.
    + cbn [fst]. unfold sql_insert_installed. rewrite in_app_iff. now left.
Qed.

(** No record is counted as removed when every path of the snapshot exists. *)
Lemma removed_loop_count fs now db_installed t n :
  (forall kv, In kv db_installed -> fs_exists fs (info_path (snd kv)) = true) ->
  snd (fold_left (sync_removed_step fs now) db_installed (t, n)) = n.
Proof.
  intros Hall.
  apply (fold_left_invariant _ (fun acc => snd acc = n)); [reflexivity|].
  intros [t' n'] kv Hin Hn. cbn in Hn. subst n'. unfold sync_removed_step.
  now rewrite (Hall kv Hin).
Qed.

Lemma sql_soft_delete_live t now name r :
  In r (sql_soft_delete t now name) -> i_live r = true -> In r t.
Proof.
  unfold sql_soft_delete. rewrite in_map_iff. intros (r0 & <- & Hr0).
  destruct (i_named_live name r0); [discriminate | now intros _].
Qed.

Lemma removed_loop_live fs now db_installed t n r :
  In r (fst (fold_left (sync_removed_step fs now) db_installed (t, n))) ->
  i_live r = true -> In r t.
Proof.
  revert r.
  apply (fold_left_invariant _
           (fun acc => forall r, In r (fst acc) -> i_live r = true -> In r t)).
  - now cbn.
  - intros [t' n'] kv _ IH r. unfold sync_removed_step.
    destruct (negb _); [|apply IH]. cbn [fst]. intros Hin Hl.
    apply IH; [|exact Hl]. now apply sql_soft_delete_live in Hin.
Qed.

Lemma removed_loop_deletes fs now db_installed t n e r :
  In e db_installed -> fs_exists fs (info_path (snd e)) = false ->
  In r (fst (fold_left (sync_removed_step fs now) db_installed (t, n))) ->
  i_live r = true -> i_name r <> info_name (snd e).
Proof.
  intros He Hmiss. apply in_split in He as (d1 & d2 & ->).
  rewrite fold_left_app. cbn [fold_left].
  destruct (fold_left _ d1 (t, n)) as [t1 n1].
  unfold sync_removed_step at 2. rewrite Hmiss. cbn [negb].
  intros Hin Hl Hname. apply removed_loop_live in Hin; [|exact Hl].
  apply sql_soft_delete_named in Hin; [|exact Hname]. rewrite Hin in Hl. discriminate.
Qed.

Lemma removed_loop_survives fs now db_installed t n r :
  In r t ->
  (forall e, In e db_installed -> fs_exists fs (info_path (snd e)) = false ->
             info_name (snd e) <> i_name r) ->
  In r (fst (fold_left (sync_removed_step fs now) db_installed (t, n))).
Proof.
  intros Hr Hother.
  apply (fold_left_invariant _ (fun acc => In r (fst acc))); [exact Hr|].
  intros [t' n'] e He Hin. cbn [fst] in Hin. unfold sync_removed_step.
  destruct (fs_exists fs (info_path (snd e))) eqn:Hex; cbn [negb]; [exact Hin|].
  cbn [fst]. unfold sql_soft_delete. rewrite in_map_iff. exists r. split; [|exact Hin].
  rewrite i_named_live_other; [reflexivity|]. intros E. now apply (Hother e He Hex).
Qed.

(** ** Reconciling twice *)

Lemma scanned_same_catalog self fs t :
  scanned (with_db self (set_installed (db self) t)) fs = scanned self fs.
Proof. reflexivity. Qed.

Lemma scan_returns_same_catalog self fs t :
  scan_returns (with_db self (set_installed (db self) t)) fs = scan_returns self fs.
Proof. reflexivity. Qed.

Lemma scan_path_exists self fs kv :
  fs_consistent self fs -> In kv (scanned self fs) ->
  fs_exists fs (path (snd kv)) = true.
Proof.
  intros Hfs Hkv.
  apply scanned_entry in Hkv as (root & item & Hroot & _ & Hin & Hq & ->).
  cbn. apply (Hfs root item Hroot Hin).
  unfold item_is_addon in Hq. now apply andb_prop in Hq as [Hq _].
Qed.

Lemma NoDup_map_eq {A : Type} (f : A -> string) (l : list A) (x y : A) :
  List.NoDup (List.map f l) -> In x l -> In y l -> f x = f y -> x = y.
Proof.
  intros Hnd Hx Hy E.
  pose proof (NoDup_map_find f l x Hnd Hx) as Fx.
  pose proof (NoDup_map_find f l y Hnd Hy) as Fy.
  rewrite E in Fx. rewrite Fx in Fy. now injection Fy.
Qed.

Section FirstSync.

Variable self : AddonInstaller.
Variable fs : filesystem.
Variable now : string.
Variable root : string.

Hypothesis Hroot : addon_path self = Some root.
Hypothesis Hscan : scan_returns self fs = true.
Hypothesis Hfs : fs_consistent self fs.
Hypothesis Hunique :
  List.NoDup (List.map installed_key (List.filter i_live (installed (db self)))).
Hypothesis Hcurrent :
  forall r kv,
    In r (installed (db self)) -> i_live r = true ->
    In kv (scanned self fs) -> installed_key r = resolved_key kv ->
    fs_exists fs (i_path r) = true.

Let after : list installed_row :=
  installed (db (fst (sync_installed_state self fs now))).

Lemma first_sync_table :
  after
  = fst (fold_left (sync_removed_step fs now) (get_installed_addons self)
           (fst (fold_left (sync_disk_step (get_installed_addons self) now)
                           (scanned self fs) (installed (db self), 0%nat)),
            0%nat)).
Proof. unfold after. now rewrite (sync_installed_state_unfold _ _ _ _ Hroot Hscan). Qed.

(** After the first call every live record has a path that exists. *)
Lemma first_sync_paths_exist r :
  In r after -> i_live r = true -> fs_exists fs (i_path r) = true.
Proof.
  rewrite first_sync_table. intros Hin Hl.
  pose proof (removed_loop_live _ _ _ _ _ _ Hin Hl) as Hin1.
  destruct (disk_loop_origin _ _ _ _ _ _ Hin1 Hl)
    as [(r0 & Hr0 & Hl0 & Hn & [Hp|(kv & Hkv & Hp)])|(kv & Hkv & _ & Hp & _)].
  - destruct (fs_exists fs (i_path r)) eqn:Hex; [reflexivity|]. exfalso.
    pose proof (get_installed_addons_unique self r0 Hunique Hr0 Hl0) as He.
    refine (removed_loop_deletes _ _ _ _ _ _ _ He _ Hin Hl _).
    + cbn. now rewrite <- Hp.
    + cbn. now symmetry.
  - rewrite Hp. now apply (scan_path_exists self).
  - rewrite Hp. now apply (scan_path_exists self).
Qed.

(** After the first call every scanned folder has a live record under
    its key. *)
Lemma first_sync_covers_scan kv :
  In kv (scanned self fs) ->
  exists r, In r after /\ i_live r = true /\ installed_key r = resolved_key kv.
Proof.
  intros Hkv. rewrite first_sync_table.
  destruct (PyDict.mem (get_installed_addons self) (resolved_key kv)) eqn:Hmem.
  - apply get_installed_addons_mem in Hmem as (r0 & Hr0 & Hl0 & Hk0).
    destruct (disk_loop_keeps (get_installed_addons self) now
                (scanned self fs) _ 0%nat r0 Hr0 Hl0) as (r1 & Hr1 & Hl1 & Hn1).
    exists r1. split; [|split; [exact Hl1|]].
    + apply removed_loop_survives; [exact Hr1|].
      intros [k info] He Hmiss Hname. cbn in Hmiss, Hname.
      apply get_installed_addons_entry in He as (r2 & Hr2 & Hl2 & -> & ->).
      cbn in Hmiss, Hname.
      assert (r2 = r0) as ->.
      { apply (NoDup_map_eq installed_key _ _ _ Hunique).
        - apply filter_In. now split.
        - apply filter_In. now split.
        - unfold installed_key. now rewrite Hname, Hn1. }
      rewrite (Hcurrent r0 kv Hr0 Hl0 Hkv Hk0) in Hmiss. discriminate.
    + unfold installed_key in *. now rewrite Hn1.
  - destruct (disk_loop_creates (get_installed_addons self) now
                (scanned self fs) (installed (db self)) 0%nat kv Hkv Hmem)
      as (rec & Hrec & Hl & Hn & _).
    exists rec. split; [|split; [exact Hl|]].
    + apply removed_loop_survives; [exact Hrec|].
      intros [k info] He _ Hname. cbn in Hname.
      pose proof He as He'.
      apply get_installed_addons_entry in He' as (r2 & _ & _ & -> & ->).
      apply pydict_in_mem in He. cbn in Hname.
      unfold installed_key, resolved_key in *. rewrite Hname, Hn, Hmem in He. discriminate.
    + unfold installed_key, resolved_key. now rewrite Hn.
Qed.

End FirstSync.

(** C5: reconciling twice over an unchanged filesystem is meant to find
    nothing to do the second time.  The catalog knows [Foo] by its URL, the
    folder [Foo] under the add-on root is a checkout of that URL, and the
    record [Foo] names a path that is gone.  The first call corrects the
    path of the record in its first loop and then, going by the snapshot
    taken before, soft-deletes the record in its second loop: it returns
    [(0, 1)] and leaves no live record.  The second call finds the folder
    anew and returns [(1, 0)]. *)
Theorem second_sync_finds_folder_again :
  let self :=
    new_installer
      (sample_db [sample_addon 1 "Foo" (Some "https://github.com/a/foo") None]
                 [sample_installed 1 "Foo" "/old/AddOns/Foo" ""])
      (Some sample_root) in
  let first := sync_installed_state self fs_only_foo "t1" in
  let second := sync_installed_state (fst first) fs_only_foo "t2" in
  fs_consistent self fs_only_foo
  /\ snd first = Returned (0, 1)%nat
  /\ List.map i_path (installed (db (fst first))) = [path_join sample_root "Foo"]
  /\ List.filter i_live (installed (db (fst first))) = []
  /\ snd second = Returned (1, 0)%nat
  /\ ~ second_sync_is_quiet.
Proof.
  intros self first second.
  assert (Hfs : fs_consistent self fs_only_foo).
  { intros root item [= <-] [<-|[]] _. reflexivity. }
  split; [exact Hfs|]. split; [reflexivity|]. split; [reflexivity|].
  split; [reflexivity|]. split; [reflexivity|].
  intros H. specialize (H self fs_only_foo "t1" "t2" Hfs). vm_compute in H. discriminate H.
Qed.

(** When the scanner returns, the listing and the existence test agree,
    the live records have pairwise distinct case-insensitive names, and no
    live record whose name (case-insensitively) is that of a scanned folder
    points to a path that is gone, both of two calls of
    [sync_installed_state] on an unchanged filesystem return, the second
    one [(0, 0)]. *)
Lemma second_sync_quiet self fs now1 now2 :
  fs_consistent self fs ->
  scan_returns self fs = true ->
  List.NoDup (List.map installed_key (List.filter i_live (installed (db self)))) ->
  (forall r kv,
      In r (installed (db self)) -> i_live r = true ->
      In kv (scanned self fs) -> installed_key r = resolved_key kv ->
      fs_exists fs (i_path r) = true) ->
  (exists counts, snd (sync_installed_state self fs now1) = Returned counts)
  /\ snd (sync_installed_state (fst (sync_installed_state self fs now1)) fs now2)
     = Returned (0, 0)%nat.
Proof.
  intros Hfs Hscan Hunique Hcurrent.
  destruct (addon_path self) as [root|] eqn:Hroot.
  2:{ unfold sync_installed_state at 1 3. rewrite Hroot. cbn [fst snd].
      split; [now eexists|]. unfold sync_installed_state. now rewrite Hroot. }
  pose proof (first_sync_paths_exist self fs now1 root Hroot Hscan Hfs Hunique) as Hpaths.
  pose proof (first_sync_covers_scan self fs now1 root Hroot Hscan Hunique Hcurrent) as Hcover.
  rewrite (sync_installed_state_unfold self fs now1 root Hroot Hscan) in *.
  cbn zeta in *. cbn [fst snd] in *. split; [now eexists|].
  set (t2 := fst (fold_left (sync_removed_step fs now1) _ _)) in *.
  set (self1 := with_db self (set_installed (db self) t2)) in *.
  rewrite (sync_installed_state_unfold self1 fs now2 root) by assumption.
  cbn zeta. cbn [snd]. do 2 f_equal.
  - apply disk_loop_count. intros kv Hkv.
    unfold self1 in Hkv. rewrite scanned_same_catalog in Hkv.
    apply get_installed_addons_mem. apply (Hcover kv Hkv).
  - apply removed_loop_count. intros [k info] He.
    apply get_installed_addons_entry in He as (r & Hr & Hl & -> & ->).
    cbn. now apply Hpaths.
Qed.

(** X27: when the scanner returns, the listing and the existence test
    agree, the live records have pairwise distinct case-insensitive names,
    and no live record whose name (case-insensitively) is the resolved name
    of a scanned folder points to a path that is gone, then two calls of
    [sync_installed_state] in a row on an unchanged filesystem both return,
    and the second one returns [(0, 0)]. *)
Theorem second_sync_quiet_when_records_current self fs now1 now2 disk_addons :
  fs_consistent self fs ->
  scan_addon_directory self fs = Returned disk_addons ->
  List.NoDup (List.map installed_key (List.filter i_live (installed (db self)))) ->
  (forall r kv,
      In r (installed (db self)) -> i_live r = true ->
      In kv disk_addons -> installed_key r = resolved_key kv ->
      fs_exists fs (i_path r) = true) ->
  (exists counts, snd (sync_installed_state self fs now1) = Returned counts)
  /\ snd (sync_installed_state (fst (sync_installed_state self fs now1)) fs now2)
     = Returned (0, 0)%nat.
Proof.
  intros Hfs Hscan Hunique Hcurrent.
  apply scan_addon_directory_returned in Hscan as [Hscan ->].
  now apply second_sync_quiet.
Qed.

Lemma second_sync_quiet_when_records_current_witness :
  snd (sync_installed_state
         (fst (sync_installed_state
                 (new_installer
                    (sample_db
                       [sample_addon 1 "Foo" (Some "https://github.com/a/foo") None]
                       [sample_installed 1 "Bar" "/wow/Interface/AddOns/Bar" ""])
                    (Some sample_root))
                 fs_only_foo "t1"))
         fs_only_foo "t2")
  = Returned (0, 0)%nat.
Proof.
  refine (proj2 (second_sync_quiet_when_records_current
                   (new_installer
                      (sample_db
                         [sample_addon 1 "Foo" (Some "https://github.com/a/foo") None]
                         [sample_installed 1 "Bar" "/wow/Interface/AddOns/Bar" ""])
                      (Some sample_root))
                   fs_only_foo "t1" "t2" _ _ eq_refl _ _)).
  - intros root item [= <-] [<-|[]] _. reflexivity.
  - repeat constructor. intros [].
  - intros r kv [<-|[]] _ [<-|[]] H. vm_compute in H. discriminate H.
Defined.

(** ** Identity of a folder matched by its URL *)

Lemma pydict_set_keys {V : Type} (d : PyDict.t V) k v :
  PyDict.keys (PyDict.set d k v)
  = if PyDict.mem d k then PyDict.keys d else PyDict.keys d ++ [k].
Proof.
  unfold PyDict.mem, PyDict.keys. induction d as [|[k0 v0] d IH]; cbn; [reflexivity|].
  destruct (String.eqb k0 k); cbn; [reflexivity|]. rewrite IH.
  now destruct (PyDict.get d k).
Qed.

Lemma pydict_mem_keys {V : Type} (d : PyDict.t V) k :
  PyDict.mem d k = false -> ~ In k (PyDict.keys d).
Proof.
  unfold PyDict.mem, PyDict.keys. induction d as [|[k0 v0] d IH]; cbn; [tauto|].
  destruct (String.eqb k0 k) eqn:E; [discriminate|].
  apply String.eqb_neq in E. intros H [F|F]; [contradiction | now apply IH].
Qed.

Lemma pydict_set_nodup {V : Type} (d : PyDict.t V) k v :
  List.NoDup (PyDict.keys d) -> List.NoDup (PyDict.keys (PyDict.set d k v)).
Proof.
  intros H. rewrite pydict_set_keys. destruct (PyDict.mem d k) eqn:E; [exact H|].
  apply List.NoDup_app.
  - exact H.
  - repeat constructor. intros [].
  - intros x Hx [<-|[]]. now apply (pydict_mem_keys d k).
Qed.

Lemma pydict_nodup_get {V : Type} (d : PyDict.t V) k v :
  List.NoDup (PyDict.keys d) -> In (k, v) d -> PyDict.get d k = Some v.
Proof.
  unfold PyDict.keys. induction d as [|[k0 v0] d IH]; cbn; [tauto|].
  intros Hnd. apply List.NoDup_cons_iff in Hnd as [Hk0 Hnd]. intros [[= -> ->]|Hin].
  - now rewrite String.eqb_refl.
  - destruct (String.eqb k0 k) eqn:E; [|now apply IH].
    apply String.eqb_eq in E. subst k0. exfalso. apply Hk0.
    now apply (in_map fst) in Hin.
Qed.

Lemma get_installed_addons_nodup self :
  List.NoDup (PyDict.keys (get_installed_addons self)).
Proof.
  rewrite get_installed_addons_unfold.
  apply (fold_left_invariant _ (fun d => List.NoDup (PyDict.keys d))).
  - constructor.
  - intros d r _ H. now apply pydict_set_nodup.
Qed.

(** A record whose snapshot path exists is still there, live, after the
    reconciliation. *)
Lemma sync_keeps_current_record self fs now root k info :
  addon_path self = Some root -> scan_returns self fs = true ->
  PyDict.get (get_installed_addons self) k = Some info ->
  fs_exists fs (info_path info) = true ->
  exists rec,
    In rec (installed (db (fst (sync_installed_state self fs now))))
    /\ i_live rec = true /\ installed_key rec = k.
Proof.
  intros Hroot Hscan Hget Hex. rewrite (sync_installed_state_unfold _ _ _ _ Hroot Hscan). cbn.
  pose proof (pydict_get_in _ _ _ Hget) as He.
  apply get_installed_addons_entry in He as (r0 & Hr0 & Hl0 & -> & ->).
  destruct (disk_loop_keeps (get_installed_addons self) now
              (scanned self fs) _ 0%nat r0 Hr0 Hl0) as (r1 & Hr1 & Hl1 & Hn1).
  exists r1. split; [|split; [exact Hl1|]].
  - apply removed_loop_survives; [exact Hr1|].
    intros [k' info'] He' Hmiss Hname. cbn [snd] in Hmiss, Hname.
    pose proof He' as He''.
    apply get_installed_addons_entry in He'' as (r2 & _ & _ & Hk' & Hinfo').
    assert (Hk : k' = installed_key r0).
    { rewrite Hk'. unfold installed_key. rewrite Hinfo' in Hname. cbn in Hname.
      now rewrite Hname, Hn1. }
    rewrite Hk in He'.
    apply (pydict_nodup_get _ _ _ (get_installed_addons_nodup self)) in He'.
    congruence.
  - unfold installed_key. now rewrite Hn1.
Qed.

(** A scanned folder whose key is not in the snapshot gets a record under
    the name it was resolved to. *)
Lemma sync_creates_missing_record self fs now root kv :
  addon_path self = Some root -> scan_returns self fs = true ->
  In kv (scanned self fs) ->
  is_installed self (resolved_name kv) = false ->
  exists rec,
    In rec (installed (db (fst (sync_installed_state self fs now))))
    /\ i_live rec = true /\ i_name rec = resolved_name kv
    /\ i_version rec = "unknown" /\ i_path rec = path (snd kv)
    /\ i_source_repo_url rec = or_default (git_url (snd kv)) "".
Proof.
  intros Hroot Hscan Hkv Hno. rewrite (sync_installed_state_unfold _ _ _ _ Hroot Hscan). cbn.
  destruct (disk_loop_creates (get_installed_addons self) now
              (scanned self fs) (installed (db self)) 0%nat kv Hkv Hno)
    as (rec & Hrec & Hl & Hn & Hrest).
  exists rec. split; [|now repeat split].
  apply removed_loop_survives; [exact Hrec|].
  intros [k info] He _ Hname. cbn in Hname.
  pose proof He as He'.
  apply get_installed_addons_entry in He' as (r2 & _ & _ & -> & ->).
  apply pydict_in_mem in He. cbn in Hname.
  unfold is_installed, installed_key in *. rewrite Hname, Hn, Hno in He. discriminate.
Qed.

(** C4 as stated does not hold: the folder [foo-fork] is a checkout of the
    override URL of the catalog entry [Foo].  The URL index holds primary
    URLs only, so the folder is not matched by its URL; the scanner goes on
    to the lookup by folder name, which raises, and the reconciliation ends
    without a record for [Foo]. *)
Lemma override_url_is_not_indexed : ~ url_match_names_record.
Proof.
  intros H.
  pose (r := sample_addon 1 "Foo" (Some "https://github.com/a/foo")
                          (Some "https://github.com/me/foo")).
  pose (item := {| item_name := "foo-fork"; item_is_dir := true; item_has_toc := true;
                   item_git_url := Some "https://github.com/me/foo.git" |}).
  assert (Hnd : List.NoDup (List.map item_name (fs_iterdir fs_fork))).
  { repeat constructor. intros []. }
  destruct (H (sample_db [r] []) sample_root fs_fork "t1" item
              "https://github.com/me/foo.git" r "https://github.com/me/foo"
              eq_refl Hnd (or_introl eq_refl) eq_refl eq_refl eq_refl
              (or_introl eq_refl) eq_refl (or_intror eq_refl) eq_refl eq_refl)
    as (rec & Hin & _ & Hname).
  vm_compute in Hin. destruct Hin.
Qed.

(** C4, amended: when the normalized git remote URL of a scanned folder is
    the normalized primary URL ([repo_url]) of a live catalog row (override
    URLs are not indexed), a reconciliation that returns has resolved the
    folder to the name of a live catalog row with that normalized primary
    URL, not to the folder name; it has created a live record under that
    catalog name when no live record had it (case-insensitively), and kept
    a live record under that name when there was one whose stored path
    exists. *)
Theorem url_match_uses_catalog_name d root fs now item u r cu counts :
  let self := new_installer d (Some root) in
  let after := installed (db (fst (sync_installed_state self fs now))) in
  fs_exists fs root = true ->
  List.NoDup (List.map item_name (fs_iterdir fs)) ->
  In item (fs_iterdir fs) -> item_is_addon item = true ->
  item_git_url item = Some u -> PyStr.truthy u = true ->
  In r (addons d) -> a_live r = true ->
  a_repo_url r = Some cu -> PyStr.truthy cu = true ->
  _normalize_repo_url cu = _normalize_repo_url u ->
  snd (sync_installed_state self fs now) = Returned counts ->
  exists r' cu' disk_addons,
    In r' (addons d) /\ a_live r' = true /\ a_repo_url r' = Some cu'
    /\ _normalize_repo_url cu' = _normalize_repo_url u
    /\ a_name r' <> ""
    /\ scan_addon_directory self fs = Returned disk_addons
    /\ PyDict.get disk_addons (item_name item)
       = Some {| has_toc := true; git_url := Some u;
                 matched_addon := Some (a_name r');
                 path := path_join root (item_name item) |}
    /\ (is_installed self (a_name r') = false ->
        exists rec,
          In rec after /\ i_live rec = true /\ i_name rec = a_name r'
          /\ i_version rec = "unknown"
          /\ i_path rec = path_join root (item_name item)
          /\ i_source_repo_url rec = u)
    /\ (forall info,
           PyDict.get (get_installed_addons self) (PyStr.lower (a_name r')) = Some info ->
           fs_exists fs (info_path info) = true ->
           exists rec,
             In rec after /\ i_live rec = true
             /\ installed_key rec = PyStr.lower (a_name r')).
Proof.
  intros self after Hex Hnd Hin Hq Hgit Htu Hr Hl Hcu Htcu Hnorm Hret.
  pose proof (sync_installed_state_returned self fs now root counts eq_refl Hret) as Hscan.
  destruct (cache_finds_primary_url d r cu Hr Hl Hcu Htcu)
    as (r' & cu' & Hr' & Hl' & Hcu' & Hn' & Hcache).
  rewrite Hnorm in Hn', Hcache.
  assert (Hmatch : item_match self item = Some (a_name r')).
  { unfold item_match. rewrite Hgit, Htu. exact Hcache. }
  assert (Hname : PyStr.truthy (a_name r') = true).
  { unfold scan_returns in Hscan. cbn [addon_path self new_installer] in Hscan.
    rewrite Hex in Hscan. cbn [negb] in Hscan.
    rewrite forallb_forall in Hscan. specialize (Hscan item Hin).
    rewrite Hq in Hscan. cbn [negb orb] in Hscan.
    unfold item_matched in Hscan. now rewrite Hmatch in Hscan. }
  assert (Hinfo : item_info self root item
                  = {| has_toc := true; git_url := Some u;
                       matched_addon := Some (a_name r');
                       path := path_join root (item_name item) |}).
  { unfold item_info. now rewrite Hmatch, Hgit. }
  assert (Hget : PyDict.get (scanned self fs) (item_name item)
                 = Some (item_info self root item)).
  { now apply scanned_get. }
  assert (Hres : resolved_name (item_name item, item_info self root item) = a_name r').
  { unfold resolved_name. cbn [fst snd]. rewrite Hinfo. cbn [matched_addon or_default].
    now rewrite Hname. }
  exists r', cu', (scanned self fs).
  split; [exact Hr'|]. split; [exact Hl'|]. split; [exact Hcu'|]. split; [exact Hn'|].
  split; [intros E; rewrite E in Hname; discriminate|].
  split; [now rewrite scan_addon_directory_eq, Hscan|].
  split; [now rewrite Hget, Hinfo|]. split.
  - intros Hno. apply pydict_get_in in Hget.
    destruct (sync_creates_missing_record self fs now root _ eq_refl Hscan Hget)
      as (rec & Hrec & Hlive & Hname' & Hver & Hpath & Hsrc).
    + now rewrite Hres.
    + exists rec. rewrite Hres in Hname'. rewrite Hinfo in Hpath, Hsrc. cbn in Hpath, Hsrc.
      rewrite Htu in Hsrc. now repeat split.
  - intros info Hget' Hpath.
    now apply (sync_keeps_current_record self fs now root _ info).
Qed.

Lemma url_match_uses_catalog_name_witness :
  exists rec,
    In rec (installed (db (fst (sync_installed_state
                                  (new_installer
                                     (sample_db [sample_addon 1 "Foo"
                                                   (Some "https://github.com/a/foo") None] [])
                                     (Some sample_root))
                                  fs_checkout "t1"))))
    /\ i_live rec = true /\ i_name rec = "Foo"
    /\ i_path rec = path_join sample_root "foo-main".
Proof.
  pose (r := sample_addon 1 "Foo" (Some "https://github.com/a/foo") None).
  pose (item := {| item_name := "foo-main"; item_is_dir := true; item_has_toc := true;
                   item_git_url := Some "https://GitHub.com/a/foo.git" |}).
  assert (Hnd : List.NoDup (List.map item_name (fs_iterdir fs_checkout))).
  { repeat constructor. intros []. }
  destruct (url_match_uses_catalog_name (sample_db [r] []) sample_root fs_checkout "t1" item
              "https://GitHub.com/a/foo.git" r "https://github.com/a/foo" (1, 0)%nat
              eq_refl Hnd (or_introl eq_refl) eq_refl eq_refl eq_refl
              (or_introl eq_refl) eq_refl eq_refl eq_refl eq_refl eq_refl)
    as (r' & cu' & disk_addons & Hr' & _ & _ & _ & _ & _ & _ & Hcreate & _).
  destruct Hr' as [<-|[]].
  destruct (Hcreate eq_refl) as (rec & Hin & Hl & Hn & _ & Hp & _).
  exists rec. repeat split; assumption.
Defined.

(** * Further properties of the code *)

(** ** String primitives *)

Lemma lower_char_idempotent c : PyStr.lower_char (PyStr.lower_char c) = PyStr.lower_char c.
Proof. destruct c as [[] [] [] [] [] [] [] []]; reflexivity. Qed.

Lemma lower_idempotent s : PyStr.lower (PyStr.lower s) = PyStr.lower s.
Proof.
  induction s as [|c s IH]; [reflexivity|]. cbn [PyStr.lower].
  now rewrite lower_char_idempotent, IH.
Qed.

Lemma lower_truthy s : PyStr.truthy (PyStr.lower s) = PyStr.truthy s.
Proof. now destruct s. Qed.

(** X1: a leading [https://], [http://] or [git://] does not change the key
    of a URL, and the key is in lower case. *)
Theorem normalize_ignores_protocol (url : string) :
  _normalize_repo_url (String.append "https://" url) = _normalize_repo_url url
  /\ _normalize_repo_url (String.append "http://" url) = _normalize_repo_url url
  /\ _normalize_repo_url (String.append "git://" url) = _normalize_repo_url url
  /\ PyStr.lower (_normalize_repo_url url) = _normalize_repo_url url.
Proof.
  repeat split.
  - destruct url as [|c url]; [reflexivity|].
    unfold _normalize_repo_url, PyStr.replace. cbn [PyStr.truthy String.append negb].
    cbn [PyStr.replace_from PyStr.startswith Ascii.eqb Bool.eqb andb String.length Nat.sub
         String.append].
    reflexivity.
  - destruct url as [|c url]; [reflexivity|].
    unfold _normalize_repo_url, PyStr.replace. cbn [PyStr.truthy String.append negb].
    cbn [PyStr.replace_from PyStr.startswith Ascii.eqb Bool.eqb andb String.length Nat.sub
         String.append].
    reflexivity.
  - destruct url as [|c url]; [reflexivity|].
    unfold _normalize_repo_url, PyStr.replace. cbn [PyStr.truthy String.append negb].
    cbn [PyStr.replace_from PyStr.startswith Ascii.eqb Bool.eqb andb String.length Nat.sub
         String.append].
    reflexivity.
  - unfold _normalize_repo_url. destruct (negb (PyStr.truthy url)); [reflexivity|].
    apply lower_idempotent.
Qed.

(** ** Hosts *)

(** X2: [_detect_host] answers one of the four hosts that the [CHECK]
    constraint of the [addons] table admits, and does not depend on the
    case of the URL. *)
Theorem detect_host_admitted (repo_url : option string) :
  In (_detect_host repo_url) ["github"; "gitlab"; "bitbucket"; "other"]
  /\ _detect_host (option_map PyStr.lower repo_url) = _detect_host repo_url.
Proof.
  split.
  - unfold _detect_host. destruct repo_url as [u|]; [|cbn; tauto].
    destruct (negb (PyStr.truthy u)); [cbn; tauto|].
    destruct (PyStr.contains "github.com" _); [cbn; tauto|].
    destruct (PyStr.contains "gitlab.com" _); [cbn; tauto|].
    destruct (PyStr.contains "bitbucket.org" _); cbn; tauto.
  - destruct repo_url as [u|]; [|reflexivity]. cbn [option_map]. unfold _detect_host.
    now rewrite lower_truthy, lower_idempotent.
Qed.

(** ** Registering an installation *)

Lemma mark_installed_table self addon_name version repo_url path now :
  installed (db (mark_installed self addon_name version repo_url path now))
  = match List.find (i_named_live addon_name) (installed (db self)) with
    | Some existing =>
        List.map (fun r => if Nat.eqb (i_id r) (i_id existing)
                           then i_set_version_update_source r version now repo_url
                           else r) (installed (db self))
    | None =>
        sql_insert_installed (installed (db self)) addon_name version
          (if negb (PyStr.truthy path)
           then match addon_path self with
                | Some root => path_join root addon_name
                | None => path
                end
           else path) now repo_url
    end.
Proof. reflexivity. Qed.

Lemma mark_installed_catalog self addon_name version repo_url path now :
  addons (db (mark_installed self addon_name version repo_url path now)) = addons (db self)
  /\ addon_path (mark_installed self addon_name version repo_url path now) = addon_path self.
Proof. split; reflexivity. Qed.

(** The record that [mark_installed] updates or inserts. *)
Lemma mark_installed_record self addon_name version repo_url path now :
  exists rec,
    In rec (installed (db (mark_installed self addon_name version repo_url path now)))
    /\ i_live rec = true /\ i_name rec = addon_name /\ i_version rec = version
    /\ i_source_repo_url rec = repo_url.
Proof.
  rewrite mark_installed_table.
  destruct (List.find _ _) as [existing|] eqn:E.
  - apply find_some in E as [Hin Hnl].
    exists (i_set_version_update_source existing version now repo_url).
    split.
    + rewrite in_map_iff. exists existing. now rewrite Nat.eqb_refl.
    + pose proof (i_named_live_name _ _ Hnl) as Hn.
      unfold i_named_live in Hnl. apply andb_prop in Hnl as [_ Hl].
      now repeat split.
  - eexists. split.
    + unfold sql_insert_installed. rewrite in_app_iff. right. left. reflexivity.
    + now repeat split.
Qed.

Lemma mark_installed_is_installed self addon_name version repo_url path now :
  is_installed (mark_installed self addon_name version repo_url path now) addon_name = true.
Proof.
  unfold is_installed. apply get_installed_addons_mem.
  destruct (mark_installed_record self addon_name version repo_url path now)
    as (rec & Hin & Hl & Hn & _).
  exists rec. unfold installed_key. now rewrite Hn.
Qed.

(** X3: once [mark_installed] has registered a name, [is_installed] finds
    it, and, when the live records had pairwise distinct case-insensitive
    names, [get_installed_version] answers the version just registered. *)
Theorem mark_installed_then_lookup self addon_name version repo_url path now :
  List.NoDup (List.map installed_key (List.filter i_live (installed (db self)))) ->
  is_installed (mark_installed self addon_name version repo_url path now) addon_name = true
  /\ get_installed_version (mark_installed self addon_name version repo_url path now) addon_name
     = Some version.
Proof.
  intros Hnd. split; [apply mark_installed_is_installed|].
  unfold get_installed_version.
  rewrite get_installed_addons_unfold, installed_dict_get, mark_installed_table.
  destruct (List.find (i_named_live addon_name) (installed (db self))) as [existing|] eqn:E.
  - apply find_some in E as [Hin Hnl].
    pose proof (i_named_live_name _ _ Hnl) as Hn.
    assert (Hl : i_live existing = true).
    { unfold i_named_live in Hnl. now apply andb_prop in Hnl as [_ Hl]. }
    set (upd := fun r => if Nat.eqb (i_id r) (i_id existing)
                         then i_set_version_update_source r version now repo_url else r).
    assert (Hlive : forall r, i_live (upd r) = i_live r).
    { intros r. unfold upd. now destruct (Nat.eqb _ _). }
    assert (Hkey : forall r, installed_key (upd r) = installed_key r).
    { intros r. unfold upd. now destruct (Nat.eqb _ _). }
    rewrite (filter_map_same i_live upd _ Hlive).
    assert (Hk : PyStr.lower addon_name = installed_key (upd existing)).
    { rewrite Hkey. unfold installed_key. now rewrite Hn. }
    rewrite Hk, (NoDup_map_find installed_key).
    + unfold upd. now rewrite Nat.eqb_refl.
    + rewrite map_rev, List.map_map. apply List.NoDup_rev.
      now rewrite (List.map_ext _ installed_key Hkey).
    + rewrite <- in_rev. apply in_map. apply filter_In. now split.
  - unfold sql_insert_installed. rewrite List.filter_app. cbn [List.filter i_live i_deleted_at_utc].
    rewrite rev_app_distr. cbn [rev app List.find]. unfold installed_key at 1.
    cbn [i_name]. now rewrite String.eqb_refl.
Qed.

Lemma mark_installed_then_lookup_witness :
  get_installed_version
    (mark_installed
       (new_installer (sample_db [] [sample_installed 1 "Foo" "/wow/Interface/AddOns/Foo" ""])
                      (Some sample_root))
       "Foo" "2.0" "https://github.com/a/foo" "" "t1")
    "foo"
  = Some "2.0".
Proof.
  refine (proj2 (mark_installed_then_lookup
                   (new_installer
                      (sample_db [] [sample_installed 1 "Foo" "/wow/Interface/AddOns/Foo" ""])
                      (Some sample_root))
                   "Foo" "2.0" "https://github.com/a/foo" "" "t1" _)).
  repeat constructor. intros [].
Defined.

(** ** What an installation leaves behind *)

Lemma registers_more_refl self : registers_more self self.
Proof. unfold registers_more. tauto. Qed.

Lemma registers_more_trans s1 s2 s3 :
  registers_more s1 s2 -> registers_more s2 s3 -> registers_more s1 s3.
Proof.
  unfold registers_more. intros (A1 & B1 & C1 & D1) (A2 & B2 & C2 & D2).
  repeat split; try congruence. intros n H. apply D2, D1, H.
Qed.

Lemma mark_installed_registers_more self addon_name version repo_url path now :
  registers_more self (mark_installed self addon_name version repo_url path now).
Proof.
  repeat split. intros n H. unfold is_installed in *.
  apply get_installed_addons_mem in H as (r & Hr & Hl & Hk).
  apply get_installed_addons_mem. rewrite mark_installed_table.
  destruct (List.find _ _) as [existing|].
  - exists (if Nat.eqb (i_id r) (i_id existing)
            then i_set_version_update_source r version now repo_url else r).
    split; [|now destruct (Nat.eqb _ _)].
    rewrite in_map_iff. now exists r.
  - exists r. split; [|now split].
    unfold sql_insert_installed. rewrite in_app_iff. now left.
Qed.

Lemma install_zip_folders_registers_more w root addon_name repo_url now folders :
  forall self,
    registers_more self
      (fst (install_zip_folders self w root addon_name repo_url now folders)).
Proof.
  induction folders as [|[folder_name source_path] rest IH]; intros self; cbn.
  - apply registers_more_refl.
  - destruct (copy_ok w _ _); [|apply registers_more_refl].
    eapply registers_more_trans; [apply mark_installed_registers_more | apply IH].
Qed.

Lemma install_addon_zip_registers_more self w addon_name repo_url now :
  registers_more self (fst (install_addon_zip self w addon_name repo_url now)).
Proof.
  unfold install_addon_zip.
  destruct (addon_path self) as [root|]; [|apply registers_more_refl].
  destruct (negb (PyStr.otruthy _)); [apply registers_more_refl|].
  destruct (github_release_url w _) as [dl|]; [|apply registers_more_refl].
  destruct (negb (PyStr.truthy dl)); [apply registers_more_refl|].
  destruct (fetch_archive w dl) as [[|f rest]|]; try apply registers_more_refl.
  pose proof (install_zip_folders_registers_more w root addon_name
                (or_default (lookup_repo_url self addon_name repo_url) "") now (f :: rest) self)
    as H.
  now destruct (install_zip_folders _ _ _ _ _ _ _).
Qed.

Lemma mark_linked_registers_more w addon_name repo_url repo_dest now linked :
  forall self,
    registers_more self (fold_left (mark_linked w addon_name repo_url repo_dest now) linked self).
Proof.
  induction linked as [|[folder_name folder_path] rest IH]; intros self; cbn [fold_left].
  - apply registers_more_refl.
  - eapply registers_more_trans; [|apply IH].
    unfold mark_linked. apply mark_installed_registers_more.
Qed.

Lemma install_addon_git_registers_more self w addon_name repo_url now :
  registers_more self (fst (install_addon_git self w addon_name repo_url now)).
Proof.
  unfold install_addon_git.
  destruct (addon_path self) as [root|]; [|apply registers_more_refl].
  destruct (negb (PyStr.otruthy _)); [apply registers_more_refl|].
  destruct (negb (repos_mkdir_ok w)); [apply registers_more_refl|].
  destruct (git_clone w _ _) as [| |rc]; try apply install_addon_zip_registers_more.
  destruct (negb (Z.eqb rc 0)); [apply install_addon_zip_registers_more|].
  destruct (_link_subfolders _ _ _ _); [|apply install_addon_zip_registers_more].
  cbn [fst]. apply mark_linked_registers_more.
Qed.

(** X4: an installation, whether it succeeds or fails, never makes an
    installed add-on cease to be installed, and never writes to the
    catalog. *)
Theorem install_never_uninstalls self w addon_name repo_url use_git now n :
  is_installed self n = true ->
  is_installed (fst (install_addon self w addon_name repo_url use_git now)) n = true
  /\ addons (db (fst (install_addon self w addon_name repo_url use_git now)))
     = addons (db self).
Proof.
  intros H.
  assert (R : registers_more self (fst (install_addon self w addon_name repo_url use_git now))).
  { unfold install_addon. destruct use_git;
      [apply install_addon_git_registers_more | apply install_addon_zip_registers_more]. }
  destruct R as (A & _ & _ & D). split; [now apply D | exact A].
Qed.

Lemma install_never_uninstalls_witness :
  is_installed
    (fst (install_addon
            (new_installer
               (sample_db [sample_addon 1 "Foo" (Some "https://github.com/a/foo") None]
                          [sample_installed 1 "Bar" "/wow/Interface/AddOns/Bar" ""])
               (Some sample_root))
            world_second_copy_fails "Foo" None true "t1"))
    "bar"
  = true.
Proof.
  exact (proj1 (install_never_uninstalls
                  (new_installer
                     (sample_db [sample_addon 1 "Foo" (Some "https://github.com/a/foo") None]
                                [sample_installed 1 "Bar" "/wow/Interface/AddOns/Bar" ""])
                     (Some sample_root))
                  world_second_copy_fails "Foo" None true "t1" "bar" eq_refl)).
Defined.

Lemma fold_left_last_step {A B : Type} (f : A -> B -> A) (P : A -> Prop) (l : list B) (a : A) :
  l <> [] -> (forall a b, P (f a b)) -> P (fold_left f l a).
Proof.
  intros Hne Hstep. destruct (exists_last Hne) as (l' & b & ->).
  rewrite fold_left_app. cbn. apply Hstep.
Qed.

Lemma link_subfolders_nonempty w root repo_path addon_name linked :
  _link_subfolders w root repo_path addon_name = Returned linked -> linked <> [].
Proof.
  unfold _link_subfolders. destruct (scan_git_subfolders w repo_path) as [|s rest].
  - destruct (link_ok w _ _); [|discriminate]. intros [= <-]. discriminate.
  - cbn [link_each]. destruct (link_ok w _ _); [|discriminate].
    destruct (link_each _ _ _ _); [|discriminate]. intros [= <-]. discriminate.
Qed.

Lemma install_addon_success_source self w addon_name repo_url use_git now :
  snd (install_addon self w addon_name repo_url use_git now) = Returned true ->
  exists url rec,
    lookup_repo_url self addon_name repo_url = Some url
    /\ PyStr.truthy url = true
    /\ In rec (installed (db (fst (install_addon self w addon_name repo_url use_git now))))
    /\ i_live rec = true /\ i_source_repo_url rec = url.
Proof.
  assert (Hzip : forall repo_url,
             snd (install_addon_zip self w addon_name repo_url now) = Returned true ->
             exists url rec,
               lookup_repo_url self addon_name repo_url = Some url
               /\ PyStr.truthy url = true
               /\ In rec (installed (db (fst (install_addon_zip self w addon_name repo_url now))))
               /\ i_live rec = true /\ i_source_repo_url rec = url).
  { intros ru. unfold install_addon_zip.
    destruct (addon_path self) as [root|]; [|discriminate].
    destruct (lookup_repo_url self addon_name ru) as [url|] eqn:Hu; [|discriminate].
    cbn [PyStr.otruthy or_default]. destruct (PyStr.truthy url) eqn:Ht; [|discriminate].
    cbn [negb]. destruct (github_release_url w url) as [dl|]; [|discriminate].
    destruct (negb (PyStr.truthy dl)); [discriminate|].
    destruct (fetch_archive w dl) as [[|f rest]|]; try discriminate.
    destruct (install_zip_folders self w root addon_name url now (f :: rest))
      as [self' ok] eqn:Hz.
    cbn [fst snd]. intros [= ->]. apply install_zip_folders_prefix in Hz. subst self'.
    exists url.
    apply (fold_left_last_step _
             (fun s => exists rec, Some url = Some url /\ PyStr.truthy url = true
                                   /\ In rec (installed (db s)) /\ i_live rec = true
                                   /\ i_source_repo_url rec = url)); [discriminate|].
    intros s folder. unfold zip_mark.
    destruct (mark_installed_record s addon_name (addon_version w (path_join root (fst folder)))
                url (path_join root (fst folder)) now) as (rec & Hin & Hl & _ & _ & Hs).
    now exists rec. }
  unfold install_addon. destruct use_git; [|apply Hzip].
  unfold install_addon_git.
  destruct (addon_path self) as [root|] eqn:Hroot; [|discriminate].
  destruct (lookup_repo_url self addon_name repo_url) as [url|] eqn:Hu; [|discriminate].
  cbn [PyStr.otruthy or_default]. destruct (PyStr.truthy url) eqn:Ht; [|discriminate].
  cbn [negb]. destruct (negb (repos_mkdir_ok w)); [discriminate|].
  assert (Hzip' : snd (install_addon_zip self w addon_name (Some url) now) = Returned true ->
                  exists url0 rec,
                    Some url = Some url0 /\ PyStr.truthy url0 = true
                    /\ In rec (installed
                                 (db (fst (install_addon_zip self w addon_name (Some url) now))))
                    /\ i_live rec = true /\ i_source_repo_url rec = url0).
  { intros H. destruct (Hzip (Some url) H) as (url0 & rec & Hl0 & Hrest).
    rewrite lookup_repo_url_truthy in Hl0 by exact Ht. now exists url0, rec. }
  destruct (git_clone w url _) as [| |rc]; try exact Hzip'.
  destruct (negb (Z.eqb rc 0)); [exact Hzip'|].
  destruct (_link_subfolders w root _ addon_name) as [linked|] eqn:Hlink; [|exact Hzip'].
  cbn [fst snd]. intros _. exists url.
  apply (fold_left_last_step _
           (fun s => exists rec, Some url = Some url /\ PyStr.truthy url = true
                                 /\ In rec (installed (db s)) /\ i_live rec = true
                                 /\ i_source_repo_url rec = url)).
  - now apply link_subfolders_nonempty in Hlink.
  - intros s [folder_name folder_path]. unfold mark_linked.
    destruct (mark_installed_record s
                (if String.eqb folder_name addon_name then addon_name else folder_name)
                (addon_version w folder_path) url
                (path_join (path_join root ".repos") addon_name) now)
      as (rec & Hin & Hl & _ & _ & Hs).
    now exists rec.
Qed.



(** X5: an installation that returns [True] leaves a live record whose
    source URL is the URL that was resolved for it. *)
Theorem successful_install_records_source self w addon_name repo_url use_git now :
  snd (install_addon self w addon_name repo_url use_git now) = Returned true ->
  exists url rec,
    lookup_repo_url self addon_name repo_url = Some url
    /\ PyStr.truthy url = true
    /\ In rec (installed (db (fst (install_addon self w addon_name repo_url use_git now))))
    /\ i_live rec = true /\ i_source_repo_url rec = url.
Proof. apply install_addon_success_source. Qed.

Lemma successful_install_records_source_witness :
  exists url rec,
    lookup_repo_url
      (new_installer (sample_db [sample_addon 1 "Foo" (Some "https://github.com/a/foo")
                                              (Some "https://github.com/me/foo")] [])
                     (Some sample_root))
      "Foo" None = Some url
    /\ PyStr.truthy url = true
    /\ In rec (installed
                 (db (fst (install_addon
                             (new_installer
                                (sample_db [sample_addon 1 "Foo"
                                              (Some "https://github.com/a/foo")
                                              (Some "https://github.com/me/foo")] [])
                                (Some sample_root))
                             world_clone_ok "Foo" None true "t1"))))
    /\ i_live rec = true /\ i_source_repo_url rec = url.
Proof.
  exact (successful_install_records_source
           (new_installer (sample_db [sample_addon 1 "Foo" (Some "https://github.com/a/foo")
                                                   (Some "https://github.com/me/foo")] [])
                          (Some sample_root))
           world_clone_ok "Foo" None true "t1" eq_refl).
Defined.

(** ** Bookkeeping of the reconciliation *)

Lemma disk_step_length db_installed now t n kv :
  let acc := sync_disk_step db_installed now (t, n) kv in
  (length (fst acc) + n = length t + snd acc)%nat /\ (n <= snd acc <= S n)%nat.
Proof.
  cbn zeta. unfold sync_disk_step. destruct (negb (PyDict.mem db_installed _)).
  - cbn [fst snd]. unfold sql_insert_installed. rewrite length_app. cbn [length]. lia.
  - destruct (_ && _); cbn [fst snd].
    + unfold sql_update_path_source. rewrite length_map. lia.
    + lia.
Qed.

Lemma disk_loop_length db_installed now disk_addons :
  forall t n,
    let found := fold_left (sync_disk_step db_installed now) disk_addons (t, n) in
    (length (fst found) + n = length t + snd found)%nat
    /\ (n <= snd found <= n + length disk_addons)%nat.
Proof.
  induction disk_addons as [|kv rest IH]; intros t n; cbn zeta; cbn [fold_left length].
  - cbn. lia.
  - pose proof (disk_step_length db_installed now t n kv) as Hs. cbn zeta in Hs.
    destruct (sync_disk_step db_installed now (t, n) kv) as [t' n'].
    cbn [fst snd] in Hs. specialize (IH t' n'). cbn zeta in IH. lia.
Qed.

Lemma removed_step_length fs now t n kv :
  let acc := sync_removed_step fs now (t, n) kv in
  length (fst acc) = length t /\ (n <= snd acc <= S n)%nat.
Proof.
  cbn zeta. unfold sync_removed_step. destruct (negb (fs_exists fs _)); cbn [fst snd].
  - unfold sql_soft_delete. rewrite length_map. lia.
  - lia.
Qed.

Lemma removed_loop_length fs now db_installed :
  forall t n,
    let gone := fold_left (sync_removed_step fs now) db_installed (t, n) in
    length (fst gone) = length t
    /\ (n <= snd gone <= n + length db_installed)%nat.
Proof.
  induction db_installed as [|kv rest IH]; intros t n; cbn zeta; cbn [fold_left length].
  - cbn. lia.
  - pose proof (removed_step_length fs now t n kv) as Hs. cbn zeta in Hs.
    destruct (sync_removed_step fs now (t, n) kv) as [t' n'].
    cbn [fst snd] in Hs. specialize (IH t' n'). cbn zeta in IH. lia.
Qed.

Lemma Forall2_same_but_located_refl t : Forall2 same_but_located t t.
Proof. induction t; constructor; [unfold same_but_located; tauto | assumption]. Qed.

Lemma Forall2_same_but_located_map (f : installed_row -> installed_row) t kept :
  (forall r, same_but_located r (f r)) ->
  Forall2 same_but_located t kept -> Forall2 same_but_located t (List.map f kept).
Proof.
  intros Hf H. induction H as [|r r' t kept Hr _ IH]; cbn [List.map]; constructor; [|exact IH].
  specialize (Hf r'). unfold same_but_located in *. intuition congruence.
Qed.

Lemma update_path_source_located path source name r :
  same_but_located r (if i_named_live name r then i_set_path_source r path source else r).
Proof. unfold same_but_located. destruct (i_named_live name r); cbn; tauto. Qed.

Lemma soft_delete_located now name r :
  same_but_located r (if i_named_live name r then i_set_deleted r now else r).
Proof. unfold same_but_located. destruct (i_named_live name r); cbn; tauto. Qed.

(** The first loop keeps the rows it finds, but for path and source URL,
    and appends one row per folder that it counts. *)
Lemma disk_loop_rows db_installed now disk_addons t0 :
  forall t n kept added,
    t = kept ++ added -> Forall2 same_but_located t0 kept -> length added = n ->
    let found := fold_left (sync_disk_step db_installed now) disk_addons (t, n) in
    exists kept' added',
      fst found = kept' ++ added' /\ Forall2 same_but_located t0 kept'
      /\ length added' = snd found.
Proof.
  induction disk_addons as [|kv rest IH]; intros t n kept added Ht Hk Ha; cbn zeta;
    cbn [fold_left].
  - now exists kept, added.
  - destruct (sync_disk_step db_installed now (t, n) kv) as [t' n'] eqn:Hstep.
    unfold sync_disk_step in Hstep. destruct (negb (PyDict.mem db_installed _)).
    + injection Hstep as <- <-.
      apply (IH _ _ kept (added ++ [ {| i_id := next_id i_id t;
                                        i_name := resolved_name kv; i_version := "unknown";
                                        i_path := path (snd kv); i_installed_at_utc := now;
                                        i_last_update_utc := None; i_enabled := Some 1%Z;
                                        i_source_repo_url := or_default (git_url (snd kv)) "";
                                        i_deleted_at_utc := None |} ])).
      * unfold sql_insert_installed. now rewrite Ht, app_assoc.
      * exact Hk.
      * rewrite length_app. cbn [length]. lia.
    + destruct (_ && _); injection Hstep as <- <-.
      * apply (IH _ _
                 (List.map (fun r => if i_named_live (resolved_name kv) r
                                     then i_set_path_source r (path (snd kv))
                                            (or_default (git_url (snd kv)) "")
                                     else r) kept)
                 (List.map (fun r => if i_named_live (resolved_name kv) r
                                     then i_set_path_source r (path (snd kv))
                                            (or_default (git_url (snd kv)) "")
                                     else r) added)).
        -- unfold sql_update_path_source. now rewrite Ht, List.map_app.
        -- apply Forall2_same_but_located_map; [|exact Hk].
           intros r. apply update_path_source_located.
        -- now rewrite length_map.
      * now apply (IH _ _ kept added).
Qed.

(** The second loop keeps every row, but for the soft-delete mark. *)
Lemma removed_loop_rows fs now db_installed t0 :
  forall t n kept added,
    t = kept ++ added -> Forall2 same_but_located t0 kept ->
    let gone := fold_left (sync_removed_step fs now) db_installed (t, n) in
    exists kept' added',
      fst gone = kept' ++ added' /\ Forall2 same_but_located t0 kept'
      /\ length added' = length added.
Proof.
  induction db_installed as [|kv rest IH]; intros t n kept added Ht Hk; cbn zeta;
    cbn [fold_left].
  - now exists kept, added.
  - destruct (sync_removed_step fs now (t, n) kv) as [t' n'] eqn:Hstep.
    unfold sync_removed_step in Hstep.
    destruct (negb (fs_exists fs _)); injection Hstep as <- <-.
    + destruct (IH (sql_soft_delete t now (info_name (snd kv))) (S n)
                  (List.map (fun r => if i_named_live (info_name (snd kv)) r
                                      then i_set_deleted r now else r) kept)
                  (List.map (fun r => if i_named_live (info_name (snd kv)) r
                                      then i_set_deleted r now else r) added))
        as (kept' & added' & H1 & H2 & H3).
      * unfold sql_soft_delete. now rewrite Ht, List.map_app.
      * apply Forall2_same_but_located_map; [|exact Hk].
        intros r. apply soft_delete_located.
      * exists kept', added'. rewrite length_map in H3. now repeat split.
    + now apply (IH _ _ kept added).
Qed.

(** X6: a reconciliation that raises has written nothing.  One that
    returns [(newly_found, removed)] has kept every row of [installed], in
    place and unchanged but for path, source URL and soft-delete mark, and
    has appended exactly [newly_found] rows; it counts at most one new
    folder per scanned folder and at most one removal per entry of the
    snapshot; it leaves the catalog and the event log alone. *)
Theorem sync_bookkeeping self fs now :
  (snd (sync_installed_state self fs now) = Raised ->
   fst (sync_installed_state self fs now) = self)
  /\ forall newly_found removed,
      snd (sync_installed_state self fs now) = Returned (newly_found, removed) ->
      let self' := fst (sync_installed_state self fs now) in
      exists disk_addons kept added,
        scan_addon_directory self fs = Returned disk_addons
        /\ installed (db self') = kept ++ added
        /\ Forall2 same_but_located (installed (db self)) kept
        /\ length added = newly_found
        /\ (newly_found <= length disk_addons)%nat
        /\ (removed <= length (get_installed_addons self))%nat
        /\ addons (db self') = addons (db self)
        /\ events (db self') = events (db self).
Proof.
  destruct (addon_path self) as [root|] eqn:Hroot.
  2:{ unfold sync_installed_state, scan_addon_directory. rewrite Hroot. cbn [fst snd].
      split; [reflexivity|]. intros newly_found removed [= <- <-].
      exists [], (installed (db self)), []. rewrite app_nil_r.
      repeat split; try reflexivity; [apply Forall2_same_but_located_refl | cbn; lia..]. }
  destruct (scan_returns self fs) eqn:Hscan.
  2:{ rewrite (sync_installed_state_raises self fs now root Hroot Hscan).
      split; [reflexivity | discriminate]. }
  rewrite (sync_installed_state_unfold self fs now root Hroot Hscan). cbn zeta.
  cbn [fst snd db with_db installed set_installed addons events].
  split; [discriminate|]. intros newly_found removed [= <- <-].
  pose proof (disk_loop_length (get_installed_addons self) now
                (scanned self fs) (installed (db self)) 0%nat) as H1.
  cbn zeta in H1.
  pose proof (removed_loop_length fs now (get_installed_addons self)
                (fst (fold_left (sync_disk_step (get_installed_addons self) now)
                                (scanned self fs) (installed (db self), 0%nat)))
                0%nat) as H2.
  cbn zeta in H2.
  destruct (disk_loop_rows (get_installed_addons self) now (scanned self fs)
              (installed (db self)) (installed (db self)) 0%nat (installed (db self)) []
              (eq_sym (app_nil_r _)) (Forall2_same_but_located_refl _) eq_refl)
    as (kept1 & added1 & E1 & K1 & L1).
  destruct (removed_loop_rows fs now (get_installed_addons self) (installed (db self))
              _ 0%nat kept1 added1 E1 K1)
    as (kept2 & added2 & E2 & K2 & L2).
  exists (scanned self fs), kept2, added2.
  split; [now rewrite scan_addon_directory_eq, Hscan|].
  split; [exact E2|]. split; [exact K2|]. split; [congruence|].
  repeat split; lia.
Qed.

Lemma NoDup_map_filter {A : Type} (f : A -> string) (p : A -> bool) (l : list A) :
  List.NoDup (List.map f l) -> List.NoDup (List.map f (List.filter p l)).
Proof.
  induction l as [|x l IH]; cbn; [constructor|].
  intros H. apply List.NoDup_cons_iff in H as [Hx H]. destruct (p x); [|now apply IH].
  cbn. constructor; [|now apply IH].
  intros Hin. apply Hx. apply in_map_iff in Hin as (y & <- & Hy).
  apply filter_In in Hy as [Hy _]. now apply in_map.
Qed.

Lemma soft_delete_live t now name :
  List.filter i_live (sql_soft_delete t now name)
  = List.filter (fun r => negb (i_named_live name r)) (List.filter i_live t).
Proof.
  unfold sql_soft_delete. induction t as [|r t IH]; [reflexivity|]. cbn [List.map List.filter].
  destruct (i_named_live name r) eqn:Hn.
  - unfold i_named_live in Hn. apply andb_prop in Hn as [Hname Hl].
    cbn [i_live i_set_deleted i_deleted_at_utc]. rewrite Hl. cbn [List.filter].
    unfold i_named_live at 2. rewrite Hname, Hl. cbn [andb negb]. exact IH.
  - destruct (i_live r); [|exact IH]. cbn [List.filter]. rewrite Hn. cbn [negb].
    now rewrite IH.
Qed.

Lemma removed_loop_unique fs now db_installed :
  forall t n,
    List.NoDup (List.map installed_key (List.filter i_live t)) ->
    List.NoDup (List.map installed_key
                  (List.filter i_live
                     (fst (fold_left (sync_removed_step fs now) db_installed (t, n))))).
Proof.
  induction db_installed as [|kv rest IH]; intros t n H; [exact H|].
  cbn [fold_left]. unfold sync_removed_step at 2.
  destruct (negb (fs_exists fs _)); [|now apply IH].
  apply IH. rewrite soft_delete_live. now apply NoDup_map_filter.
Qed.

Lemma update_path_source_live t path source name :
  List.map installed_key (List.filter i_live (sql_update_path_source t path source name))
  = List.map installed_key (List.filter i_live t).
Proof.
  unfold sql_update_path_source.
  rewrite filter_map_same by (intros r; now destruct (i_named_live name r)).
  rewrite List.map_map. apply List.map_ext. intros r. now destruct (i_named_live name r).
Qed.

Lemma disk_loop_unique db_installed now disk_addons :
  forall t n,
    List.NoDup (List.map installed_key (List.filter i_live t)) ->
    List.NoDup (List.map resolved_key disk_addons) ->
    (forall r, In r (List.filter i_live t) ->
               PyDict.mem db_installed (installed_key r) = true
               \/ ~ In (installed_key r) (List.map resolved_key disk_addons)) ->
    List.NoDup (List.map installed_key
                  (List.filter i_live
                     (fst (fold_left (sync_disk_step db_installed now) disk_addons (t, n))))).
Proof.
  induction disk_addons as [|kv rest IH]; intros t n Ht Hs Hold; [exact Ht|].
  cbn [fold_left]. cbn [List.map] in Hs, Hold. apply List.NoDup_cons_iff in Hs as [Hkv Hs].
  unfold sync_disk_step at 2.
  destruct (PyDict.mem db_installed (PyStr.lower (resolved_name kv))) eqn:Hmem; cbn [negb].
  - destruct (_ && _).
    + apply IH; [now rewrite update_path_source_live | exact Hs |].
      intros r Hr. unfold sql_update_path_source in Hr.
      rewrite filter_map_same in Hr by (intros x; now destruct (i_named_live _ x)).
      apply in_map_iff in Hr as (r0 & <- & Hr0).
      assert (E : installed_key (if i_named_live (resolved_name kv) r0
                                 then i_set_path_source r0 (path (snd kv))
                                        (or_default (git_url (snd kv)) "")
                                 else r0) = installed_key r0)
        by now destruct (i_named_live _ r0).
      rewrite E. destruct (Hold r0 Hr0) as [H|H]; [now left|].
      right. intros F. apply H. now right.
    + apply IH; [exact Ht | exact Hs |].
      intros r Hr. destruct (Hold r Hr) as [H|H]; [now left|].
      right. intros F. apply H. now right.
  - unfold sql_insert_installed. apply IH.
    + rewrite List.filter_app, List.map_app. cbn [List.filter i_live i_deleted_at_utc List.map].
      apply List.NoDup_app; [exact Ht | repeat constructor; intros [] |].
      intros k Hk [<-|[]]. apply in_map_iff in Hk as (r & Hkr & Hr).
      unfold installed_key in Hkr at 2. cbn [i_name] in Hkr.
      destruct (Hold r Hr) as [H|H].
      * rewrite Hkr, Hmem in H. discriminate.
      * apply H. left. unfold resolved_key. now symmetry.
    + exact Hs.
    + intros r Hr. rewrite List.filter_app in Hr. apply in_app_iff in Hr as [Hr|Hr].
      * destruct (Hold r Hr) as [H|H]; [now left|]. right. intros F. apply H. now right.
      * cbn in Hr. destruct Hr as [<-|[]]. right. exact Hkv.
Qed.

(** X7: when the live records have pairwise distinct case-insensitive
    names, the scanner returns and the scanned folders resolve to pairwise
    distinct case-insensitive names, the reconciliation returns and the
    live records still have pairwise distinct case-insensitive names. *)
Theorem sync_keeps_names_unique self fs now disk_addons :
  List.NoDup (List.map installed_key (List.filter i_live (installed (db self)))) ->
  scan_addon_directory self fs = Returned disk_addons ->
  List.NoDup (List.map resolved_key disk_addons) ->
  (exists counts, snd (sync_installed_state self fs now) = Returned counts)
  /\ List.NoDup (List.map installed_key
                   (List.filter i_live
                      (installed (db (fst (sync_installed_state self fs now)))))).
Proof.
  intros Ht Hscan Hs. apply scan_addon_directory_returned in Hscan as [Hscan ->].
  destruct (addon_path self) as [root|] eqn:Hroot.
  - rewrite (sync_installed_state_unfold self fs now root Hroot Hscan). cbn zeta.
    cbn [fst snd db with_db installed set_installed]. split; [now eexists|].
    apply removed_loop_unique, disk_loop_unique; [exact Ht | exact Hs |].
    intros r Hr. left. apply get_installed_addons_mem. apply filter_In in Hr as [Hr Hl].
    now exists r.
  - unfold sync_installed_state. rewrite Hroot. cbn [fst snd]. split; [now eexists | exact Ht].
Qed.

Lemma sync_keeps_names_unique_witness :
  List.NoDup
    (List.map installed_key
       (List.filter i_live
          (installed
             (db (fst (sync_installed_state
                         (new_installer
                            (sample_db
                               [sample_addon 1 "Foo" (Some "https://github.com/a/foo") None]
                               [sample_installed 1 "Bar" "/wow/Interface/AddOns/Bar" ""])
                            (Some sample_root))
                         fs_only_foo "t1")))))).
Proof.
  refine (proj2 (sync_keeps_names_unique
                   (new_installer
                      (sample_db
                         [sample_addon 1 "Foo" (Some "https://github.com/a/foo") None]
                         [sample_installed 1 "Bar" "/wow/Interface/AddOns/Bar" ""])
                      (Some sample_root))
                   fs_only_foo "t1" _ _ eq_refl _)).
  - repeat constructor. intros [].
  - repeat constructor. intros [].
Defined.

(** ** Catalog upsert: frame, invariant, repetition *)

Lemma same_but_synced_refl r : same_but_synced r r.
Proof. unfold same_but_synced. tauto. Qed.

Lemma Forall2_map_r {A : Type} (R : A -> A -> Prop) (f : A -> A) (l : list A) :
  (forall x, R x (f x)) -> Forall2 R l (List.map f l).
Proof. intros H. induction l; cbn; constructor; auto. Qed.

Lemma Forall2_same_but_synced_refl t : Forall2 same_but_synced t t.
Proof. induction t; constructor; [apply same_but_synced_refl | assumption]. Qed.

(** X8: [upsert_addon] leaves the [installed] table and the event log
    alone, removes no catalog row, changes of the rows already there
    nothing but primary URL, description, tags and update time (so never
    the override URL, the status or the soft-delete mark), and adds at most
    one row, live, without override URL, under the incoming name. *)
Theorem upsert_frame (json_dumps : list string -> string) d data now :
  let d' := fst (fst (upsert_addon json_dumps d data now)) in
  installed d' = installed d /\ events d' = events d
  /\ exists kept extra,
      addons d' = kept ++ extra
      /\ Forall2 same_but_synced (addons d) kept
      /\ (length extra <= 1)%nat
      /\ forall r, In r extra ->
                   a_name r = d_name data /\ a_override_url r = None
                   /\ a_deleted_at_utc r = None.
Proof.
  cbn zeta. unfold upsert_addon.
  assert (Hname : d_name (dump_tags json_dumps data) = d_name data).
  { unfold dump_tags. now destruct (d_tags data) as [[l|s]|]. }
  destruct (upsert_existing _ _ _) as [existing|].
  - destruct (unique_violation _ _ _ _); cbn [fst].
    + split; [reflexivity|]. split; [reflexivity|].
      exists (addons d), []. rewrite app_nil_r.
      split; [reflexivity|]. split; [apply Forall2_same_but_synced_refl|].
      split; [cbn; lia | intros r []].
    + split; [reflexivity|]. split; [reflexivity|].
      eexists _, []. rewrite app_nil_r. cbn [addons set_addon_history set_addons].
      split; [reflexivity|]. split.
      * apply Forall2_map_r. intros r. destruct (Nat.eqb _ _); [|apply same_but_synced_refl].
        unfold same_but_synced. cbn. tauto.
      * split; [cbn; lia | intros r []].
  - cbn [fst]. split; [reflexivity|]. split; [reflexivity|].
    eexists (addons d), _. cbn [addons set_addons].
    split; [reflexivity|]. split; [apply Forall2_same_but_synced_refl|].
    split; [cbn; lia|]. intros r [<-|[]]. cbn. now rewrite Hname.
Qed.

Lemma next_id_fresh {R : Type} (id : R -> nat) (t : list R) (r : R) :
  In r t -> (id r < next_id id t)%nat.
Proof.
  unfold next_id. induction t as [|x t IH]; [intros []|].
  cbn. intros [->|H]; [lia|]. specialize (IH H). lia.
Qed.

Lemma sql_eq_sym x y : sql_eq x y = sql_eq y x.
Proof. destruct x, y; cbn; try reflexivity. apply String.eqb_sym. Qed.

Lemma NoDup_ids_eq (t : list addon_row) r1 r2 :
  List.NoDup (List.map a_id t) -> In r1 t -> In r2 t -> a_id r1 = a_id r2 -> r1 = r2.
Proof.
  induction t as [|x t IH]; [intros _ []|]. cbn.
  intros H. apply List.NoDup_cons_iff in H as [Hx H]. intros [->|H1] [->|H2] E.
  - reflexivity.
  - exfalso. apply Hx. rewrite E. now apply in_map.
  - exfalso. apply Hx. rewrite <- E. now apply in_map.
  - now apply IH.
Qed.

Lemma dump_tags_fields json_dumps data :
  d_name (dump_tags json_dumps data) = d_name data
  /\ d_repo_url (dump_tags json_dumps data) = d_repo_url data
  /\ d_description (dump_tags json_dumps data) = d_description data
  /\ tags_param json_dumps (dump_tags json_dumps data) = tags_param json_dumps data
  /\ dump_tags json_dumps (dump_tags json_dumps data) = dump_tags json_dumps data.
Proof.
  unfold dump_tags, tags_param.
  destruct (d_tags data) as [[l|s]|] eqn:E; cbn; rewrite ?E; repeat split; reflexivity.
Qed.

Lemma sql_eq_true x y : sql_eq x y = true -> x = y /\ x <> None.
Proof.
  destruct x as [a|], y as [b|]; cbn; try discriminate.
  intros H. apply String.eqb_eq in H. subst b. now split.
Qed.

Lemma sql_eq_same x : x <> None -> sql_eq x x = true.
Proof. destruct x as [a|]; [intros _; cbn; apply String.eqb_refl | now intros []]. Qed.

(** The row that [upsert_addon] updates has the incoming name, and either
    the incoming URL, or no URL while no row of that name has the incoming
    URL. *)
Lemma upsert_existing_some t name repo_url existing :
  upsert_existing t name repo_url = Some existing ->
  In existing t /\ a_name existing = name
  /\ (sql_eq (a_repo_url existing) repo_url = true
      \/ (a_repo_url existing = None
          /\ forall r, In r t -> a_name r = name -> sql_eq (a_repo_url r) repo_url = false)).
Proof.
  unfold upsert_existing.
  destruct (List.find _ t) as [r1|] eqn:F1.
  - intros [= ->]. apply find_some in F1 as [Hin Hp]. apply andb_prop in Hp as [Hn Hu].
    apply String.eqb_eq in Hn. now repeat split; [..|left].
  - intros F2. apply find_some in F2 as [Hin Hp]. apply andb_prop in Hp as [Hn Hu].
    apply String.eqb_eq in Hn. split; [exact Hin|]. split; [exact Hn|]. right. split.
    + now destruct (a_repo_url existing).
    + intros r Hr Hname. eapply find_none in F1; [|exact Hr]. cbn beta in F1.
      now rewrite Hname, String.eqb_refl in F1.
Qed.

(** When [upsert_addon] inserts, no row of the incoming name has the
    incoming URL, or no URL. *)
Lemma upsert_existing_none t name repo_url r :
  upsert_existing t name repo_url = None -> In r t -> a_name r = name ->
  sql_eq (a_repo_url r) repo_url = false /\ a_repo_url r <> None.
Proof.
  unfold upsert_existing. destruct (List.find _ t) as [r1|] eqn:F1; [discriminate|].
  intros F2 Hr Hname.
  eapply find_none in F1; [|exact Hr]. eapply find_none in F2; [|exact Hr]. cbn beta in *.
  rewrite Hname, String.eqb_refl in F1, F2. cbn [andb] in *. split; [exact F1|].
  intros E. now rewrite E in F2.
Qed.

(** On a catalog that keeps the promises of the schema the [UPDATE] of
    [upsert_addon] cannot collide with another row. *)
Lemma upsert_existing_no_violation t name repo_url existing :
  catalog_unique t -> upsert_existing t name repo_url = Some existing ->
  forall r, In r t -> a_id r <> a_id existing -> a_name r = a_name existing ->
            sql_eq (a_repo_url r) repo_url = false.
Proof.
  intros [_ Huniq] Hex r Hr Hne Hname.
  apply upsert_existing_some in Hex as (Hin & Hn & [Hu|[_ Hnone]]).
  - destruct (sql_eq (a_repo_url r) repo_url) eqn:E; [|reflexivity].
    apply sql_eq_true in E as [E1 E2]. apply sql_eq_true in Hu as [Hu1 _].
    rewrite <- (Huniq r existing Hr Hin Hne Hname). rewrite E1, Hu1.
    symmetry. apply sql_eq_same. congruence.
  - apply Hnone; [exact Hr | congruence].
Qed.

(** X9: on a catalog that keeps what the schema promises ([INTEGER PRIMARY
    KEY], [UNIQUE(name, repo_url)]) [upsert_addon] never breaks the
    constraint: the row that it updates is the one that has the incoming
    URL already, or a row without URL when no row of that name has it.  So
    the call returns a row id, and the catalog keeps the promises. *)
Theorem upsert_keeps_catalog_unique (json_dumps : list string -> string) d data now :
  catalog_unique (addons d) ->
  (exists id, snd (upsert_addon json_dumps d data now) = Returned id)
  /\ catalog_unique (addons (fst (fst (upsert_addon json_dumps d data now)))).
Proof.
  intros Hcat. pose proof Hcat as [Hids Huniq]. unfold upsert_addon.
  destruct (dump_tags_fields json_dumps data) as (Hn & Hu & _ & _ & _).
  rewrite Hn, Hu.
  destruct (upsert_existing (addons d) (d_name data) (d_repo_url data))
    as [existing|] eqn:Hfind.
  - pose proof (upsert_existing_no_violation _ _ _ _ Hcat Hfind) as Hother.
    pose proof (upsert_existing_some _ _ _ _ Hfind) as (Hex & _ & _).
    assert (Hviol : unique_violation (addons d) (a_id existing) (a_name existing)
                      (d_repo_url data) = false).
    { unfold unique_violation. destruct (existsb _ _) eqn:E; [|reflexivity]. exfalso.
      apply existsb_exists in E as (r & Hr & Hc).
      apply andb_prop in Hc as [Hc Hs]. apply andb_prop in Hc as [Hne Hnm].
      apply negb_true_iff, Nat.eqb_neq in Hne. apply String.eqb_eq in Hnm.
      rewrite (Hother r Hr Hne Hnm) in Hs. discriminate. }
    rewrite Hviol. cbn [fst snd]. split; [now eexists|].
    cbn [addons set_addon_history set_addons].
    set (upd := fun r => if Nat.eqb (a_id r) (a_id existing)
                         then a_set_upsert r (d_repo_url data)
                                (d_description (dump_tags json_dumps data))
                                (tags_param json_dumps (dump_tags json_dumps data)) now
                         else r).
    assert (Hid : forall r, a_id (upd r) = a_id r).
    { intros r. unfold upd. now destruct (Nat.eqb _ _). }
    assert (Hnm : forall r, a_name (upd r) = a_name r).
    { intros r. unfold upd. now destruct (Nat.eqb _ _). }
    split.
    + rewrite List.map_map. now rewrite (List.map_ext _ a_id Hid).
    + intros r1' r2' H1 H2 Hne Hname.
      apply in_map_iff in H1 as (r1 & <- & H1). apply in_map_iff in H2 as (r2 & <- & H2).
      fold (upd r1) in *. fold (upd r2) in *. rewrite !Hid in Hne. rewrite !Hnm in Hname.
      unfold upd. destruct (Nat.eqb (a_id r1) (a_id existing)) eqn:E1;
        destruct (Nat.eqb (a_id r2) (a_id existing)) eqn:E2.
      * apply Nat.eqb_eq in E1, E2. congruence.
      * apply Nat.eqb_eq in E1. apply Nat.eqb_neq in E2. cbn [a_repo_url a_set_upsert].
        rewrite sql_eq_sym. apply Hother; [exact H2 | exact E2 |].
        rewrite <- Hname. f_equal. now apply (NoDup_ids_eq (addons d)).
      * apply Nat.eqb_neq in E1. apply Nat.eqb_eq in E2. cbn [a_repo_url a_set_upsert].
        apply Hother; [exact H1 | exact E1 |].
        rewrite Hname. f_equal. now apply (NoDup_ids_eq (addons d)).
      * now apply Huniq.
  - cbn [fst snd addons set_addons]. split; [now eexists|].
    assert (Hnone : forall r, In r (addons d) -> a_name r = d_name data ->
                              sql_eq (a_repo_url r) (d_repo_url data) = false).
    { intros r Hr Hname. now apply (upsert_existing_none _ _ _ r Hfind). }
    split.
    + rewrite List.map_app. cbn [List.map a_id]. apply List.NoDup_app.
      * exact Hids.
      * repeat constructor. intros [].
      * intros i Hi [<-|[]]. apply in_map_iff in Hi as (r & Hr & Hin).
        pose proof (next_id_fresh a_id (addons d) r Hin). lia.
    + intros r1 r2 H1 H2 Hne Hname. apply in_app_iff in H1, H2.
      destruct H1 as [H1|[<-|[]]]; destruct H2 as [H2|[<-|[]]].
      * now apply Huniq.
      * cbn [a_name a_repo_url] in *. now apply Hnone.
      * cbn [a_name a_repo_url] in *. rewrite sql_eq_sym. apply Hnone; [exact H2 | now symmetry].
      * now contradiction Hne.
Qed.

Lemma upsert_keeps_catalog_unique_witness :
  (exists id,
      snd (upsert_addon (fun _ => "[]")
             (sample_db [sample_addon 1 "Foo" None None;
                         sample_addon 2 "Foo" (Some "https://github.com/b/foo") None] [])
             {| d_name := "Foo"; d_repo_url := Some "https://github.com/b/foo";
                d_description := Some "fork"; d_tags := Some (TagsList []) |}
             "t1") = Returned id)
  /\ catalog_unique
       (addons (fst (fst (upsert_addon (fun _ => "[]")
                            (sample_db [sample_addon 1 "Foo" None None;
                                        sample_addon 2 "Foo" (Some "https://github.com/b/foo")
                                                     None] [])
                            {| d_name := "Foo"; d_repo_url := Some "https://github.com/b/foo";
                               d_description := Some "fork"; d_tags := Some (TagsList []) |}
                            "t1")))).
Proof.
  apply upsert_keeps_catalog_unique. split.
  - repeat constructor; cbn; intuition discriminate.
  - intros r1 r2 [<-|[<-|[]]] [<-|[<-|[]]] Hne _; try reflexivity; now contradiction Hne.
Defined.

Lemma option_string_eqb_refl x : option_string_eqb x x = true.
Proof. destruct x; cbn; [apply String.eqb_refl | reflexivity]. Qed.

Lemma find_map_updated (p : addon_row -> bool) (upd : addon_row -> addon_row) t existing :
  List.NoDup (List.map a_id t) ->
  List.find p t = Some existing ->
  (forall r, a_id r <> a_id existing -> upd r = r) ->
  p (upd existing) = true ->
  List.find p (List.map upd t) = Some (upd existing).
Proof.
  intros Hnd Hfind Hother Hp. induction t as [|x t IH]; [discriminate|].
  cbn in Hnd. apply List.NoDup_cons_iff in Hnd as [Hx Hnd]. cbn [List.find List.map] in *.
  destruct (p x) eqn:Hpx.
  - injection Hfind as ->. now rewrite Hp.
  - assert (Hne : a_id x <> a_id existing).
    { intros E. apply Hx. rewrite E. apply in_map. now apply find_some in Hfind as [Hin _]. }
    rewrite (Hother x Hne), Hpx. now apply IH.
Qed.

Lemma find_map_updated_new (p : addon_row -> bool) (upd : addon_row -> addon_row) t existing :
  List.NoDup (List.map a_id t) ->
  List.find p t = None -> In existing t ->
  (forall r, a_id r <> a_id existing -> upd r = r) ->
  p (upd existing) = true ->
  List.find p (List.map upd t) = Some (upd existing).
Proof.
  intros Hnd Hfind Hin Hother Hp. induction t as [|x t IH]; [destruct Hin|].
  cbn in Hnd. apply List.NoDup_cons_iff in Hnd as [Hx Hnd]. cbn [List.find List.map] in *.
  destruct (p x) eqn:Hpx; [discriminate|]. destruct Hin as [->|Hin].
  - now rewrite Hp.
  - assert (Hne : a_id x <> a_id existing).
    { intros E. apply Hx. rewrite E. now apply in_map. }
    rewrite (Hother x Hne), Hpx. now apply IH.
Qed.

Lemma find_never {A : Type} (p : A -> bool) (l : list A) :
  (forall x, p x = false) -> List.find p l = None.
Proof. intros H. induction l as [|x l IH]; [reflexivity|]. cbn. now rewrite H. Qed.

Lemma existsb_map_same {A : Type} (f h : A -> bool) (g : A -> A) (l : list A) :
  (forall x, f (g x) = h x) -> existsb f (List.map g l) = existsb h l.
Proof. intros H. induction l as [|x l IH]; [reflexivity|]. cbn. now rewrite H, IH. Qed.

(** The row updated by [upsert_addon] is the row that the same record
    finds afterwards. *)
Lemma upsert_existing_updated t name repo_url existing (upd : addon_row -> addon_row) :
  List.NoDup (List.map a_id t) ->
  upsert_existing t name repo_url = Some existing ->
  (forall r, a_id r <> a_id existing -> upd r = r) ->
  a_name (upd existing) = a_name existing -> a_repo_url (upd existing) = repo_url ->
  upsert_existing (List.map upd t) name repo_url = Some (upd existing).
Proof.
  intros Hnd Hex Hother Hname Hurl. unfold upsert_existing in *.
  destruct (List.find _ t) as [r1|] eqn:F1.
  - injection Hex as ->.
    rewrite (find_map_updated _ upd t existing Hnd F1 Hother); [reflexivity|].
    apply find_some in F1 as [_ Hp]. apply andb_prop in Hp as [Hn Hu].
    rewrite Hname, Hn, Hurl. apply sql_eq_true in Hu as [Hu1 Hu2]. cbn [andb].
    apply sql_eq_same. congruence.
  - pose proof (find_some _ _ Hex) as [Hin Hp]. apply andb_prop in Hp as [Hn _].
    destruct repo_url as [u|].
    + rewrite (find_map_updated_new _ upd t existing Hnd F1 Hin Hother); [reflexivity|].
      rewrite Hname, Hn, Hurl. cbn. apply String.eqb_refl.
    + rewrite find_never.
      2:{ intros x. destruct (a_repo_url x); cbn; apply andb_false_r. }
      rewrite (find_map_updated _ upd t existing Hnd Hex Hother); [reflexivity|].
      now rewrite Hname, Hn, Hurl.
Qed.

(** X10: storing the same record a second time finds the row of the first
    time: the same id is returned, no row and no history record is added,
    and nothing but the update time of that row changes. *)
Theorem upsert_twice_is_quiet (json_dumps : list string -> string)
    d data now1 now2 d1 data1 id :
  List.NoDup (List.map a_id (addons d)) ->
  upsert_addon json_dumps d data now1 = (d1, data1, Returned id) ->
  upsert_addon json_dumps d1 data now2
  = (set_addons d1 (List.map (fun r => if Nat.eqb (a_id r) id
                                       then a_set_updated_at r now2 else r) (addons d1)),
     data1, Returned id).
Proof.
  intros Hids. unfold upsert_addon.
  destruct (dump_tags_fields json_dumps data) as (Hn & Hu & Hd & Ht & _).
  set (data' := dump_tags json_dumps data) in *.
  destruct (upsert_existing (addons d) (d_name data') (d_repo_url data'))
    as [existing|] eqn:Hfind.
  - destruct (unique_violation (addons d) (a_id existing) (a_name existing) (d_repo_url data'))
      eqn:Hviol; [discriminate|].
    intros [= <- <- <-]. cbn [addons set_addon_history set_addons].
    set (upd := fun r => if Nat.eqb (a_id r) (a_id existing)
                         then a_set_upsert r (d_repo_url data') (d_description data')
                                (tags_param json_dumps data') now1
                         else r).
    assert (Hupd : upd existing
                   = a_set_upsert existing (d_repo_url data') (d_description data')
                       (tags_param json_dumps data') now1).
    { unfold upd. now rewrite Nat.eqb_refl. }
    rewrite (upsert_existing_updated (addons d) _ _ existing upd Hids Hfind).
    2:{ intros r Hne. unfold upd. apply Nat.eqb_neq in Hne. now rewrite Hne. }
    2:{ now rewrite Hupd. }
    2:{ now rewrite Hupd. }
    assert (Hviol' : unique_violation (List.map upd (addons d)) (a_id (upd existing))
                       (a_name (upd existing)) (d_repo_url data') = false).
    { rewrite Hupd. cbn [a_id a_name a_set_upsert]. rewrite <- Hviol.
      unfold unique_violation. apply existsb_map_same. intros r.
      unfold upd. destruct (Nat.eqb (a_id r) (a_id existing)) eqn:E; [|now rewrite E].
      cbn [a_id a_set_upsert]. now rewrite E. }
    rewrite Hviol'.
    assert (Hchanges : upsert_changes json_dumps (upd existing) data' now2 = []).
    { rewrite Hupd. unfold upsert_changes. cbn [a_description a_tags a_repo_url a_set_upsert].
      now rewrite !option_string_eqb_refl. }
    assert (Hidu : a_id (upd existing) = a_id existing) by now rewrite Hupd.
    rewrite Hchanges, app_nil_r, Hidu. f_equal. f_equal.
    unfold set_addon_history, set_addons. cbn.
    f_equal. rewrite !List.map_map. apply List.map_ext. intros r. unfold upd.
    destruct (Nat.eqb (a_id r) (a_id existing)) eqn:E; [|now rewrite E].
    cbn [a_id a_set_upsert]. now rewrite E.
  - intros [= <- <- <-]. cbn [addons set_addons].
    set (row := {| a_id := next_id a_id (addons d); a_name := d_name data';
                   a_repo_url := d_repo_url data'; a_override_url := None;
                   a_status := None; a_host := Some (_detect_host (d_repo_url data'));
                   a_description := d_description data'; a_homepage_url := None;
                   a_license := None; a_category := None; a_compatible_client := None;
                   a_latest_version := None; a_install_method := None;
                   a_tags := tags_param json_dumps data';
                   a_created_at_utc := Some now1; a_updated_at_utc := Some now1;
                   a_deleted_at_utc := None |}).
    assert (Hnone : forall r, In r (addons d) -> a_name r = d_name data' ->
                              sql_eq (a_repo_url r) (d_repo_url data') = false
                              /\ a_repo_url r <> None).
    { intros r Hr Hname. now apply (upsert_existing_none _ _ _ r Hfind). }
    assert (Hrow : upsert_existing (addons d ++ [row]) (d_name data') (d_repo_url data')
                   = Some row).
    { unfold upsert_existing in *. rewrite !find_app.
      destruct (List.find _ (addons d)) as [r1|] eqn:F1; [discriminate|].
      rewrite Hfind. cbn [List.find a_name a_repo_url row]. rewrite String.eqb_refl.
      cbn [andb]. destruct (d_repo_url data') as [u|]; cbn; [|reflexivity].
      now rewrite String.eqb_refl. }
    rewrite Hrow.
    assert (Hviol : unique_violation (addons d ++ [row]) (a_id row) (a_name row)
                      (d_repo_url data') = false).
    { unfold unique_violation. rewrite existsb_app. cbn [existsb].
      rewrite Nat.eqb_refl. cbn [negb andb orb]. rewrite orb_false_r.
      destruct (existsb _ (addons d)) eqn:E; [|reflexivity]. exfalso.
      apply existsb_exists in E as (r & Hr & Hc).
      apply andb_prop in Hc as [Hc Hs]. apply andb_prop in Hc as [_ Hnm].
      apply String.eqb_eq in Hnm. cbn [a_name row] in Hnm.
      destruct (Hnone r Hr Hnm) as [Hf _]. rewrite Hf in Hs. discriminate. }
    rewrite Hviol.
    assert (Hchanges : upsert_changes json_dumps row data' now2 = []).
    { unfold upsert_changes, row. cbn [a_description a_tags a_repo_url].
      now rewrite !option_string_eqb_refl. }
    rewrite Hchanges, app_nil_r. f_equal. f_equal. unfold set_addon_history, set_addons. cbn.
    f_equal. apply List.map_ext_in. intros r Hr.
    apply in_app_iff in Hr as [Hr|[<-|[]]].
    + pose proof (next_id_fresh a_id (addons d) r Hr) as Hlt.
      assert (E : Nat.eqb (a_id r) (next_id a_id (addons d)) = false)
        by (apply Nat.eqb_neq; lia).
      now rewrite E.
    + cbn [a_id row]. now rewrite Nat.eqb_refl.
Qed.

Lemma upsert_twice_is_quiet_witness :
  let d := sample_db [sample_addon 1 "Foo" (Some "https://github.com/a/foo") None] [] in
  let data := {| d_name := "Bar"; d_repo_url := Some "https://github.com/b/bar";
                 d_description := Some "bars"; d_tags := Some (TagsList ["x"]) |} in
  let first := upsert_addon (fun _ => "[x]") d data "t1" in
  snd (upsert_addon (fun _ => "[x]") (fst (fst first)) data "t2") = Returned 2%nat.
Proof.
  intros d data first.
  rewrite (upsert_twice_is_quiet (fun _ => "[x]") d data "t1" "t2"
             (fst (fst first)) (snd (fst first)) 2%nat).
  - reflexivity.
  - repeat constructor. intros [].
  - reflexivity.
Defined.

(** ** Removal by the stored name *)

Lemma remove_addon_table self w addon_name now :
  snd (remove_addon self w addon_name now) = true ->
  installed (db (fst (remove_addon self w addon_name now)))
  = sql_soft_delete (installed (db self)) now addon_name
  /\ events (db (fst (remove_addon self w addon_name now)))
     = events (db self) ++ [ {| e_ts_utc := now; e_kind := "addon_removed";
                                e_addon_name := Some addon_name; e_details := None |} ]
  /\ addons (db (fst (remove_addon self w addon_name now))) = addons (db self).
Proof.
  unfold remove_addon. destruct (addon_path self); [|cbn; discriminate].
  destruct (PyDict.get _ _); [|cbn; discriminate].
  destruct (negb (rm_repos_mkdir_ok w)); [cbn; discriminate|].
  destruct (if rm_exists w _ then _ else _); [|cbn; discriminate].
  intros _. repeat split.
Qed.

Lemma get_installed_addons_key self k info :
  PyDict.get (get_installed_addons self) k = Some info -> PyStr.lower (info_name info) = k.
Proof.
  intros H. apply pydict_get_in, get_installed_addons_entry in H.
  now destruct H as (r & _ & _ & -> & ->).
Qed.

Lemma remove_addon_stored_name self w now k info :
  List.NoDup (List.map installed_key (List.filter i_live (installed (db self)))) ->
  PyDict.get (get_installed_addons self) k = Some info ->
  snd (remove_addon self w (info_name info) now) = true ->
  PyDict.mem (get_installed_addons (fst (remove_addon self w (info_name info) now))) k = false.
Proof.
  intros Hnd Hget Hok.
  destruct (PyDict.mem _ k) eqn:Hmem; [exfalso | reflexivity].
  apply get_installed_addons_mem in Hmem as (r & Hr & Hl & Hk).
  destruct (remove_addon_table self w (info_name info) now Hok) as (Ht & _).
  rewrite Ht in Hr.
  assert (Hlive : In r (List.filter i_live (sql_soft_delete (installed (db self)) now
                                              (info_name info))))
    by (apply filter_In; now split).
  rewrite soft_delete_live in Hlive. apply filter_In in Hlive as [Hr0 Hnot].
  apply pydict_get_in, get_installed_addons_entry in Hget as (r0 & Hin0 & Hl0 & Hk0 & ->).
  assert (r = r0) as ->.
  { apply (NoDup_map_eq installed_key _ _ _ Hnd); [exact Hr0 | | congruence].
    apply filter_In. now split. }
  unfold i_named_live in Hnot. cbn [info_name info_of_row] in Hnot.
  now rewrite String.eqb_refl, Hl0 in Hnot.
Qed.

(** X11: when the live records have pairwise distinct case-insensitive
    names and [remove_addon] is given the name as it is stored, a removal
    that returns [True] leaves the add-on not installed, appends one
    [addon_removed] event and leaves the catalog alone. *)
Theorem remove_then_not_installed self w addon_name now info :
  List.NoDup (List.map installed_key (List.filter i_live (installed (db self)))) ->
  PyDict.get (get_installed_addons self) (PyStr.lower addon_name) = Some info ->
  info_name info = addon_name ->
  snd (remove_addon self w addon_name now) = true ->
  is_installed (fst (remove_addon self w addon_name now)) addon_name = false
  /\ events (db (fst (remove_addon self w addon_name now)))
     = events (db self) ++ [ {| e_ts_utc := now; e_kind := "addon_removed";
                                e_addon_name := Some addon_name; e_details := None |} ]
  /\ addons (db (fst (remove_addon self w addon_name now))) = addons (db self).
Proof.
  intros Hnd Hget <- Hok. split; [|now apply remove_addon_table].
  unfold is_installed. now apply remove_addon_stored_name.
Qed.

Lemma remove_then_not_installed_witness :
  is_installed
    (fst (remove_addon
            (new_installer (sample_db [] [sample_installed 1 "Foo" "/wow/Interface/AddOns/Foo" ""])
                           (Some sample_root))
            world_nothing_on_disk "Foo" "t2"))
    "Foo"
  = false.
Proof.
  refine (proj1 (remove_then_not_installed
                   (new_installer
                      (sample_db [] [sample_installed 1 "Foo" "/wow/Interface/AddOns/Foo" ""])
                      (Some sample_root))
                   world_nothing_on_disk "Foo" "t2" _ _ eq_refl eq_refl eq_refl)).
  repeat constructor. intros [].
Defined.

(** X12: the [remove] command of the command line hands the stored name to
    [remove_addon]: when the live records have pairwise distinct
    case-insensitive names, the command was confirmed and it ends with
    status 0, the add-on is no longer installed, in whatever case its name
    was typed. *)
Theorem cli_remove_any_case self w addon_name confirm response now :
  List.NoDup (List.map installed_key (List.filter i_live (installed (db self)))) ->
  is_installed self addon_name = true ->
  confirm || response = true ->
  snd (cli_remove self w addon_name confirm response now) = Returned 0%Z ->
  is_installed (fst (cli_remove self w addon_name confirm response now)) addon_name = false.
Proof.
  intros Hnd Hin Hgo. unfold cli_remove. rewrite Hin. cbn [negb].
  destruct (PyDict.get _ _) as [info|] eqn:Hget; [|discriminate].
  assert (Hc : negb confirm && negb response = false) by now destruct confirm, response.
  rewrite Hc.
  pose proof (remove_addon_stored_name self w now _ info Hnd Hget) as H.
  destruct (remove_addon self w (info_name info) now) as [self' success].
  destruct success; [|discriminate]. intros _. cbn [fst snd] in *.
  unfold is_installed. now apply H.
Qed.

Lemma cli_remove_any_case_witness :
  is_installed
    (fst (cli_remove
            (new_installer (sample_db [] [sample_installed 1 "Foo" "/wow/Interface/AddOns/Foo" ""])
                           (Some sample_root))
            world_nothing_on_disk "foo" true false "t2"))
    "foo"
  = false.
Proof.
  refine (cli_remove_any_case
            (new_installer (sample_db [] [sample_installed 1 "Foo" "/wow/Interface/AddOns/Foo" ""])
                           (Some sample_root))
            world_nothing_on_disk "foo" true false "t2" _ eq_refl eq_refl eq_refl).
  repeat constructor. intros [].
Defined.

(** ** Manifests found in an archive *)

Lemma existsb_eqb_in (x : string) (l : list string) :
  existsb (String.eqb x) l = true <-> In x l.
Proof.
  rewrite existsb_exists. split.
  - intros (y & Hy & E). apply String.eqb_eq in E. now subst.
  - intros H. exists x. split; [exact H | apply String.eqb_refl].
Qed.

Lemma addon_folders_step_grows acc toc x :
  In x (fst acc) -> In x (fst (addon_folders_step acc toc)).
Proof.
  destruct acc as [af seen]. unfold addon_folders_step.
  destruct (existsb _ seen); [tauto|]. destruct (library_folder _); [tauto|].
  cbn. rewrite in_app_iff. tauto.
Qed.

Lemma addon_folders_fold toc_files :
  forall acc,
    List.NoDup (List.map snd (fst acc)) ->
    (forall p, In p (snd acc) <-> In p (List.map snd (fst acc))) ->
    (forall n p, In (n, p) (fst acc) -> n = basename p /\ library_folder n = false) ->
    let result := fold_left addon_folders_step toc_files acc in
    List.NoDup (List.map snd (fst result))
    /\ (forall n p, In (n, p) (fst result) -> n = basename p /\ library_folder n = false)
    /\ (forall x, In x (fst acc) -> In x (fst result))
    /\ (forall toc, In toc toc_files ->
                    library_folder (basename (toc_parent toc)) = false ->
                    In (basename (toc_parent toc), toc_parent toc) (fst result)).
Proof.
  induction toc_files as [|toc rest IH]; intros acc Hnd Hseen Hnames; cbn zeta.
  - cbn [fold_left]. split; [exact Hnd|]. split; [exact Hnames|].
    split; [tauto | intros toc []].
  - cbn [fold_left].
    assert (Hstep : List.NoDup (List.map snd (fst (addon_folders_step acc toc)))
                    /\ (forall p, In p (snd (addon_folders_step acc toc))
                                  <-> In p (List.map snd (fst (addon_folders_step acc toc))))
                    /\ (forall n p, In (n, p) (fst (addon_folders_step acc toc)) ->
                                    n = basename p /\ library_folder n = false)
                    /\ (library_folder (basename (toc_parent toc)) = false ->
                        In (basename (toc_parent toc), toc_parent toc)
                           (fst (addon_folders_step acc toc)))).
    { destruct acc as [af seen]. cbn [fst snd] in *. unfold addon_folders_step.
      destruct (existsb (String.eqb (toc_parent toc)) seen) eqn:Hin.
      - cbn [fst snd]. split; [exact Hnd|]. split; [exact Hseen|]. split; [exact Hnames|].
        intros _. apply existsb_eqb_in, Hseen, in_map_iff in Hin as ([n p] & Hp & Hnp).
        cbn in Hp. subst p. destruct (Hnames n _ Hnp) as [-> _]. exact Hnp.
      - destruct (library_folder (basename (toc_parent toc))) eqn:Hlib.
        + cbn [fst snd]. split; [exact Hnd|]. split; [exact Hseen|]. split; [exact Hnames|].
          discriminate.
        + cbn [fst snd]. split; [|split; [|split]].
          * rewrite List.map_app. cbn [List.map snd]. apply List.NoDup_app.
            -- exact Hnd.
            -- repeat constructor. intros [].
            -- intros p Hp [<-|[]]. apply Hseen, existsb_eqb_in in Hp.
               rewrite Hp in Hin. discriminate.
          * intros p. rewrite List.map_app, in_app_iff. cbn. rewrite <- Hseen. tauto.
          * intros n p Hnp. apply in_app_iff in Hnp as [Hnp|[[= <- <-]|[]]].
            -- now apply Hnames.
            -- now split.
          * intros _. rewrite in_app_iff. right. now left. }
    destruct Hstep as (Hnd' & Hseen' & Hnames' & Hadd).
    destruct (IH (addon_folders_step acc toc) Hnd' Hseen' Hnames') as (R1 & R2 & R3 & R4).
    split; [exact R1|]. split; [exact R2|]. split.
    + intros x Hx. apply R3. now apply addon_folders_step_grows.
    + intros toc' [<-|Hin] Hlib; [apply R3; now apply Hadd | now apply R4].
Qed.

Lemma addon_folders_origin toc_files acc0 :
  forall n p,
    In (n, p) (fst (fold_left addon_folders_step toc_files acc0)) ->
    In (n, p) (fst acc0) \/ exists toc, In toc toc_files /\ toc_parent toc = p.
Proof.
  apply (fold_left_invariant addon_folders_step
           (fun acc => forall n p, In (n, p) (fst acc) ->
                                   In (n, p) (fst acc0)
                                   \/ exists toc, In toc toc_files /\ toc_parent toc = p)).
  - intros n p H. now left.
  - intros [af seen] toc Htoc IH n p. unfold addon_folders_step.
    destruct (existsb _ seen); [apply IH|]. destruct (library_folder _); [apply IH|].
    cbn [fst]. rewrite in_app_iff. intros [H|[[= <- <-]|[]]]; [now apply IH|].
    right. now exists toc.
Qed.

(** X14: [_get_addon_folders] returns each directory that holds a manifest
    once, under its own name, and never a directory called [Libs], [libs]
    or [Libraries]; every other directory that holds a manifest is
    returned. *)
Theorem get_addon_folders_spec (toc_files : list toc_file) :
  List.NoDup (List.map snd (_get_addon_folders toc_files))
  /\ forall name folder,
      In (name, folder) (_get_addon_folders toc_files)
      <-> name = basename folder /\ library_folder name = false
          /\ exists toc, In toc toc_files /\ toc_parent toc = folder.
Proof.
  assert (H0 : _get_addon_folders toc_files
               = fst (fold_left addon_folders_step toc_files ([], []))).
  { now destruct toc_files. }
  rewrite H0.
  destruct (addon_folders_fold toc_files ([], [])) as (R1 & R2 & _ & R4).
  - constructor.
  - cbn. tauto.
  - intros n p [].
  - split; [exact R1|]. intros name folder. split.
    + intros H. destruct (R2 _ _ H) as [Hn Hl]. split; [exact Hn|]. split; [exact Hl|].
      apply addon_folders_origin in H as [[]|H]. exact H.
    + intros (-> & Hl & toc & Hin & <-). now apply R4.
Qed.

(** ** Manifests found in a checkout *)

Lemma scan_subfolders_step_eq subfolders toc :
  scan_subfolders_step subfolders toc
  = if subfolder_addon toc && negb (existsb (String.eqb (rt_relative toc)) subfolders)
    then subfolders ++ [rt_relative toc]
    else subfolders.
Proof.
  unfold scan_subfolders_step, subfolder_addon.
  destruct (library_folder _); [reflexivity|].
  destruct (toc_matches_folder _ _); [|reflexivity].
  cbn [negb andb]. reflexivity.
Qed.

Lemma scan_subfolders_fold tocs :
  forall acc,
    List.NoDup acc ->
    let result := fold_left scan_subfolders_step tocs acc in
    List.NoDup result
    /\ (forall s, In s acc -> In s result)
    /\ (forall toc, In toc tocs -> subfolder_addon toc = true -> In (rt_relative toc) result)
    /\ (forall s, In s result ->
                  In s acc \/ exists toc, In toc tocs /\ subfolder_addon toc = true
                                          /\ rt_relative toc = s).
Proof.
  induction tocs as [|toc rest IH]; intros acc Hnd; cbn zeta; cbn [fold_left].
  - split; [exact Hnd|]. split; [tauto|]. split; [intros toc []|]. intros s H. now left.
  - assert (Hstep : List.NoDup (scan_subfolders_step acc toc)
                    /\ (forall s, In s acc -> In s (scan_subfolders_step acc toc))
                    /\ (subfolder_addon toc = true ->
                        In (rt_relative toc) (scan_subfolders_step acc toc))
                    /\ (forall s, In s (scan_subfolders_step acc toc) ->
                                  In s acc \/ (subfolder_addon toc = true
                                               /\ rt_relative toc = s))).
    { rewrite scan_subfolders_step_eq. destruct (subfolder_addon toc); cbn [andb].
      - destruct (existsb _ acc) eqn:Hin; cbn [negb].
        + split; [exact Hnd|]. split; [tauto|]. split; [|tauto].
          intros _. now apply existsb_eqb_in.
        + split.
          * apply List.NoDup_app; [exact Hnd | repeat constructor; intros [] |].
            intros s Hs [<-|[]]. apply existsb_eqb_in in Hs. rewrite Hs in Hin. discriminate.
          * split; [intros s Hs; apply in_app_iff; now left|].
            split; [intros _; apply in_app_iff; right; now left|].
            intros s Hs. apply in_app_iff in Hs as [Hs|[<-|[]]]; [now left | now right].
      - split; [exact Hnd|]. split; [tauto|]. split; [discriminate | tauto]. }
    destruct Hstep as (S1 & S2 & S3 & S4).
    destruct (IH (scan_subfolders_step acc toc) S1) as (R1 & R2 & R3 & R4).
    split; [exact R1|]. split; [intros s Hs; apply R2, S2, Hs|]. split.
    + intros toc' [<-|Hin] Hq; [apply R2, S3, Hq | now apply R3].
    + intros s Hs. destruct (R4 s Hs) as [H|(toc' & Hin & Hq & E)].
      * destruct (S4 s H) as [H'|[Hq E]]; [now left|]. right. exists toc. repeat split; auto.
        now left.
      * right. exists toc'. repeat split; auto. now right.
Qed.

(** X15: [_scan_git_subfolders] returns each sub-directory once and never
    the root of the checkout; it returns exactly the directories that hold
    a manifest named like the directory (case, [-] and [_] set aside) and
    are not called [Libs], [libs] or [Libraries]. *)
Theorem scan_git_subfolders_spec (tocs : list repo_toc) :
  List.NoDup (_scan_git_subfolders tocs)
  /\ ~ In "." (_scan_git_subfolders tocs)
  /\ forall s,
      In s (_scan_git_subfolders tocs)
      <-> exists toc,
          In toc tocs /\ rt_relative toc = s /\ s <> "."
          /\ library_folder (rt_folder_name toc) = false
          /\ toc_matches_folder (rt_stem toc) (rt_folder_name toc) = true.
Proof.
  unfold _scan_git_subfolders.
  destruct (scan_subfolders_fold tocs [] (List.NoDup_nil _)) as (R1 & _ & R3 & R4).
  assert (Hq : forall toc, subfolder_addon toc = true
                           <-> rt_relative toc <> "."
                               /\ library_folder (rt_folder_name toc) = false
                               /\ toc_matches_folder (rt_stem toc) (rt_folder_name toc) = true).
  { intros toc. unfold subfolder_addon. rewrite !andb_true_iff, !negb_true_iff.
    rewrite String.eqb_neq. tauto. }
  split; [exact R1|]. split.
  - intros H. destruct (R4 _ H) as [[]|(toc & _ & Hs & E)]. apply Hq in Hs. tauto.
  - intros s. split.
    + intros H. destruct (R4 _ H) as [[]|(toc & Hin & Hs & <-)]. apply Hq in Hs.
      exists toc. tauto.
    + intros (toc & Hin & <- & Hne & Hl & Hm). apply R3; [exact Hin|]. apply Hq. tauto.
Qed.

Lemma scan_git_subfolders_root_only tocs :
  (forall toc, In toc tocs -> rt_relative toc = ".") -> _scan_git_subfolders tocs = [].
Proof.
  intros Hroot. unfold _scan_git_subfolders.
  destruct (scan_subfolders_fold tocs [] (List.NoDup_nil _)) as (_ & _ & _ & R4).
  destruct (fold_left scan_subfolders_step tocs []) as [|s l]; [reflexivity|]. exfalso.
  destruct (R4 s (or_introl eq_refl)) as [[]|(toc & Hin & Hq & E)].
  unfold subfolder_addon in Hq. rewrite (Hroot toc Hin) in Hq. cbn in Hq.
  now rewrite andb_false_r in Hq.
Qed.

(** X16: when every manifest of a checkout sits at its root, the checkout
    as a whole is linked under the name of the add-on: [_link_subfolders]
    asks for one link, from [addon_root/<addon_name>] to the checkout, and
    returns it. *)
Theorem root_manifest_links_whole_checkout w root repo_path addon_name tocs :
  scan_git_subfolders w repo_path = _scan_git_subfolders tocs ->
  (forall toc, In toc tocs -> rt_relative toc = ".") ->
  _link_subfolders w root repo_path addon_name
  = if link_ok w repo_path (path_join root addon_name)
    then Returned [(addon_name, path_join root addon_name)]
    else Raised.
Proof.
  intros Hscan Hroot. unfold _link_subfolders.
  now rewrite Hscan, (scan_git_subfolders_root_only tocs Hroot).
Qed.

Lemma root_manifest_links_whole_checkout_witness :
  _link_subfolders world_clone_ok sample_root
    (path_join (path_join sample_root ".repos") "foo") "Foo"
  = Returned [("Foo", path_join sample_root "Foo")].
Proof.
  refine (root_manifest_links_whole_checkout world_clone_ok sample_root
            (path_join (path_join sample_root ".repos") "foo") "Foo"
            [ {| rt_relative := "."; rt_folder_name := "foo"; rt_stem := "Foo" |} ]
            eq_refl _).
  intros toc [<-|[]]. reflexivity.
Defined.

(** ** Updates *)

Lemma get_installed_addons_get self r :
  List.NoDup (List.map installed_key (List.filter i_live (installed (db self)))) ->
  In r (installed (db self)) -> i_live r = true ->
  PyDict.get (get_installed_addons self) (installed_key r) = Some (info_of_row r).
Proof.
  intros Hnd Hr Hl. apply pydict_nodup_get; [apply get_installed_addons_nodup|].
  now apply get_installed_addons_unique.
Qed.

Lemma i_set_version_update_live r version now :
  i_live (i_set_version_update r version now) = i_live r.
Proof. reflexivity. Qed.

Lemma sql_update_version_live t version now name :
  List.filter i_live (sql_update_version t version now name)
  = sql_update_version (List.filter i_live t) version now name.
Proof.
  unfold sql_update_version. apply filter_map_same.
  intros r. now destruct (i_named_live name r).
Qed.

Lemma sql_update_version_keys t version now name :
  List.map installed_key (sql_update_version t version now name) = List.map installed_key t.
Proof.
  unfold sql_update_version. rewrite List.map_map. apply List.map_ext.
  intros r. now destruct (i_named_live name r).
Qed.

Lemma sql_update_version_frame t version now name :
  Forall2 same_but_version t (sql_update_version t version now name).
Proof.
  induction t as [|r t IH]; cbn; constructor; [|exact IH].
  unfold same_but_version. destruct (i_named_live name r); cbn; tauto.
Qed.

Lemma sql_update_version_none t version now name :
  (forall r, In r t -> i_named_live name r = false) ->
  sql_update_version t version now name = t.
Proof.
  intros H. unfold sql_update_version. rewrite <- (List.map_id t) at 2.
  apply List.map_ext_in. intros r Hr. now rewrite (H r Hr).
Qed.

Lemma with_db_same self : with_db self (set_installed (db self) (installed (db self))) = self.
Proof. destruct self as [[a i e h] p c]. reflexivity. Qed.

Lemma install_addon_registers_more self w addon_name repo_url use_git now :
  registers_more self (fst (install_addon self w addon_name repo_url use_git now)).
Proof.
  unfold install_addon. destruct use_git;
    [apply install_addon_git_registers_more | apply install_addon_zip_registers_more].
Qed.

Lemma sql_update_version_registers_more self version now name :
  registers_more self
    (with_db self (set_installed (db self)
                     (sql_update_version (installed (db self)) version now name))).
Proof.
  repeat split. intros n H. unfold is_installed in *.
  apply get_installed_addons_mem in H as (r & Hr & Hl & Hk).
  apply get_installed_addons_mem. cbn [with_db db set_installed installed].
  exists (if i_named_live name r then i_set_version_update r version now else r).
  split; [|split].
  - unfold sql_update_version. rewrite in_map_iff. now exists r.
  - now destruct (i_named_live name r).
  - now destruct (i_named_live name r).
Qed.

Lemma update_addon_registers_more self w addon_name now :
  registers_more self (fst (update_addon self w addon_name now)).
Proof.
  unfold update_addon.
  destruct (PyDict.get _ _) as [addon_info|]; [|apply registers_more_refl].
  destruct (if up_git_dir w _ then _ else _).
  - apply sql_update_version_registers_more.
  - destruct (PyStr.truthy _); [apply install_addon_registers_more | apply registers_more_refl].
Qed.

(** X17: [update_addon] answers [False] and does nothing for an add-on that
    is not installed; whatever it does otherwise (a pull, a
    reinstallation, a failure), no installed add-on ceases to be installed
    and the catalog is not written. *)
Theorem update_never_uninstalls self w addon_name now :
  (is_installed self addon_name = false ->
   update_addon self w addon_name now = (self, Returned false))
  /\ (forall n, is_installed self n = true ->
                is_installed (fst (update_addon self w addon_name now)) n = true)
  /\ addons (db (fst (update_addon self w addon_name now))) = addons (db self).
Proof.
  split; [|split].
  - unfold is_installed, PyDict.mem, update_addon.
    destruct (PyDict.get _ _); [discriminate | reflexivity].
  - apply update_addon_registers_more.
  - apply update_addon_registers_more.
Qed.

(** X18: an update by [git pull] of an add-on named as it is stored (the
    live records having pairwise distinct case-insensitive names) answers
    [True]; the version read from the manifest is then the installed
    version; no record changes but in [version] and [last_update_utc], and
    neither the catalog nor the event log is written. *)
Theorem update_by_pull_records_version self w r now :
  List.NoDup (List.map installed_key (List.filter i_live (installed (db self)))) ->
  In r (installed (db self)) -> i_live r = true ->
  up_git_dir w (i_path r) = true ->
  up_pull w (i_path r) = RunCompleted 0 ->
  let self' := fst (update_addon self w (i_name r) now) in
  snd (update_addon self w (i_name r) now) = Returned true
  /\ get_installed_version self' (i_name r) = Some (addon_version (up_install w) (i_path r))
  /\ Forall2 same_but_version (installed (db self)) (installed (db self'))
  /\ addons (db self') = addons (db self)
  /\ events (db self') = events (db self).
Proof.
  intros Hnd Hr Hl Hgit Hpull. cbn zeta. unfold update_addon.
  change (PyStr.lower (i_name r)) with (installed_key r).
  rewrite (get_installed_addons_get self r Hnd Hr Hl).
  cbn [info_of_row info_path]. rewrite Hgit, Hpull. cbn [Z.eqb fst snd].
  split; [reflexivity|]. split; [|split; [apply sql_update_version_frame | split; reflexivity]].
  set (version := addon_version (up_install w) (i_path r)).
  set (self' := with_db self _).
  assert (Hnd' : List.NoDup (List.map installed_key
                               (List.filter i_live (installed (db self'))))).
  { subst self'. cbn [with_db db set_installed installed].
    now rewrite sql_update_version_live, sql_update_version_keys. }
  assert (Hnl : i_named_live (i_name r) r = true).
  { unfold i_named_live. now rewrite String.eqb_refl, Hl. }
  assert (Hr' : In (i_set_version_update r version now) (installed (db self'))).
  { subst self'. cbn [with_db db set_installed installed]. unfold sql_update_version.
    rewrite in_map_iff. exists r. now rewrite Hnl. }
  pose proof (get_installed_addons_get self' _ Hnd' Hr' Hl) as Hget.
  unfold get_installed_version.
  change (PyStr.lower (i_name r)) with (installed_key (i_set_version_update r version now)).
  now rewrite Hget.
Qed.

Lemma update_by_pull_records_version_witness :
  get_installed_version
    (fst (update_addon
            (new_installer (sample_db [] [sample_installed 1 "Foo" "/wow/Interface/AddOns/Foo" ""])
                           (Some sample_root))
            {| up_exists := fun _ => true; up_git_dir := fun _ => true;
               up_path_str := fun p => p; up_behind := fun _ => Returned 2%Z;
               up_pull := fun _ => RunCompleted 0; up_install := world_clone_ok |}
            "Foo" "t1"))
    "Foo"
  = Some (addon_version world_clone_ok "/wow/Interface/AddOns/Foo").
Proof.
  refine (proj1 (proj2 (update_by_pull_records_version
                   (new_installer
                      (sample_db [] [sample_installed 1 "Foo" "/wow/Interface/AddOns/Foo" ""])
                      (Some sample_root))
                   {| up_exists := fun _ => true; up_git_dir := fun _ => true;
                      up_path_str := fun p => p; up_behind := fun _ => Returned 2%Z;
                      up_pull := fun _ => RunCompleted 0; up_install := world_clone_ok |}
                   (sample_installed 1 "Foo" "/wow/Interface/AddOns/Foo" "") "t1"
                   _ _ eq_refl eq_refl eq_refl))).
  - repeat constructor. intros [].
  - now left.
Defined.

(** X19: [update_addon] looks the add-on up without regard to letter case
    but writes the new version [WHERE name = ?]: given a name that differs
    in case from the stored one, a successful [git pull] answers [True]
    and leaves the database as it was. *)
Theorem update_pull_other_case_records_nothing self w r addon_name now :
  List.NoDup (List.map installed_key (List.filter i_live (installed (db self)))) ->
  In r (installed (db self)) -> i_live r = true ->
  PyStr.lower addon_name = PyStr.lower (i_name r) -> addon_name <> i_name r ->
  up_git_dir w (i_path r) = true ->
  up_pull w (i_path r) = RunCompleted 0 ->
  update_addon self w addon_name now = (self, Returned true).
Proof.
  intros Hnd Hr Hl Hlow Hne Hgit Hpull. unfold update_addon.
  rewrite Hlow. change (PyStr.lower (i_name r)) with (installed_key r).
  rewrite (get_installed_addons_get self r Hnd Hr Hl).
  cbn [info_of_row info_path]. rewrite Hgit, Hpull. cbn [Z.eqb].
  rewrite sql_update_version_none; [now rewrite with_db_same|].
  intros r' Hr'. destruct (i_named_live addon_name r') eqn:E; [exfalso | reflexivity].
  pose proof (i_named_live_name _ _ E) as Hn.
  assert (Hl' : i_live r' = true).
  { unfold i_named_live in E. now apply andb_prop in E as [_ Hl']. }
  assert (r' = r).
  { apply (NoDup_map_eq installed_key (List.filter i_live (installed (db self)))); auto.
    - apply filter_In. now split.
    - apply filter_In. now split.
    - unfold installed_key. now rewrite Hn. }
  subst r'. now apply Hne.
Qed.

Lemma update_pull_other_case_records_nothing_witness :
  update_addon
    (new_installer (sample_db [] [sample_installed 1 "Foo" "/wow/Interface/AddOns/Foo" ""])
                   (Some sample_root))
    {| up_exists := fun _ => true; up_git_dir := fun _ => true;
       up_path_str := fun p => p; up_behind := fun _ => Returned 2%Z;
       up_pull := fun _ => RunCompleted 0; up_install := world_clone_ok |}
    "foo" "t1"
  = (new_installer (sample_db [] [sample_installed 1 "Foo" "/wow/Interface/AddOns/Foo" ""])
                   (Some sample_root),
     Returned true).
Proof.
  refine (update_pull_other_case_records_nothing
            (new_installer
               (sample_db [] [sample_installed 1 "Foo" "/wow/Interface/AddOns/Foo" ""])
               (Some sample_root))
            {| up_exists := fun _ => true; up_git_dir := fun _ => true;
               up_path_str := fun p => p; up_behind := fun _ => Returned 2%Z;
               up_pull := fun _ => RunCompleted 0; up_install := world_clone_ok |}
            (sample_installed 1 "Foo" "/wow/Interface/AddOns/Foo" "") "foo" "t1"
            _ _ eq_refl eq_refl _ eq_refl eq_refl).
  - repeat constructor. intros [].
  - now left.
  - discriminate.
Defined.

Lemma check_updates_step_in w acc k info u :
  In u (check_updates_step w acc (k, info))
  <-> In u acc
      \/ (up_exists w (info_path info) = true
          /\ up_git_dir w (info_path info) = true
          /\ up_behind w (info_path info) = Returned (u_commits_behind u)
          /\ (0 < u_commits_behind u)%Z
          /\ u_name u = info_name info
          /\ u_path u = up_path_str w (info_path info)
          /\ u_current_version u = info_version info).
Proof.
  unfold check_updates_step. cbn [snd].
  destruct (up_exists w (info_path info)); cbn [negb];
    [|split; [now left | intros [Hu|(Hx & _)]; [exact Hu | discriminate]]].
  destruct (up_git_dir w (info_path info));
    [|split; [now left | intros [Hu|(_ & Hx & _)]; [exact Hu | discriminate]]].
  destruct (up_behind w (info_path info)) as [n|];
    [|split; [now left | intros [Hu|(_ & _ & Hx & _)]; [exact Hu | discriminate]]].
  destruct (0 <? n)%Z eqn:Hn.
  - apply Z.ltb_lt in Hn. rewrite in_app_iff. split.
    + intros [Hu|[<-|[]]]; [now left|]. right. cbn. repeat split; auto.
    + intros [Hu|(_ & _ & Hb & _ & H5 & H6 & H7)]; [now left|]. right. left.
      injection Hb as Hb. destruct u; cbn in *. congruence.
  - apply Z.ltb_ge in Hn. split; [now left|].
    intros [Hu|(_ & _ & Hb & Hpos & _)]; [exact Hu|]. injection Hb as Hb. lia.
Qed.

Lemma check_updates_fold w items :
  forall acc u,
    In u (fold_left (check_updates_step w) items acc)
    <-> In u acc
        \/ exists k info,
            In (k, info) items
            /\ up_exists w (info_path info) = true
            /\ up_git_dir w (info_path info) = true
            /\ up_behind w (info_path info) = Returned (u_commits_behind u)
            /\ (0 < u_commits_behind u)%Z
            /\ u_name u = info_name info
            /\ u_path u = up_path_str w (info_path info)
            /\ u_current_version u = info_version info.
Proof.
  induction items as [|[k info] items IH]; intros acc u; cbn [fold_left].
  - split; [now left | intros [Hu|(k & info & [] & _)]; exact Hu].
  - rewrite IH, check_updates_step_in. split.
    + intros [[Hu|Hnew]|(k' & i' & Hin & Hrest)].
      * now left.
      * right. exists k, info. split; [now left | exact Hnew].
      * right. exists k', i'. split; [now right | exact Hrest].
    + intros [Hu|(k' & i' & [Heq|Hin] & Hrest)].
      * left. now left.
      * injection Heq as -> ->. left. now right.
      * right. now exists k', i'.
Qed.

(** X20: every entry reported by [check_for_updates] stands for an
    installed add-on whose folder is a checkout with a positive number of
    commits behind, and carries the name under which [update_addon] finds
    that very record: the update then goes by [git pull] in the folder
    examined, and answers [True] when the pull exits with status 0. *)
Theorem reported_updates_can_be_pulled self w now u :
  In u (check_for_updates self w) ->
  exists info,
    PyDict.get (get_installed_addons self) (PyStr.lower (u_name u)) = Some info
    /\ u_name u = info_name info /\ u_current_version u = info_version info
    /\ up_exists w (info_path info) = true /\ up_git_dir w (info_path info) = true
    /\ up_behind w (info_path info) = Returned (u_commits_behind u)
    /\ (0 < u_commits_behind u)%Z
    /\ (up_pull w (info_path info) = RunCompleted 0 ->
        snd (update_addon self w (u_name u) now) = Returned true).
Proof.
  unfold check_for_updates. rewrite check_updates_fold.
  intros [[]|(k & info & Hin & He & Hg & Hb & Hn & Hname & _ & Hv)].
  assert (Hget : PyDict.get (get_installed_addons self) k = Some info).
  { apply pydict_nodup_get; [apply get_installed_addons_nodup | exact Hin]. }
  pose proof (get_installed_addons_key _ _ _ Hget) as Hk.
  exists info. rewrite Hname, Hk.
  repeat (split; [assumption || reflexivity|]).
  intros Hpull. unfold update_addon. rewrite Hk, Hget, Hg, Hpull. reflexivity.
Qed.

Lemma reported_updates_can_be_pulled_witness :
  exists info,
    PyDict.get
      (get_installed_addons
         (new_installer (sample_db [] [sample_installed 1 "Foo" "/wow/Interface/AddOns/Foo" ""])
                        (Some sample_root)))
      "foo" = Some info
    /\ "Foo" = info_name info /\ "unknown" = info_version info
    /\ true = true /\ true = true
    /\ Returned 2%Z = Returned 2%Z
    /\ (0 < 2)%Z
    /\ (RunCompleted 0 = RunCompleted 0 ->
        snd (update_addon
               (new_installer
                  (sample_db [] [sample_installed 1 "Foo" "/wow/Interface/AddOns/Foo" ""])
                  (Some sample_root))
               {| up_exists := fun _ => true; up_git_dir := fun _ => true;
                  up_path_str := fun p => p; up_behind := fun _ => Returned 2%Z;
                  up_pull := fun _ => RunCompleted 0; up_install := world_clone_ok |}
               "Foo" "t1") = Returned true).
Proof.
  exact (reported_updates_can_be_pulled
           (new_installer
              (sample_db [] [sample_installed 1 "Foo" "/wow/Interface/AddOns/Foo" ""])
              (Some sample_root))
           {| up_exists := fun _ => true; up_git_dir := fun _ => true;
              up_path_str := fun p => p; up_behind := fun _ => Returned 2%Z;
              up_pull := fun _ => RunCompleted 0; up_install := world_clone_ok |}
           "t1"
           {| u_name := "Foo"; u_path := "/wow/Interface/AddOns/Foo";
              u_current_version := "unknown"; u_commits_behind := 2 |}
           (or_introl eq_refl)).
Defined.

(** ** The toggle of the interface *)

Lemma sql_set_enabled_twice t a b name :
  sql_set_enabled (sql_set_enabled t a name) b name = sql_set_enabled t b name.
Proof.
  unfold sql_set_enabled. rewrite List.map_map. apply List.map_ext. intros r.
  destruct (i_named_live name r) eqn:E.
  - change (i_named_live name (i_set_enabled r a)) with (i_named_live name r).
    now rewrite E.
  - now rewrite E.
Qed.

Lemma sql_set_enabled_same t e name :
  (forall r, In r t -> i_named_live name r = true -> i_enabled r = Some e) ->
  sql_set_enabled t e name = t.
Proof.
  intros H. unfold sql_set_enabled. rewrite <- (List.map_id t) at 2.
  apply List.map_ext_in. intros r Hr. destruct (i_named_live name r) eqn:E; [|reflexivity].
  pose proof (H r Hr E) as He. destruct r. cbn in *. now rewrite He.
Qed.

Lemma find_sql_set_enabled t e name :
  List.find (i_named_live name) (sql_set_enabled t e name)
  = option_map (fun r => i_set_enabled r e) (List.find (i_named_live name) t).
Proof.
  induction t as [|r t IH]; [reflexivity|]. cbn [sql_set_enabled List.map List.find].
  destruct (i_named_live name r) eqn:E.
  - change (i_named_live name (i_set_enabled r e)) with (i_named_live name r).
    now rewrite E.
  - rewrite E. exact IH.
Qed.

Lemma disable_addon_db app d w name :
  snd (disable_addon app d w name) = true ->
  snd (fst (disable_addon app d w name))
  = set_installed d (sql_set_enabled (installed d) 0 name).
Proof.
  unfold disable_addon. destruct (List.find _ _); [|discriminate].
  destruct (if lw_present w _ then _ else _); [reflexivity | discriminate].
Qed.

Lemma enable_addon_db app d root w name :
  snd (enable_addon app d root w name) = true ->
  snd (fst (enable_addon app d root w name))
  = set_installed d (sql_set_enabled (installed d) 1 name).
Proof.
  unfold enable_addon. destruct (List.find _ _); [|discriminate].
  destruct root; [|discriminate].
  destruct (negb _); [discriminate|].
  destruct (if lw_exists w _ then _ else _); [|discriminate].
  destruct (lw_mklink w _ _) as [rc|]; [|discriminate].
  destruct (Z.eqb rc 0); [reflexivity | discriminate].
Qed.

Lemma toggle_addon_enabled_eq app d root w name :
  toggle_addon_enabled app d root w name
  = match List.find (i_named_live name) (installed d) with
    | None => (app, d, None)
    | Some addon_row =>
        if is_one (i_enabled addon_row) then
          (fst (fst (disable_addon app d w name)), snd (fst (disable_addon app d w name)),
           Some (snd (disable_addon app d w name)))
        else
          (fst (fst (enable_addon app d root w name)),
           snd (fst (enable_addon app d root w name)),
           Some (snd (enable_addon app d root w name)))
    end.
Proof.
  unfold toggle_addon_enabled. destruct (List.find _ _) as [row|]; [|reflexivity].
  destruct (is_one _).
  - now destruct (disable_addon app d w name) as [[a d'] s].
  - now destruct (enable_addon app d root w name) as [[a d'] s].
Qed.

Lemma set_installed_twice d t : set_installed (set_installed d t) (installed d) = d.
Proof. now destruct d. Qed.

(** X21: when the live records named like the selected add-on all carry
    the flag 0, or all the flag 1, a toggle that succeeds flips the flag
    of these records, and a second toggle that succeeds puts the database
    back as it was. *)
Theorem toggle_twice_restores app d root w1 w2 name e :
  (e = 0 \/ e = 1)%Z ->
  (forall r, In r (installed d) -> i_named_live name r = true -> i_enabled r = Some e) ->
  let r1 := toggle_addon_enabled app d root w1 name in
  let r2 := toggle_addon_enabled (fst (fst r1)) (snd (fst r1)) root w2 name in
  snd r1 = Some true -> snd r2 = Some true ->
  (forall r, In r (installed (snd (fst r1))) -> i_named_live name r = true ->
             i_enabled r = Some (1 - e)%Z)
  /\ snd (fst r2) = d.
Proof.
  intros He Hall. cbn zeta. rewrite (toggle_addon_enabled_eq app d).
  destruct (List.find (i_named_live name) (installed d)) as [row|] eqn:Hfind;
    [|cbn; discriminate].
  pose proof (find_some _ _ Hfind) as [Hin Hnl].
  rewrite (Hall row Hin Hnl).
  destruct He as [-> | ->]; cbn [is_one Z.eqb Pos.eqb fst snd].
  - intros Hs1. injection Hs1 as Hs1. rewrite (enable_addon_db _ _ _ _ _ Hs1).
    rewrite toggle_addon_enabled_eq. cbn [installed set_installed].
    rewrite find_sql_set_enabled, Hfind. cbn [option_map i_set_enabled i_enabled is_one Z.eqb Pos.eqb].
    cbn [fst snd]. intros Hs2. injection Hs2 as Hs2. rewrite (disable_addon_db _ _ _ _ Hs2).
    cbn [installed set_installed]. split.
    + intros r Hr Hn. apply (sql_set_enabled_flag _ _ _ _ Hr Hn).
    + rewrite sql_set_enabled_twice, (sql_set_enabled_same _ _ _ Hall).
      now destruct d.
  - intros Hs1. injection Hs1 as Hs1. rewrite (disable_addon_db _ _ _ _ Hs1).
    rewrite toggle_addon_enabled_eq. cbn [installed set_installed].
    rewrite find_sql_set_enabled, Hfind. cbn [option_map i_set_enabled i_enabled is_one Z.eqb Pos.eqb].
    cbn [fst snd]. intros Hs2. injection Hs2 as Hs2. rewrite (enable_addon_db _ _ _ _ _ Hs2).
    cbn [installed set_installed]. split.
    + intros r Hr Hn. apply (sql_set_enabled_flag _ _ _ _ Hr Hn).
    + rewrite sql_set_enabled_twice, (sql_set_enabled_same _ _ _ Hall).
      now destruct d.
Qed.

Lemma toggle_twice_restores_witness :
  let app := {| installed_addons := [] |} in
  let d := sample_db [] [sample_installed 1 "Foo" "/wow/Interface/AddOns/Foo" ""] in
  let r1 := toggle_addon_enabled app d (Some sample_root) world_links_ok "Foo" in
  let r2 := toggle_addon_enabled (fst (fst r1)) (snd (fst r1)) (Some sample_root)
                                 world_links_ok "Foo" in
  snd r1 = Some true /\ snd r2 = Some true /\ snd (fst r2) = d.
Proof.
  intros app d r1 r2. split; [reflexivity|]. split; [reflexivity|].
  refine (proj2 (toggle_twice_restores app d (Some sample_root) world_links_ok world_links_ok
                   "Foo" 1 (or_intror eq_refl) _ eq_refl eq_refl)).
  intros r [<-|[]] _. reflexivity.
Defined.

(** ** Override URLs *)

Lemma lookup_override self name row url :
  fetch_named (addons (db self)) name = Some row ->
  a_override_url row = Some url -> PyStr.truthy url = true ->
  lookup_repo_url self name None = Some url.
Proof.
  intros Hf Ho Ht. unfold lookup_repo_url. cbn [PyStr.otruthy negb]. rewrite Hf, Ho.
  unfold PyStr.or_else. cbn [PyStr.otruthy]. now rewrite Ht.
Qed.

Lemma fetch_named_set_override t override_url name (g : addon_row -> bool) :
  fetch_named (List.map (fun r => if g r then a_set_override r override_url else r) t) name
  = option_map (fun r => if g r then a_set_override r override_url else r)
               (fetch_named t name).
Proof.
  apply fetch_named_map; intros x; now destruct (g x).
Qed.

(** X22: once an override URL (not empty) is set for a catalogued name, an
    installation that is given no URL takes the override, and the other
    names resolve as before.  [Database.set_addon_override_url] writes
    live rows only: it has this effect when the row that the installation
    reads for that name is live, and none when that row is soft-deleted. *)
Theorem override_resolves_on_install self addon_name override_url :
  PyStr.truthy override_url = true ->
  (exists r, In r (addons (db self)) /\ a_name r = addon_name) ->
  lookup_repo_url (fst (set_override_url self addon_name override_url)) addon_name None
  = Some override_url
  /\ (forall other,
         other <> addon_name ->
         lookup_repo_url (fst (set_override_url self addon_name override_url)) other None
         = lookup_repo_url self other None)
  /\ (forall row,
         fetch_named (addons (db self)) addon_name = Some row -> a_live row = true ->
         lookup_repo_url
           (with_db self (set_addon_override_url (db self) addon_name override_url))
           addon_name None
         = Some override_url)
  /\ (forall row,
         fetch_named (addons (db self)) addon_name = Some row -> a_live row = false ->
         lookup_repo_url
           (with_db self (set_addon_override_url (db self) addon_name override_url))
           addon_name None
         = lookup_repo_url self addon_name None).
Proof.
  intros Ht Hex. apply fetch_named_some in Hex as (row & Hfetch).
  pose proof (fetch_named_in _ _ _ Hfetch) as [_ Hname].
  split; [|split; [|split]].
  - apply (lookup_override _ _ (a_set_override row override_url)); [|reflexivity|exact Ht].
    cbn [set_override_url fst with_db db set_addons addons].
    rewrite (fetch_named_set_override _ _ _ (fun r => String.eqb (a_name r) addon_name)), Hfetch. cbn [option_map].
    now rewrite Hname, String.eqb_refl.
  - intros other Hne. unfold lookup_repo_url. cbn [PyStr.otruthy negb].
    cbn [set_override_url fst with_db db set_addons addons].
    rewrite (fetch_named_set_override _ _ _ (fun r => String.eqb (a_name r) addon_name)).
    destruct (fetch_named (addons (db self)) other) as [r|] eqn:E; [|reflexivity].
    cbn [option_map]. apply fetch_named_in in E as [_ E].
    destruct (String.eqb (a_name r) addon_name) eqn:E'; [|reflexivity].
    apply String.eqb_eq in E'. congruence.
  - intros row' Hrow' Hlive. rewrite Hfetch in Hrow'. injection Hrow' as <-.
    apply (lookup_override _ _ (a_set_override row override_url)); [|reflexivity|exact Ht].
    cbn [set_addon_override_url with_db db set_addons addons].
    rewrite (fetch_named_set_override _ _ _ (fun r => String.eqb (a_name r) addon_name && a_live r)), Hfetch. cbn [option_map].
    now rewrite Hname, String.eqb_refl, Hlive.
  - intros row' Hrow' Hlive. rewrite Hfetch in Hrow'. injection Hrow' as <-.
    unfold lookup_repo_url. cbn [PyStr.otruthy negb].
    cbn [set_addon_override_url with_db db set_addons addons].
    rewrite (fetch_named_set_override _ _ _ (fun r => String.eqb (a_name r) addon_name && a_live r)), Hfetch. cbn [option_map].
    now rewrite Hlive, andb_false_r.
Qed.

Lemma override_resolves_on_install_witness :
  lookup_repo_url
    (fst (set_override_url
            (new_installer
               (sample_db [sample_addon 1 "Foo" (Some "https://github.com/b/foo") None;
                           sample_addon 2 "Foo" (Some "https://github.com/a/foo") None] [])
               (Some sample_root))
            "Foo" "https://github.com/me/foo"))
    "Foo" None
  = Some "https://github.com/me/foo".
Proof.
  refine (proj1 (override_resolves_on_install
                   (new_installer
                      (sample_db [sample_addon 1 "Foo" (Some "https://github.com/b/foo") None;
                                  sample_addon 2 "Foo" (Some "https://github.com/a/foo") None]
                                 [])
                      (Some sample_root))
                   "Foo" "https://github.com/me/foo" eq_refl _)).
  eexists. split; [now left | reflexivity].
Defined.







(** ** The [install] command *)

(** X24: the [install] command does nothing, with status 0, for an add-on
    that is installed already; when it installs, it passes the primary URL
    of the catalog row to the installer, so that this URL, and not an
    override URL, is the source of the record it leaves: a command that
    ends with status 0 for an add-on that was not installed found a live
    catalog row of that name (letter case set aside) with a primary URL,
    and left a live record whose source is that URL. *)
Theorem cli_install_uses_primary_url (loads_ok : string -> bool) self w addon_name now :
  (is_installed self addon_name = true ->
   cli_install loads_ok self w addon_name now = (self, Returned 0%Z))
  /\ (is_installed self addon_name = false ->
      snd (cli_install loads_ok self w addon_name now) = Returned 0%Z ->
      exists addon url rec,
        In addon (addons (db self)) /\ a_live addon = true
        /\ PyStr.lower (a_name addon) = PyStr.lower addon_name
        /\ a_repo_url addon = Some url /\ PyStr.truthy url = true
        /\ In rec (installed (db (fst (cli_install loads_ok self w addon_name now))))
        /\ i_live rec = true /\ i_source_repo_url rec = url).
Proof.
  unfold cli_install. split; [now intros ->|]. intros ->.
  destruct (get_addons loads_ok (db self)) as [rows|] eqn:Hget; [|discriminate].
  assert (Hrows : rows = List.filter a_live (addons (db self))).
  { unfold get_addons in Hget. destruct (forallb _ _); [now injection Hget | discriminate]. }
  destruct (List.find _ rows) as [addon|] eqn:Hfind; [|discriminate].
  apply find_some in Hfind as [Hin Hname]. apply String.eqb_eq in Hname.
  rewrite Hrows in Hin. apply filter_In in Hin as [Hin Hlive].
  destruct (PyStr.otruthy (a_repo_url addon)) eqn:Hurl; cbn [negb]; [|discriminate].
  pose proof (install_addon_success_source self w (a_name addon) (a_repo_url addon) true now)
    as Hsrc.
  destruct (install_addon self w (a_name addon) (a_repo_url addon) true now)
    as [self' [[|]|]]; cbn [fst snd] in *; try discriminate.
  intros _. destruct (Hsrc eq_refl) as (url & rec & Hlook & Ht & Hrec & Hl & Hs).
  rewrite (lookup_repo_url_truthy _ _ _ Hurl) in Hlook.
  exists addon, url, rec. repeat split; assumption.
Qed.

Lemma cli_install_uses_primary_url_witness :
  let self :=
    new_installer
      (sample_db [sample_addon 1 "Foo" (Some "https://github.com/a/foo")
                               (Some "https://github.com/me/foo")] [])
      (Some sample_root) in
  exists addon url rec,
    In addon (addons (db self)) /\ a_live addon = true
    /\ PyStr.lower (a_name addon) = PyStr.lower "foo"
    /\ a_repo_url addon = Some url /\ PyStr.truthy url = true
    /\ In rec (installed (db (fst (cli_install (fun _ => true) self world_clone_ok "foo" "t1"))))
    /\ i_live rec = true /\ i_source_repo_url rec = url.
Proof.
  intros self.
  exact (proj2 (cli_install_uses_primary_url (fun _ => true) self world_clone_ok "foo" "t1")
               eq_refl eq_refl).
Defined.

(** ** The version written in a manifest *)

(** X25: [_get_addon_version] reads the first line of the manifest that
    starts with [## Version:], whatever follows it, and returns the rest of
    that line without the white space around it; a manifest without such
    a line, like a folder without manifest, gives ["unknown"]. *)
Theorem get_addon_version_first_line (pre post : list string) (v : string) :
  Forall (fun line => PyStr.startswith "## Version:" line = false) pre ->
  _get_addon_version (Some (pre ++ ("## Version:" ++ v)%string :: post)) = strip v
  /\ _get_addon_version (Some pre) = "unknown"
  /\ _get_addon_version None = "unknown".
Proof.
  intros Hpre. cbn [_get_addon_version]. split; [|split; [|reflexivity]].
  - induction Hpre as [|line pre Hline _ IH]; cbn [app version_of_lines].
    + reflexivity.
    + now rewrite Hline.
  - induction Hpre as [|line pre Hline _ IH]; cbn [version_of_lines]; [reflexivity|].
    now rewrite Hline.
Qed.

Lemma get_addon_version_first_line_witness :
  _get_addon_version
    (Some ["## Interface: 11200"; "## Title: Foo"; "## Version:  1.4.2 "; "## Version: 9"; "Foo.lua"])
  = "1.4.2".
Proof.
  refine (proj1 (get_addon_version_first_line
                   ["## Interface: 11200"; "## Title: Foo"] ["## Version: 9"; "Foo.lua"]
                   "  1.4.2 " _)).
  repeat constructor.
Defined.

(** ** The list of broken add-ons *)

Lemma string_leb_refl s : String.leb s s = true.
Proof. now destruct (String.leb_total s s). Qed.

Lemma index_leb_name r x :
  index_leb r x = true -> String.leb (a_name r) (a_name x) = true.
Proof.
  unfold index_leb. destruct (String.eqb (a_name r) (a_name x)) eqn:E; [|trivial].
  apply String.eqb_eq in E. rewrite E. intros _. apply string_leb_refl.
Qed.

Lemma index_leb_false r x :
  index_leb r x = false -> String.leb (a_name x) (a_name r) = true.
Proof.
  unfold index_leb. destruct (String.eqb (a_name r) (a_name x)) eqn:E.
  - apply String.eqb_eq in E. rewrite E. intros _. apply string_leb_refl.
  - intros H. destruct (String.leb_total (a_name x) (a_name r)) as [H'|H']; [exact H'|].
    rewrite H' in H. discriminate.
Qed.

Lemma insert_by_name_in r l x : In x (insert_by_name r l) <-> x = r \/ In x l.
Proof.
  induction l as [|y l IH]; cbn [insert_by_name].
  - cbn. intuition congruence.
  - destruct (index_leb r y).
    + cbn. intuition congruence.
    + cbn [In]. rewrite IH. intuition congruence.
Qed.

Lemma order_by_name_in l x : In x (order_by_name l) <-> In x l.
Proof.
  unfold order_by_name. induction l as [|y l IH]; [reflexivity|].
  cbn [fold_right]. rewrite insert_by_name_in, IH. cbn. intuition congruence.
Qed.

Lemma insert_by_name_sorted r l :
  sorted_by_name l = true -> sorted_by_name (insert_by_name r l) = true.
Proof.
  induction l as [|x l IH]; [reflexivity|]. intros Hs. cbn [insert_by_name].
  destruct (index_leb r x) eqn:Hrx.
  - apply index_leb_name in Hrx.
    change (String.leb (a_name r) (a_name x) && sorted_by_name (x :: l) = true).
    now rewrite Hrx, Hs.
  - apply index_leb_false in Hrx. rename Hrx into Hxr.
    destruct l as [|y l].
    + cbn. now rewrite Hxr.
    + cbn [sorted_by_name] in Hs. apply andb_prop in Hs as [Hxy Hs].
      specialize (IH Hs). cbn [insert_by_name] in *.
      destruct (index_leb r y).
      * change (String.leb (a_name x) (a_name r) && sorted_by_name (r :: y :: l) = true).
        now rewrite Hxr, IH.
      * change (String.leb (a_name x) (a_name y)
                && sorted_by_name (y :: insert_by_name r l) = true).
        now rewrite Hxy, IH.
Qed.

Lemma order_by_name_sorted l : sorted_by_name (order_by_name l) = true.
Proof.
  unfold order_by_name. induction l as [|x l IH]; [reflexivity|].
  cbn [fold_right]. now apply insert_by_name_sorted.
Qed.

(** X26: once [set_addon_status(name, 'broken')] has run, every live row
    of that name is in the list of [get_broken_addons]; that list is in
    ascending order of name and holds only live rows that are marked
    broken or have no URL.  A status outside the four that the schema
    admits is refused for such a name: the call raises and the database
    stays as it was. *)
Theorem marked_broken_is_listed (loads_ok : string -> bool) d addon_name r l :
  In r (addons d) -> a_live r = true -> a_name r = addon_name ->
  get_broken_addons loads_ok (fst (set_addon_status d addon_name "broken")) = Returned l ->
  snd (set_addon_status d addon_name "broken") = Returned tt
  /\ In (a_set_status r "broken") l
  /\ sorted_by_name l = true
  /\ (forall x, In x l ->
                a_live x = true
                /\ (a_status x = Some "broken" \/ a_repo_url x = None
                    \/ a_repo_url x = Some ""))
  /\ (forall status, status_admitted status = false ->
                     set_addon_status d addon_name status = (d, Raised)).
Proof.
  intros Hin Hlive Hname Hget.
  assert (Hnl : a_named_live addon_name r = true).
  { unfold a_named_live. rewrite Hname, String.eqb_refl. exact Hlive. }
  assert (Hex : existsb (a_named_live addon_name) (addons d) = true).
  { apply existsb_exists. now exists r. }
  unfold set_addon_status in *. rewrite Hex in *.
  change (status_admitted "broken") with true in *. cbn [negb andb fst snd] in *.
  unfold get_broken_addons in Hget. cbn [addons set_addons] in Hget.
  destruct (forallb _ _); [|discriminate]. injection Hget as <-.
  split; [reflexivity|]. split; [|split; [apply order_by_name_sorted | split]].
  - apply order_by_name_in, filter_In. split.
    + rewrite in_map_iff. exists r. now rewrite Hnl.
    + unfold listed_as_broken.
      change (a_live (a_set_status r "broken")) with (a_live r). now rewrite Hlive.
  - intros x Hx. apply order_by_name_in, filter_In in Hx as [_ Hx].
    unfold listed_as_broken in Hx. apply andb_prop in Hx as [Hl Hb]. split; [exact Hl|].
    apply orb_prop in Hb as [Hb|Hb].
    + left. destruct (a_status x) as [s|]; [|discriminate]. cbn in Hb.
      apply String.eqb_eq in Hb. now subst s.
    + right. destruct (a_repo_url x) as [u|]; [|now left]. right.
      apply String.eqb_eq in Hb. now subst u.
  - intros status Hs. now rewrite Hs.
Qed.

Lemma marked_broken_is_listed_witness :
  In (a_set_status (sample_addon 2 "Foo" (Some "https://github.com/a/foo") None) "broken")
     [ a_set_status (sample_addon 1 "Bar" None None) "active";
       a_set_status (sample_addon 2 "Foo" (Some "https://github.com/a/foo") None) "broken" ].
Proof.
  refine (proj1 (proj2 (marked_broken_is_listed (fun _ => true)
                   (sample_db [sample_addon 2 "Foo" (Some "https://github.com/a/foo") None;
                               a_set_status (sample_addon 1 "Bar" None None) "active"] [])
                   "Foo" (sample_addon 2 "Foo" (Some "https://github.com/a/foo") None)
                   _ _ eq_refl eq_refl eq_refl))).
  now left.
Defined.
